(** * cloud-nuke: inventory building and batched deletion

    A shallow embedding of the Go sources
      - [aws/aws.go]       (package aws: region probing, [split],
                            [GetAllResources], [NukeAllResources]),
      - package gcp        ([zoneFromUrl], [regionFromZone],
                            [GetAllGceInstances]),
      - [commands/cli.go]  ([awsNuke] and its confirmation prompt),
    followed by the properties established for them.

    Conventions.  A Go [int] is a 64-bit two's-complement integer, written
    as a [Z] with the wrap-around spelled out by [int_wrap].  A Go slice or
    array of strings is a [list string]; a Go [map[string]T] is a
    [gmap string T].  A Go function returning [(T, error)] returns a pair of
    options when the distinction between "no value" and "some value" matters
    for a property, and a sum [error + T] otherwise.  Calls to the cloud
    provider are the fields of the classes [Plugins], [AwsApi], [GcpApi] and
    [Terminal]; calls that change the provider's state are answered from the
    history of calls made so far. *)

From Stdlib Require Import ZArith List String Ascii Bool Lia.
From stdpp Require Import gmap strings list.
Import ListNotations.

Local Open Scope Z_scope.

(** ** Go run-time model *)

(** How the evaluation of a Go function body ends: it returns, it panics, or
    it is still looping when the iteration budget of the model is used up. *)
Inductive outcome (A : Type) : Type :=
| Returned (a : A)
| Panicked (msg : string)
| Diverged.

Arguments Returned {A} a.
Arguments Panicked {A} msg.
Arguments Diverged {A}.

(** [int] arithmetic: results are reduced into [-2^63, 2^63). *)
Definition int_wrap (z : Z) : Z := (z + 2 ^ 63) mod 2 ^ 64 - 2 ^ 63.

Definition int_mul (a b : Z) : Z := int_wrap (a * b).
Definition int_add (a b : Z) : Z := int_wrap (a + b).
(** Go's [/] truncates towards zero. *)
Definition int_quot (a b : Z) : Z := int_wrap (Z.quot a b).

Definition min_int : Z := - 2 ^ 63.
Definition max_int : Z := 2 ^ 63 - 1.

(** [len(s)] as an [int]. *)
Definition len {A : Type} (s : list A) : Z := Z.of_nat (length s).

(** ** Errors *)

(** Go [error] values.  [errorString] is what [errors.New] and [fmt.Errorf]
    build; [withStack] is gruntwork-cli's stack-trace wrapper. *)
Inductive error : Type :=
| errorString (msg : string)
| withStack (err : error).

(** [err.Error()]: the wrapper reports the message of what it wraps. *)
Fixpoint Error (err : error) : string :=
  match err with
  | errorString msg => msg
  | withStack err' => Error err'
  end.

(** [errors.WithStackTrace(err)] for a non-nil [err]: an error that carries
    a stack trace already is returned as it is. *)
Definition WithStackTrace (err : error) : error :=
  match err with
  | withStack _ => err
  | errorString _ => withStack err
  end.

(** ** Library functions on strings and slices *)

(** [strings.Contains(s, substr)] *)
Fixpoint strings_Contains (s substr : string) : bool :=
  String.prefix substr s
  || match s with
     | EmptyString => false
     | String _ s' => strings_Contains s' substr
     end.

(** [collections.ListContainsElement(list, element)] (gruntwork-cli) *)
Fixpoint ListContainsElement (list : list string) (element : string) : bool :=
  match list with
  | [] => false
  | item :: list' => String.eqb item element || ListContainsElement list' element
  end.

(** [awsgo.StringValue]: the string a pointer points to, the empty string for nil. *)
Definition StringValue (p : option string) : string :=
  match p with
  | Some s => s
  | None => EmptyString
  end.

(** [awsgo.StringValueSlice] *)
Definition StringValueSlice (ps : list (option string)) : list string :=
  map StringValue ps.

(** [sort.Strings]: ascending byte-wise order (an insertion sort; only the
    order of the result matters). *)
Fixpoint sort_insert (s : string) (sorted : list string) : list string :=
  match sorted with
  | [] => [s]
  | t :: sorted' =>
      if String.leb s t then s :: sorted else t :: sort_insert s sorted'
  end.

Definition sort_Strings (l : list string) : list string :=
  fold_right sort_insert [] l.

(** [strings.Join] *)
Fixpoint strings_Join (elems : list string) (sep : string) : string :=
  match elems with
  | [] => EmptyString
  | [e] => e
  | e :: elems' => e +:+ sep +:+ strings_Join elems' sep
  end.

(** Sequencing of calls that return [(T, error)]. *)
Notation "x <- e ;; k" :=
  (match e with
   | inl err => inl err
   | inr x => k
   end)
  (at level 100, e at next level, k at level 200, right associativity,
   only parsing).

(** ** package aws *)

Module aws.

(** *** [split] *)

(** The loop of [split] (aws.go, lines 109-112):
<<
    for len(identifiers) >= limit {
        chunk, identifiers = identifiers[:limit], identifiers[limit:]
        chunks = append(chunks, chunk)
    }
>>
    It yields the chunks and what is left of [identifiers].  A negative
    [limit] makes the slice expression [identifiers[:limit]] panic. *)
Fixpoint split_loop (fuel : nat) (identifiers : list string) (limit : Z)
    (chunks : list (list string)) : outcome (list (list string) * list string) :=
  if len identifiers >=? limit then
    match fuel with
    | O => Diverged
    | S fuel' =>
        if limit <? 0 then Panicked "slice bounds out of range"
        else
          let chunk := firstn (Z.to_nat limit) identifiers in
          let identifiers' := skipn (Z.to_nat limit) identifiers in
          split_loop fuel' identifiers' limit (chunks ++ [chunk])
    end
  else Returned (chunks, identifiers).

(** Lines 107-117 of [split], entered with a non-zero [limit]. *)
Definition split_chunks (identifiers : list string) (limit : Z)
    : outcome (list (list string)) :=
  let capacity := int_add (int_quot (len identifiers) limit) 1 in
  if capacity <? 0 then Panicked "makeslice: cap out of range"
  else
    match split_loop (S (length identifiers)) identifiers limit [] with
    | Returned (chunks, identifiers') =>
        if len identifiers' >? 0
        then Returned (chunks ++ [firstn (length identifiers') identifiers'])
        else Returned chunks
    | Panicked msg => Panicked msg
    | Diverged => Diverged
    end.

(** [func split(identifiers []string, limit int) [][]string] *)
Definition split (identifiers : list string) (limit : Z)
    : outcome (list (list string)) :=
  if limit <? 0 then split_chunks identifiers (int_mul (-1) limit)
  else if limit =? 0 then Returned [identifiers]
  else split_chunks identifiers limit.

(** *** Resources and the provider *)

(** A point in time ([time.Time]), in nanoseconds since the epoch. *)
Definition Time : Type := Z.

(** An SDK session; it is configured with a region only. *)
Record Session : Type := mkSession { Config_Region : string }.

(** The implementations of the [AwsResources] interface, with the fields
    [GetAllResources] fills in. *)
Inductive AwsResources : Type :=
| ASGroups (GroupNames : list string)
| LaunchConfigs (LaunchConfigurationNames : list string)
| LoadBalancers (Names : list string)
| LoadBalancersV2 (Arns : list string)
| EC2Instances (InstanceIds : list string)
| EBSVolumes (VolumeIds : list string)
| EIPAddresses (AllocationIds : list string)
| AMIs (ImageIds : list string)
| Snapshots (SnapshotIds : list string)
| ECSServices (Services : list string) (ServiceClusterMap : gmap string string)
| EKSClusters (Clusters : list string).

(** [AwsRegionResource.Resources] *)
Record AwsRegionResource : Type :=
  mkRegionResource { Resources : list AwsResources }.

(** [AwsAccountResources.Resources], a map from region to its resources. *)
Record AwsAccountResources : Type :=
  mkAccountResources { AccountResources : gmap string AwsRegionResource }.

(** The methods of the [AwsResources] interface other than [Nuke], and
    [eksSupportedRegion]: code of the repository outside the files modelled
    here, taken as parameters. *)
Class Plugins : Type := {
  ResourceName : AwsResources -> string;
  ResourceIdentifiers : AwsResources -> list string;
  MaxBatchSize : AwsResources -> Z;
  eksSupportedRegion : string -> bool;
}.

(** A call that reaches outside the process, as recorded in the history of
    a run. *)
Inductive event : Type :=
| EvDescribeRegions (region : string)
| EvNuke (session : Session) (resources : AwsResources) (batch : list string)
| EvSleep (seconds : Z)
| EvPrintln (line : string)
| EvCountdown (i : Z)
| EvPrompt (prompt : string).

(** The provider.  Listing calls read the account and are answered by the
    account alone; a delete call is answered from the history of the run. *)
Class AwsApi : Type := {
  (** the error of [session.NewSession] for a region, if it has one *)
  NewSession_error : string -> option error;
  (** the error of [session.NewSessionWithOptions], on which
      [session.Must] panics *)
  NewSessionWithOptions_error : string -> option error;
  (** [svc.DescribeRegions]: the [RegionName] of each region *)
  DescribeRegions : Session -> error + list (option string);
  getAllAutoScalingGroups : Session -> string -> Time -> error + list (option string);
  getAllLaunchConfigurations : Session -> string -> Time -> error + list (option string);
  getAllElbInstances : Session -> string -> Time -> error + list (option string);
  getAllElbv2Instances : Session -> string -> Time -> error + list (option string);
  getAllEc2Instances : Session -> string -> Time -> error + list (option string);
  getAllEbsVolumes : Session -> string -> Time -> error + list (option string);
  getAllEIPAddresses : Session -> string -> Time -> error + list (option string);
  getAllAMIs : Session -> string -> Time -> error + list (option string);
  getAllSnapshots : Session -> string -> Time -> error + list (option string);
  getAllEcsClusters : Session -> error + list (option string);
  getAllEcsServices :
    Session -> list (option string) -> Time ->
    error + (list (option string) * gmap string string);
  getAllEksClusters : Session -> Time -> error + list (option string);
  (** [resources.Nuke(session, batch)]: [None] is a nil error *)
  Nuke : list event -> AwsResources -> Session -> list string -> option error;
  (** the raw value behind the [n]-th call of [rand.Intn] *)
  rand_source : nat -> Z;
}.

(** [session.NewSession(&awsgo.Config{Region: awsgo.String(region)})] *)
Definition session_NewSession {A : AwsApi} (region : string) : error + Session :=
  match NewSession_error region with
  | Some err => inl err
  | None => inr (mkSession region)
  end.

(** [func newSession(region string) *session.Session] *)
Definition newSession {A : AwsApi} (region : string) : outcome Session :=
  match NewSessionWithOptions_error region with
  | Some err => Panicked (Error err)
  | None => Returned (mkSession region)
  end.

(** *** Region enumeration *)

(** [var OptInNotRequiredRegions = [...]string{...}] *)
Definition OptInNotRequiredRegions : list string :=
  [ "eu-north-1"; "ap-south-1"; "eu-west-3"; "eu-west-2"; "eu-west-1";
    "ap-northeast-2"; "ap-northeast-1"; "sa-east-1"; "ca-central-1";
    "ap-southeast-1"; "ap-southeast-2"; "eu-central-1"; "us-east-1";
    "us-east-2"; "us-west-1"; "us-west-2" ]%string.

(** What a run has done so far: how often it drew from [math/rand], and
    the calls it made, oldest first. *)
Record World : Type := mkWorld { rand_calls : nat; history : list event }.

Definition record (e : event) (w : World) : World :=
  mkWorld (rand_calls w) (history w ++ [e]).

(** [rand.Intn(n)] for a positive [n] *)
Definition rand_Intn {A : AwsApi} (w : World) (n : Z) : World * Z :=
  (mkWorld (S (rand_calls w)) (history w), rand_source (rand_calls w) mod n).

(** The loop of [retryDescribeRegions] with [attempts] iterations to go:
<<
    for i := 0; i < len(OptInNotRequiredRegions); i++ {
        region := OptInNotRequiredRegions[rand.Intn(len(OptInNotRequiredRegions))]
        svc := ec2.New(newSession(region))
        regions, err := svc.DescribeRegions(&ec2.DescribeRegionsInput{})
        if err != nil { continue }
        return regions, nil
    }
    return nil, errors.WithStackTrace(fmt.Errorf("could not find any enabled regions"))
>> *)
Fixpoint retryDescribeRegions_loop {A : AwsApi} (attempts : nat) (w : World)
    : World * outcome (error + list (option string)) :=
  match attempts with
  | O =>
      (w, Returned (inl (WithStackTrace
                           (errorString "could not find any enabled regions"))))
  | S attempts' =>
      let (w1, k) := rand_Intn w (len OptInNotRequiredRegions) in
      let region := nth (Z.to_nat k) OptInNotRequiredRegions EmptyString in
      match newSession region with
      | Returned svc =>
          let w2 := record (EvDescribeRegions region) w1 in
          match DescribeRegions svc with
          | inl _ => retryDescribeRegions_loop attempts' w2
          | inr regions => (w2, Returned (inr regions))
          end
      | Panicked msg => (w1, Panicked msg)
      | Diverged => (w1, Diverged)
      end
  end.

(** [func retryDescribeRegions()], returning the regions or an error *)
Definition retryDescribeRegions {A : AwsApi} (w : World)
    : World * outcome (error + list (option string)) :=
  retryDescribeRegions_loop (length OptInNotRequiredRegions) w.

(** [func GetEnabledRegions() ([]string, error)] *)
Definition GetEnabledRegions {A : AwsApi} (w : World)
    : World * outcome (error + list string) :=
  match retryDescribeRegions w with
  | (w', Returned (inl err)) => (w', Returned (inl err))
  | (w', Returned (inr regions)) => (w', Returned (inr (map StringValue regions)))
  | (w', Panicked msg) => (w', Panicked msg)
  | (w', Diverged) => (w', Diverged)
  end.

(** *** The registry of resource types *)

(** [func ListResourceTypes() []string] *)
Definition ListResourceTypes {P : Plugins} : list string :=
  sort_Strings
    [ ResourceName (ASGroups []);
      ResourceName (LaunchConfigs []);
      ResourceName (LoadBalancers []);
      ResourceName (LoadBalancersV2 []);
      ResourceName (EC2Instances []);
      ResourceName (EBSVolumes []);
      ResourceName (EIPAddresses []);
      ResourceName (AMIs []);
      ResourceName (Snapshots []);
      ResourceName (ECSServices [] ∅);
      ResourceName (EKSClusters []) ].

(** [func IsValidResourceType(resourceType string, allResourceTypes []string) bool] *)
Definition IsValidResourceType (resourceType : string)
    (allResourceTypes : list string) : bool :=
  ListContainsElement allResourceTypes resourceType.

(** [func IsNukeable(resourceType string, resourceTypes []string) bool] *)
Definition IsNukeable (resourceType : string) (resourceTypes : list string)
    : bool :=
  if (len resourceTypes =? 0)
     || ListContainsElement resourceTypes "all"
     || ListContainsElement resourceTypes resourceType
  then true
  else false.

(** *** [GetAllResources] *)

(** [return nil, errors.WithStackTrace(err)] on the error of a call *)
Definition stackTraced {A : Type} (r : error + A) : error + A :=
  match r with
  | inl err => inl (WithStackTrace err)
  | inr a => inr a
  end.

(** The body of the loop over regions collects one resource type after the
    other, in the order of the source; each block either appends to
    [resourcesInRegion.Resources] or makes [GetAllResources] return its
    error. *)

(** ASG Names (lines 147-157) *)
Definition collect_ASGroups {P : Plugins} {A : AwsApi} (session : Session) (region : string)
    (excludeAfter : Time) (resourceTypes : list string)
    (resourcesInRegion : list AwsResources) : error + list AwsResources :=
  if IsNukeable (ResourceName (ASGroups [])) resourceTypes then
    groupNames <- stackTraced (getAllAutoScalingGroups session region excludeAfter) ;;
    inr (resourcesInRegion ++ [ASGroups (StringValueSlice groupNames)])
  else inr resourcesInRegion.

(** Launch Configuration Names (lines 159-169) *)
Definition collect_LaunchConfigs {P : Plugins} {A : AwsApi} (session : Session) (region : string)
    (excludeAfter : Time) (resourceTypes : list string)
    (resourcesInRegion : list AwsResources) : error + list AwsResources :=
  if IsNukeable (ResourceName (LaunchConfigs [])) resourceTypes then
    configNames <- stackTraced (getAllLaunchConfigurations session region excludeAfter) ;;
    inr (resourcesInRegion ++ [LaunchConfigs (StringValueSlice configNames)])
  else inr resourcesInRegion.

(** LoadBalancer Names (lines 171-181) *)
Definition collect_LoadBalancers {P : Plugins} {A : AwsApi} (session : Session) (region : string)
    (excludeAfter : Time) (resourceTypes : list string)
    (resourcesInRegion : list AwsResources) : error + list AwsResources :=
  if IsNukeable (ResourceName (LoadBalancers [])) resourceTypes then
    elbNames <- stackTraced (getAllElbInstances session region excludeAfter) ;;
    inr (resourcesInRegion ++ [LoadBalancers (StringValueSlice elbNames)])
  else inr resourcesInRegion.

(** LoadBalancerV2 Arns (lines 183-194) *)
Definition collect_LoadBalancersV2 {P : Plugins} {A : AwsApi} (session : Session) (region : string)
    (excludeAfter : Time) (resourceTypes : list string)
    (resourcesInRegion : list AwsResources) : error + list AwsResources :=
  if IsNukeable (ResourceName (LoadBalancersV2 [])) resourceTypes then
    elbv2Arns <- stackTraced (getAllElbv2Instances session region excludeAfter) ;;
    inr (resourcesInRegion ++ [LoadBalancersV2 (StringValueSlice elbv2Arns)])
  else inr resourcesInRegion.

(** EC2 Instances (lines 196-206) *)
Definition collect_EC2Instances {P : Plugins} {A : AwsApi} (session : Session) (region : string)
    (excludeAfter : Time) (resourceTypes : list string)
    (resourcesInRegion : list AwsResources) : error + list AwsResources :=
  if IsNukeable (ResourceName (EC2Instances [])) resourceTypes then
    instanceIds <- stackTraced (getAllEc2Instances session region excludeAfter) ;;
    inr (resourcesInRegion ++ [EC2Instances (StringValueSlice instanceIds)])
  else inr resourcesInRegion.

(** EBS Volumes (lines 208-218) *)
Definition collect_EBSVolumes {P : Plugins} {A : AwsApi} (session : Session) (region : string)
    (excludeAfter : Time) (resourceTypes : list string)
    (resourcesInRegion : list AwsResources) : error + list AwsResources :=
  if IsNukeable (ResourceName (EBSVolumes [])) resourceTypes then
    volumeIds <- stackTraced (getAllEbsVolumes session region excludeAfter) ;;
    inr (resourcesInRegion ++ [EBSVolumes (StringValueSlice volumeIds)])
  else inr resourcesInRegion.

(** EIP Addresses (lines 220-230) *)
Definition collect_EIPAddresses {P : Plugins} {A : AwsApi} (session : Session) (region : string)
    (excludeAfter : Time) (resourceTypes : list string)
    (resourcesInRegion : list AwsResources) : error + list AwsResources :=
  if IsNukeable (ResourceName (EIPAddresses [])) resourceTypes then
    allocationIds <- stackTraced (getAllEIPAddresses session region excludeAfter) ;;
    inr (resourcesInRegion ++ [EIPAddresses (StringValueSlice allocationIds)])
  else inr resourcesInRegion.

(** AMIs (lines 232-242) *)
Definition collect_AMIs {P : Plugins} {A : AwsApi} (session : Session) (region : string)
    (excludeAfter : Time) (resourceTypes : list string)
    (resourcesInRegion : list AwsResources) : error + list AwsResources :=
  if IsNukeable (ResourceName (AMIs [])) resourceTypes then
    imageIds <- stackTraced (getAllAMIs session region excludeAfter) ;;
    inr (resourcesInRegion ++ [AMIs (StringValueSlice imageIds)])
  else inr resourcesInRegion.

(** Snapshots (lines 244-254) *)
Definition collect_Snapshots {P : Plugins} {A : AwsApi} (session : Session) (region : string)
    (excludeAfter : Time) (resourceTypes : list string)
    (resourcesInRegion : list AwsResources) : error + list AwsResources :=
  if IsNukeable (ResourceName (Snapshots [])) resourceTypes then
    snapshotIds <- stackTraced (getAllSnapshots session region excludeAfter) ;;
    inr (resourcesInRegion ++ [Snapshots (StringValueSlice snapshotIds)])
  else inr resourcesInRegion.

(** ECS resources (lines 256-271) *)
Definition collect_ECSServices {P : Plugins} {A : AwsApi} (session : Session)
    (region : string) (excludeAfter : Time) (resourceTypes : list string)
    (resourcesInRegion : list AwsResources) : error + list AwsResources :=
  if IsNukeable (ResourceName (ECSServices [] ∅)) resourceTypes then
    clusterArns <- stackTraced (getAllEcsClusters session) ;;
    services <- stackTraced (getAllEcsServices session clusterArns excludeAfter) ;;
    let (serviceArns, serviceClusterMap) := services : _ * _ in
    inr (resourcesInRegion
           ++ [ECSServices (StringValueSlice serviceArns) serviceClusterMap])
  else inr resourcesInRegion.

(** EKS resources (lines 273-286) *)
Definition collect_EKSClusters {P : Plugins} {A : AwsApi} (session : Session)
    (region : string) (excludeAfter : Time) (resourceTypes : list string)
    (resourcesInRegion : list AwsResources) : error + list AwsResources :=
  if IsNukeable (ResourceName (EKSClusters [])) resourceTypes then
    if eksSupportedRegion region then
      eksClusterNames <- stackTraced (getAllEksClusters session excludeAfter) ;;
      inr (resourcesInRegion ++ [EKSClusters (StringValueSlice eksClusterNames)])
    else inr resourcesInRegion
  else inr resourcesInRegion.

(** Lines 142-286: the resources of one region. *)
Definition collectRegion {P : Plugins} {A : AwsApi} (session : Session)
    (region : string) (excludeAfter : Time) (resourceTypes : list string)
    : error + AwsRegionResource :=
  let resourcesInRegion := [] in
  resourcesInRegion <- collect_ASGroups session region excludeAfter resourceTypes resourcesInRegion ;;
  resourcesInRegion <- collect_LaunchConfigs session region excludeAfter resourceTypes resourcesInRegion ;;
  resourcesInRegion <- collect_LoadBalancers session region excludeAfter resourceTypes resourcesInRegion ;;
  resourcesInRegion <- collect_LoadBalancersV2 session region excludeAfter resourceTypes resourcesInRegion ;;
  resourcesInRegion <- collect_EC2Instances session region excludeAfter resourceTypes resourcesInRegion ;;
  resourcesInRegion <- collect_EBSVolumes session region excludeAfter resourceTypes resourcesInRegion ;;
  resourcesInRegion <- collect_EIPAddresses session region excludeAfter resourceTypes resourcesInRegion ;;
  resourcesInRegion <- collect_AMIs session region excludeAfter resourceTypes resourcesInRegion ;;
  resourcesInRegion <- collect_Snapshots session region excludeAfter resourceTypes resourcesInRegion ;;
  resourcesInRegion <- collect_ECSServices session region excludeAfter resourceTypes resourcesInRegion ;;
  resourcesInRegion <- collect_EKSClusters session region excludeAfter resourceTypes resourcesInRegion ;;
  inr (mkRegionResource resourcesInRegion).

(** The loop over [regions] (lines 126-291), with the map built so far. *)
Fixpoint GetAllResources_loop {P : Plugins} {A : AwsApi} (regions : list string)
    (excludedRegions : list string) (excludeAfter : Time)
    (resourceTypes : list string) (account : gmap string AwsRegionResource)
    : option AwsAccountResources * option error :=
  match regions with
  | [] => (Some (mkAccountResources account), None)
  | region :: regions' =>
      if ListContainsElement excludedRegions region then
        GetAllResources_loop regions' excludedRegions excludeAfter
          resourceTypes account
      else
        match session_NewSession region with
        | inl err => (None, Some (WithStackTrace err))
        | inr session =>
            match collectRegion session region excludeAfter resourceTypes with
            | inl err => (None, Some err)
            | inr resourcesInRegion =>
                let account :=
                  if len (Resources resourcesInRegion) >? 0
                  then <[region := resourcesInRegion]> account
                  else account in
                GetAllResources_loop regions' excludedRegions excludeAfter
                  resourceTypes account
            end
        end
  end.

(** [func GetAllResources(regions []string, excludedRegions []string,
    excludeAfter time.Time, resourceTypes []string)], returning the account's
    resources (a pointer, [None] for nil) and an error ([None] for nil). *)
Definition GetAllResources {P : Plugins} {A : AwsApi} (regions : list string)
    (excludedRegions : list string) (excludeAfter : Time)
    (resourceTypes : list string)
    : option AwsAccountResources * option error :=
  GetAllResources_loop regions excludedRegions excludeAfter resourceTypes ∅.

(** *** [NukeAllResources] *)

(** The loop over the batches of one resource type (lines 349-366), at
    index [i] of [n] batches, [batches] being those from index [i] on:
<<
    for i := 0; i < len(batches); i++ {
        batch := batches[i]
        if err := resources.Nuke(session, batch); err != nil {
            if strings.Contains(err.Error(), "RequestLimitExceeded") {
                time.Sleep(1 * time.Minute)
                continue
            }
            return errors.WithStackTrace(err)
        }
        if i != len(batches)-1 {
            time.Sleep(10 * time.Second)
        }
    }
>>
    [continue] runs the post statement [i++] of the [for] clause.  The
    result is the history and the error the function returns with, if the
    loop makes it return. *)
Fixpoint nukeBatches {A : AwsApi} (session : Session) (resources : AwsResources)
    (i n : Z) (batches : list (list string)) (h : list event)
    : list event * option error :=
  match batches with
  | [] => (h, None)
  | batch :: batches' =>
      let h1 := h ++ [EvNuke session resources batch] in
      match Nuke h resources session batch with
      | Some err =>
          if strings_Contains (Error err) "RequestLimitExceeded" then
            let h2 := h1 ++ [EvSleep 60] in
            nukeBatches session resources (int_add i 1) n batches' h2
          else (h1, Some (WithStackTrace err))
      | None =>
          let h2 := if negb (i =? int_add n (-1))
                    then h1 ++ [EvSleep 10]
                    else h1 in
          nukeBatches session resources (int_add i 1) n batches' h2
      end
  end.

(** The loop over the resource types of one region (lines 342-367). *)
Fixpoint nukeRegion {P : Plugins} {A : AwsApi} (session : Session)
    (resourcesInRegion : list AwsResources) (h : list event)
    : list event * outcome (option error) :=
  match resourcesInRegion with
  | [] => (h, Returned None)
  | resources :: rest =>
      match split (ResourceIdentifiers resources) (MaxBatchSize resources) with
      | Returned batches =>
          match nukeBatches session resources 0 (len batches) batches h with
          | (h', Some err) => (h', Returned (Some err))
          | (h', None) => nukeRegion session rest h'
          end
      | Panicked msg => (h, Panicked msg)
      | Diverged => (h, Diverged)
      end
  end.

(** [func NukeAllResources(account *AwsAccountResources, regions []string) error],
    for a non-nil [account]; a region without an entry in the map has the
    zero [AwsRegionResource]. *)
Fixpoint NukeAllResources {P : Plugins} {A : AwsApi} (account : AwsAccountResources)
    (regions : list string) (h : list event)
    : list event * outcome (option error) :=
  match regions with
  | [] => (h, Returned None)
  | region :: regions' =>
      match session_NewSession region with
      | inl err => (h, Returned (Some (WithStackTrace err)))
      | inr session =>
          let resourcesInRegion :=
            default (mkRegionResource []) (AccountResources account !! region) in
          match nukeRegion session (Resources resourcesInRegion) h with
          | (h', Returned None) => NukeAllResources account regions' h'
          | (h', result) => (h', result)
          end
      end
  end.

End aws.

(** ** package gcp *)

Module gcp.

(** [strings.Split(s, sep)] for a non-empty [sep], as the first field and
    the fields after it.  [skip] counts the bytes of a separator just
    found that are still to be passed over. *)
Fixpoint Split_fields (sep : string) (skip : nat) (s : string)
    : string * list string :=
  match s with
  | EmptyString => (EmptyString, [])
  | String c s' =>
      match skip with
      | S skip' => Split_fields sep skip' s'
      | O =>
          if String.prefix sep s then
            (EmptyString,
             let (field, fields) :=
               Split_fields sep (String.length sep - 1) s' in
             field :: fields)
          else
            let (field, fields) := Split_fields sep 0 s' in
            (String c field, fields)
      end
  end.

(** [strings.Split(s, sep)].  With an empty separator Go splits after each
    UTF-8 sequence; the model splits after each byte. *)
Definition strings_Split (s sep : string) : list string :=
  match sep with
  | EmptyString =>
      map (fun c => String c EmptyString) (list_ascii_of_string s)
  | String _ _ =>
      let (field, fields) := Split_fields sep 0 s in field :: fields
  end.

(** [func zoneFromUrl(url string) (string, error)] *)
Definition zoneFromUrl (url : string) : error + string :=
  let split := strings_Split url "/" in
  if len split =? 0 then
    inl (errorString ("got invalid zone url: " +:+ url))
  else inr (nth (Z.to_nat (len split - 1)) split EmptyString).

(** [compute.Region]: the fields the code reads. *)
Record Region : Type := mkRegion { Region_Name : string; Zones : list string }.

(** [GcpContext]: [Service] is the class [GcpApi] below. *)
Record GcpContext : Type := mkContext { Project : string; Regions : list Region }.

(** [compute.Instance]: the fields the code reads. *)
Record Instance : Type := mkInstance {
  Name : string;
  Zone : string;
  DeletionProtection : bool;
  CreationTimestamp : string;
}.

(** [compute.InstancesScopedList] *)
Record InstancesScopedList : Type := mkScopedList { Instances : list Instance }.

(** [GceInstanceResource], the implementation of [GcpResource]. *)
Record GceInstanceResource : Type := mkGceInstance {
  InstanceName : string;
  Instance_Zone : string;
  RegionName : string;
}.

(** The compute service and the clock library. *)
Class GcpApi : Type := {
  (** [ctx.Service.Instances.AggregatedList(project).Do()]: the entries of
      [Items], in the order the [range] over the map visits them *)
  AggregatedList_Do : string -> error + list (string * InstancesScopedList);
  (** [time.Parse(time.RFC3339, value)] *)
  time_Parse_RFC3339 : string -> error + Z;
}.

(** The loop over [region.Zones] in [regionFromZone]: the region's name
    when one of its zones is [zone]. *)
Fixpoint regionFromZone_zones (name : string) (zones : list string)
    (zone : string) : error + option string :=
  match zones with
  | [] => inr None
  | regionZoneUrl :: zones' =>
      regionZone <- zoneFromUrl regionZoneUrl ;;
      if String.eqb zone regionZone then inr (Some name)
      else regionFromZone_zones name zones' zone
  end.

Fixpoint regionFromZone_regions (regions : list Region) (zone : string)
    : error + string :=
  match regions with
  | [] => inl (errorString ("could not get region for zone: " +:+ zone))
  | region :: regions' =>
      found <- regionFromZone_zones (Region_Name region) (Zones region) zone ;;
      match found with
      | Some name => inr name
      | None => regionFromZone_regions regions' zone
      end
  end.

(** [func regionFromZone(ctx *GcpContext, zone string) (string, error)] *)
Definition regionFromZone (ctx : GcpContext) (zone : string) : error + string :=
  regionFromZone_regions (Regions ctx) zone.

(** Lines 59-63 of [GetAllGceInstances]:
<<
    for _, excludedRegion := range excludedRegions {
        if region == excludedRegion {
            continue
        }
    }
>>
    The [continue] belongs to this loop: it goes on with the next excluded
    region.  The loop ends normally whatever [region] is. *)
Fixpoint excludedRegions_loop (region : string) (excludedRegions : list string)
    : unit :=
  match excludedRegions with
  | [] => tt
  | excludedRegion :: excludedRegions' =>
      if String.eqb region excludedRegion
      then excludedRegions_loop region excludedRegions'
      else excludedRegions_loop region excludedRegions'
  end.

(** The loop over [item.Instances] (lines 42-81), with the result so far. *)
Fixpoint GetAllGceInstances_instances {G : GcpApi} (ctx : GcpContext)
    (excludedRegions : list string) (excludeAfter : Z)
    (apiInstances : list Instance) (instances : list GceInstanceResource)
    : error + list GceInstanceResource :=
  match apiInstances with
  | [] => inr instances
  | apiInstance :: apiInstances' =>
      if DeletionProtection apiInstance then
        GetAllGceInstances_instances ctx excludedRegions excludeAfter
          apiInstances' instances
      else
        zone <- zoneFromUrl (Zone apiInstance) ;;
        region <- regionFromZone ctx zone ;;
        match excludedRegions_loop region excludedRegions with
        | tt =>
            creationTime <- time_Parse_RFC3339 (CreationTimestamp apiInstance) ;;
            if creationTime >? excludeAfter then
              GetAllGceInstances_instances ctx excludedRegions excludeAfter
                apiInstances' instances
            else
              let instance := mkGceInstance (Name apiInstance) zone region in
              GetAllGceInstances_instances ctx excludedRegions excludeAfter
                apiInstances' (instances ++ [instance])
        end
  end.

(** The loop over [apiInstances.Items] (lines 41-82). *)
Fixpoint GetAllGceInstances_items {G : GcpApi} (ctx : GcpContext)
    (excludedRegions : list string) (excludeAfter : Z)
    (items : list (string * InstancesScopedList))
    (instances : list GceInstanceResource)
    : error + list GceInstanceResource :=
  match items with
  | [] => inr instances
  | (_, item) :: items' =>
      instances' <- GetAllGceInstances_instances ctx excludedRegions
                      excludeAfter (Instances item) instances ;;
      GetAllGceInstances_items ctx excludedRegions excludeAfter items' instances'
  end.

(** [func GetAllGceInstances(ctx *GcpContext, excludedRegions []string,
    excludeAfter time.Time) ([]GcpResource, error)] *)
Definition GetAllGceInstances {G : GcpApi} (ctx : GcpContext)
    (excludedRegions : list string) (excludeAfter : Z)
    : error + list GceInstanceResource :=
  apiInstances <- AggregatedList_Do (Project ctx) ;;
  GetAllGceInstances_items ctx excludedRegions excludeAfter apiInstances [].

End gcp.

(** ** package commands *)

Module commands.
Import aws.

(** The flags of the [aws] command, as [awsNuke] reads them from its
    [*cli.Context]. *)
Record Flags : Type := mkFlags {
  list_resource_types : bool;
  resource_type : list string;
  exclude_region : list string;
  older_than : string;
  force : bool;
}.

(** The errors [awsNuke] returns: an [error] of package aws or of the
    standard library, or the command's own [InvalidFlagError]. *)
Inductive cli_error : Type :=
| Err (err : error)
| InvalidFlagError (Name Value : string).

(** The operator's terminal and the clock. *)
Class Terminal : Type := {
  (** [time.ParseDuration], in nanoseconds *)
  time_ParseDuration : string -> error + Z;
  (** [time.Now()] *)
  time_Now : Z;
  (** [shell.PromptUserForInput]: what the operator types *)
  PromptUserForInput : list event -> string -> error + string;
  (** [strings.ToLower] *)
  strings_ToLower : string -> string;
}.

Definition newline : string := String (ascii_of_nat 10) EmptyString.

(** [func parseDurationParam(paramValue string)], returning the cut-off
    time or an error *)
Definition parseDurationParam {T : Terminal} (paramValue : string) : error + Time :=
  duration <- stackTraced (time_ParseDuration paramValue) ;;
  let duration := int_mul (-1) duration in
  let excludeAfter := time_Now + duration in
  inr excludeAfter.

(** [func confirmationPrompt(prompt string) (bool, error)] *)
Definition confirmationPrompt {T : Terminal} (prompt : string) (w : World)
    : World * (error + bool) :=
  let w1 :=
    record (EvPrintln (newline +:+ "THE NEXT STEPS ARE DESTRUCTIVE AND COMPLETELY IRREVERSIBLE, PROCEED WITH CAUTION!!!")) w in
  let answer := PromptUserForInput (history w1) prompt in
  let w2 := record (EvPrompt prompt) w1 in
  match answer with
  | inl err => (w2, inl (WithStackTrace err))
  | inr input =>
      if String.eqb (strings_ToLower input) "nuke" then (w2, inr true)
      else (w2, inr false)
  end.

(** Lines 211-218 of [awsNuke]: the names that are neither ["all"] nor a
    registered resource type. *)
Fixpoint invalidResourceTypes (resourceTypes allResourceTypes : list string)
    (invalidresourceTypes : list string) : list string :=
  match resourceTypes with
  | [] => invalidresourceTypes
  | resourceType :: resourceTypes' =>
      if String.eqb resourceType "all" then
        invalidResourceTypes resourceTypes' allResourceTypes invalidresourceTypes
      else if negb (IsValidResourceType resourceType allResourceTypes) then
        invalidResourceTypes resourceTypes' allResourceTypes
          (invalidresourceTypes ++ [resourceType])
      else
        invalidResourceTypes resourceTypes' allResourceTypes invalidresourceTypes
  end.

(** Lines 231-238: the first excluded region that is not an enabled one. *)
Fixpoint invalidExcludedRegion (excludedRegions regions : list string)
    : option cli_error :=
  match excludedRegions with
  | [] => None
  | excludedRegion :: excludedRegions' =>
      if negb (ListContainsElement regions excludedRegion) then
        Some (InvalidFlagError "exclude-regions" excludedRegion)
      else invalidExcludedRegion excludedRegions' regions
  end.

(** Lines 280-283: [for i := 10; i > 0; i--], printing [i] and sleeping a
    second. *)
Fixpoint countdown (steps : nat) (i : Z) (w : World) : World :=
  match steps with
  | O => w
  | S steps' =>
      if i >? 0 then
        countdown steps' (int_add i (-1))
          (record (EvSleep 1) (record (EvCountdown i) w))
      else w
  end.

(** The call [aws.NukeAllResources(account, regions)] and the return of
    its error. *)
Definition nuke {P : Plugins} {A : AwsApi} (account : AwsAccountResources)
    (regions : list string) (w : World) : World * outcome (option cli_error) :=
  match NukeAllResources account regions (history w) with
  | (h, Returned (Some err)) => (mkWorld (rand_calls w) h, Returned (Some (Err err)))
  | (h, Returned None) => (mkWorld (rand_calls w) h, Returned None)
  | (h, Panicked msg) => (mkWorld (rand_calls w) h, Panicked msg)
  | (h, Diverged) => (mkWorld (rand_calls w) h, Diverged)
  end.

(** Lines 225-291 of [awsNuke]: region enumeration, the build of the
    inventory, the confirmation and the deletion.  Calls of the logger are
    left out. *)
Definition awsNuke_run {P : Plugins} {A : AwsApi} {T : Terminal} (c : Flags)
    (resourceTypes : list string) (w : World)
    : World * outcome (option cli_error) :=
  match GetEnabledRegions w with
  | (w1, Panicked msg) => (w1, Panicked msg)
  | (w1, Diverged) => (w1, Diverged)
  | (w1, Returned (inl err)) => (w1, Returned (Some (Err (WithStackTrace err))))
  | (w1, Returned (inr regions)) =>
      let excludedRegions := exclude_region c in
      match invalidExcludedRegion excludedRegions regions with
      | Some err => (w1, Returned (Some err))
      | None =>
          match parseDurationParam (older_than c) with
          | inl err => (w1, Returned (Some (Err (WithStackTrace err))))
          | inr excludeAfter =>
              match GetAllResources regions excludedRegions excludeAfter
                      resourceTypes with
              | (_, Some err) => (w1, Returned (Some (Err (WithStackTrace err))))
              | (None, None) => (w1, Panicked "nil pointer dereference")
              | (Some account, None) =>
                  if Z.of_nat (size (AccountResources account)) =? 0 then
                    (w1, Returned None)
                  else if negb (force c) then
                    let prompt :=
                      newline +:+ "Are you sure you want to nuke all listed resources? Enter 'nuke' to confirm: " in
                    match confirmationPrompt prompt w1 with
                    | (w2, inl err) => (w2, Returned (Some (Err err)))
                    | (w2, inr proceed) =>
                        if proceed then nuke account regions w2
                        else (w2, Returned None)
                    end
                  else
                    let w2 := countdown 10 10 w1 in
                    let w3 := record (EvPrintln EmptyString) w2 in
                    nuke account regions w3
              end
          end
      end
  end.

(** [func awsNuke(c *cli.Context) error] *)
Definition awsNuke {P : Plugins} {A : AwsApi} {T : Terminal} (c : Flags) (w : World)
    : World * outcome (option cli_error) :=
  let allResourceTypes := ListResourceTypes in
  if list_resource_types c then
    (fold_left (fun w resourceType => record (EvPrintln resourceType) w)
       ListResourceTypes w,
     Returned None)
  else
    let resourceTypes := resource_type c in
    let invalidresourceTypes :=
      invalidResourceTypes resourceTypes allResourceTypes [] in
    if len invalidresourceTypes >? 0 then
      let msg := "Try --list-resource-types to get list of valid resource types." in
      (w, Returned (Some (Err (errorString
             ("Invalid resourceTypes [" +:+ strings_Join invalidresourceTypes " "
              +:+ "] specified: " +:+ msg)))))
    else awsNuke_run c resourceTypes w.

End commands.

(** ** Vocabulary of the properties *)

Module inventory.
Import aws.

(** The resource types, in the order [GetAllResources] collects them. *)
Inductive kind : Type :=
| KASGroups | KLaunchConfigs | KLoadBalancers | KLoadBalancersV2
| KEC2Instances | KEBSVolumes | KEIPAddresses | KAMIs | KSnapshots
| KECSServices | KEKSClusters.

Definition kinds : list kind :=
  [ KASGroups; KLaunchConfigs; KLoadBalancers; KLoadBalancersV2;
    KEC2Instances; KEBSVolumes; KEIPAddresses; KAMIs; KSnapshots;
    KECSServices; KEKSClusters ].

Definition kind_of (r : AwsResources) : kind :=
  match r with
  | ASGroups _ => KASGroups
  | LaunchConfigs _ => KLaunchConfigs
  | LoadBalancers _ => KLoadBalancers
  | LoadBalancersV2 _ => KLoadBalancersV2
  | EC2Instances _ => KEC2Instances
  | EBSVolumes _ => KEBSVolumes
  | EIPAddresses _ => KEIPAddresses
  | AMIs _ => KAMIs
  | Snapshots _ => KSnapshots
  | ECSServices _ _ => KECSServices
  | EKSClusters _ => KEKSClusters
  end.

(** The zero value of a resource type, on which the code calls
    [ResourceName]. *)
Definition zero (k : kind) : AwsResources :=
  match k with
  | KASGroups => ASGroups []
  | KLaunchConfigs => LaunchConfigs []
  | KLoadBalancers => LoadBalancers []
  | KLoadBalancersV2 => LoadBalancersV2 []
  | KEC2Instances => EC2Instances []
  | KEBSVolumes => EBSVolumes []
  | KEIPAddresses => EIPAddresses []
  | KAMIs => AMIs []
  | KSnapshots => Snapshots []
  | KECSServices => ECSServices [] ∅
  | KEKSClusters => EKSClusters []
  end.

(** The list call of a resource type in a region, and the value the code
    builds from its result. *)
Definition listed {A : AwsApi} (k : kind) (session : Session) (region : string)
    (excludeAfter : Time) : error + AwsResources :=
  match k with
  | KASGroups =>
      ids <- getAllAutoScalingGroups session region excludeAfter ;;
      inr (ASGroups (StringValueSlice ids))
  | KLaunchConfigs =>
      ids <- getAllLaunchConfigurations session region excludeAfter ;;
      inr (LaunchConfigs (StringValueSlice ids))
  | KLoadBalancers =>
      ids <- getAllElbInstances session region excludeAfter ;;
      inr (LoadBalancers (StringValueSlice ids))
  | KLoadBalancersV2 =>
      ids <- getAllElbv2Instances session region excludeAfter ;;
      inr (LoadBalancersV2 (StringValueSlice ids))
  | KEC2Instances =>
      ids <- getAllEc2Instances session region excludeAfter ;;
      inr (EC2Instances (StringValueSlice ids))
  | KEBSVolumes =>
      ids <- getAllEbsVolumes session region excludeAfter ;;
      inr (EBSVolumes (StringValueSlice ids))
  | KEIPAddresses =>
      ids <- getAllEIPAddresses session region excludeAfter ;;
      inr (EIPAddresses (StringValueSlice ids))
  | KAMIs =>
      ids <- getAllAMIs session region excludeAfter ;;
      inr (AMIs (StringValueSlice ids))
  | KSnapshots =>
      ids <- getAllSnapshots session region excludeAfter ;;
      inr (Snapshots (StringValueSlice ids))
  | KECSServices =>
      clusterArns <- getAllEcsClusters session ;;
      services <- getAllEcsServices session clusterArns excludeAfter ;;
      inr (ECSServices (StringValueSlice (fst services)) (snd services))
  | KEKSClusters =>
      ids <- getAllEksClusters session excludeAfter ;;
      inr (EKSClusters (StringValueSlice ids))
  end.

(** A resource type is collected in a region when the filter selects it
    and, for EKS, the region supports it. *)
Definition enabled {P : Plugins} (k : kind) (region : string)
    (resourceTypes : list string) : bool :=
  IsNukeable (ResourceName (zero k)) resourceTypes
  && match k with
     | KEKSClusters => eksSupportedRegion region
     | _ => true
     end.

(** One block of the loop body of [GetAllResources], for any type. *)
Definition collect {P : Plugins} {A : AwsApi} (k : kind) (session : Session)
    (region : string) (excludeAfter : Time) (resourceTypes : list string)
    (resourcesInRegion : list AwsResources) : error + list AwsResources :=
  if enabled k region resourceTypes then
    r <- stackTraced (listed k session region excludeAfter) ;;
    inr (resourcesInRegion ++ [r])
  else inr resourcesInRegion.

Fixpoint collect_kinds {P : Plugins} {A : AwsApi} (ks : list kind)
    (session : Session) (region : string) (excludeAfter : Time)
    (resourceTypes : list string) (resourcesInRegion : list AwsResources)
    : error + list AwsResources :=
  match ks with
  | [] => inr resourcesInRegion
  | k :: ks' =>
      rs <- collect k session region excludeAfter resourceTypes resourcesInRegion ;;
      collect_kinds ks' session region excludeAfter resourceTypes rs
  end.

(** What a region's entry holds for one type: the value built from a
    successful list call of an enabled type, whatever the number of its
    identifiers. *)
Definition entry_of {P : Plugins} {A : AwsApi} (session : Session)
    (region : string) (excludeAfter : Time) (resourceTypes : list string)
    (k : kind) : list AwsResources :=
  if enabled k region resourceTypes then
    match listed k session region excludeAfter with
    | inr r => [r]
    | inl _ => []
    end
  else [].

End inventory.

(** ** Vocabulary of the properties: deletion *)

Module executor.
Import aws.

(** The error a delete call of the history is answered with, when that
    error is not the rate-limit signal; [h] is the history before the
    call. *)
Definition terminal_answer {A : AwsApi} (h : list event) (e : event)
    : option error :=
  match e with
  | EvNuke session resources batch =>
      match Nuke h resources session batch with
      | Some err =>
          if strings_Contains (Error err) "RequestLimitExceeded"
          then None
          else Some err
      | None => None
      end
  | _ => None
  end.

(** No call of the segment [seg], made after [h], had a terminal answer. *)
Definition clean {A : AwsApi} (h seg : list event) : Prop :=
  forall pre ev post,
    seg = pre ++ ev :: post -> terminal_answer (h ++ pre) ev = None.

(** The segment [seg] ends with the only call that had a terminal answer,
    and [e] is that answer with its stack trace. *)
Definition stopped {A : AwsApi} (h seg : list event) (e : error) : Prop :=
  exists seg' ev err,
    seg = seg' ++ [ev]
    /\ clean h seg'
    /\ terminal_answer (h ++ seg') ev = Some err
    /\ e = WithStackTrace err.

End executor.

(** ** Vocabulary of the properties: probing, instances, validation *)

Module probing.
Import aws.

(** The candidate the [n]-th draw of the random source selects. *)
Definition candidate {A : AwsApi} (n : nat) : string :=
  nth (Z.to_nat (rand_source n mod len OptInNotRequiredRegions))
    OptInNotRequiredRegions EmptyString.

Definition probe_fails {A : AwsApi} (region : string) : Prop :=
  exists err, DescribeRegions (mkSession region) = inl err.

End probing.

Module instances.
Import gcp.

(** The string holds the byte ['/']. *)
Definition has_slash (s : string) : Prop :=
  In "/"%char (list_ascii_of_string s).

(** What holds of the filter: every instance of the result comes from a
    listed instance that has no deletion protection and was not created
    after the cut-off, with the zone and region the code derives. *)
Definition eligible {G : GcpApi} (ctx : GcpContext) (excludeAfter : Z)
    (apiInstances : list Instance) (r : GceInstanceResource) : Prop :=
  exists apiInstance creationTime,
    In apiInstance apiInstances
    /\ InstanceName r = Name apiInstance
    /\ DeletionProtection apiInstance = false
    /\ time_Parse_RFC3339 (CreationTimestamp apiInstance) = inr creationTime
    /\ creationTime <= excludeAfter
    /\ zoneFromUrl (Zone apiInstance) = inr (Instance_Zone r)
    /\ regionFromZone ctx (Instance_Zone r) = inr (RegionName r).

End instances.

Module validation.
Import aws.

(** A name the validation rejects. *)
Definition rejected (allResourceTypes : list string) (name : string) : bool :=
  negb (String.eqb name "all")
  && negb (IsValidResourceType name allResourceTypes).

End validation.

(** ** Sample plugins and providers *)

Module samples.
Import aws gcp commands.

(** Type names in the style of the [--resource-type] flag. *)
Definition names (r : AwsResources) : string :=
  match r with
  | ASGroups _ => "asg"
  | LaunchConfigs _ => "lc"
  | LoadBalancers _ => "elb"
  | LoadBalancersV2 _ => "elbv2"
  | EC2Instances _ => "ec2"
  | EBSVolumes _ => "ebs"
  | EIPAddresses _ => "eip"
  | AMIs _ => "ami"
  | Snapshots _ => "snap"
  | ECSServices _ _ => "ecsserv"
  | EKSClusters _ => "ekscluster"
  end.

Definition identifiers (r : AwsResources) : list string :=
  match r with
  | ASGroups ids | LaunchConfigs ids | LoadBalancers ids
  | LoadBalancersV2 ids | EC2Instances ids | EBSVolumes ids
  | EIPAddresses ids | AMIs ids | Snapshots ids | ECSServices ids _
  | EKSClusters ids => ids
  end.

(** Plugins that all declare the batch size [maxBatchSize]. *)
Definition plugins (maxBatchSize : Z) : Plugins := {|
  ResourceName := names;
  ResourceIdentifiers := identifiers;
  MaxBatchSize := fun _ => maxBatchSize;
  eksSupportedRegion := fun region =>
    ListContainsElement ["us-east-1"; "us-west-2"]%string region;
|}.

(** A provider whose sessions never fail, given by the instances it lists
    per region, its answer to [DescribeRegions], its answers to delete
    calls and its random source; every other list call finds nothing. *)
Definition provider
    (ec2 : string -> error + list (option string))
    (describe : Session -> error + list (option string))
    (nuke : list event -> AwsResources -> Session -> list string -> option error)
    (source : nat -> Z) : AwsApi := {|
  NewSession_error := fun _ => None;
  NewSessionWithOptions_error := fun _ => None;
  DescribeRegions := describe;
  getAllAutoScalingGroups := fun _ _ _ => inr [];
  getAllLaunchConfigurations := fun _ _ _ => inr [];
  getAllElbInstances := fun _ _ _ => inr [];
  getAllElbv2Instances := fun _ _ _ => inr [];
  getAllEc2Instances := fun _ region _ => ec2 region;
  getAllEbsVolumes := fun _ _ _ => inr [];
  getAllEIPAddresses := fun _ _ _ => inr [];
  getAllAMIs := fun _ _ _ => inr [];
  getAllSnapshots := fun _ _ _ => inr [];
  getAllEcsClusters := fun _ => inr [];
  getAllEcsServices := fun _ _ _ => inr ([], ∅);
  getAllEksClusters := fun _ _ => inr [];
  Nuke := nuke;
  rand_source := source;
|}.

(** [DescribeRegions] of an account in which only the listed regions are
    enabled: a probe against any other region fails. *)
Definition describe_enabled (enabledRegions : list string) (svc : Session)
    : error + list (option string) :=
  if ListContainsElement enabledRegions (Config_Region svc)
  then inr (map Some enabledRegions)
  else inl (errorString "AuthFailure").

(** An account without resources, all of whose delete calls succeed. *)
Definition emptyAccount : AwsApi :=
  provider (fun _ => inr [])
    (describe_enabled ["us-east-1"; "us-west-2"]%string)
    (fun _ _ _ _ => None)
    (fun n => Z.of_nat n).

(** An account in which listing the instances of us-west-2 fails. *)
Definition failingList : AwsApi :=
  provider
    (fun region =>
       if String.eqb region "us-west-2"
       then inl (errorString "UnauthorizedOperation")
       else inr [Some "i-1"%string])
    (describe_enabled ["us-east-1"; "us-west-2"]%string)
    (fun _ _ _ _ => None)
    (fun n => Z.of_nat n).

(** An inventory of two regions: three instances and a volume in
    us-east-1, one instance in us-west-2. *)
Definition twoRegions : AwsAccountResources :=
  mkAccountResources
    (<["us-east-1"%string :=
        mkRegionResource
          [ EC2Instances ["i-1"; "i-2"; "i-3"]%string;
            EBSVolumes ["vol-1"%string] ]]>
       (<["us-west-2"%string :=
           mkRegionResource [ EC2Instances ["i-9"%string] ]]> ∅)).

(** Does [batch] start with the identifier [id]? *)
Definition starts_with (id : string) (batch : list string) : bool :=
  match batch with
  | first :: _ => String.eqb first id
  | [] => false
  end.

(** A provider that refuses to delete the batch starting with i-1, for a
    reason other than rate limiting, and deletes every other batch. *)
Definition terminalOnFirstBatch : AwsApi :=
  provider (fun _ => inr [])
    (describe_enabled ["us-east-1"; "us-west-2"]%string)
    (fun _ _ _ batch =>
       if starts_with "i-1" batch
       then Some (errorString "OperationNotPermitted: termination protection")
       else None)
    (fun n => Z.of_nat n).

(** A provider that rate-limits the first delete call of a run and
    accepts every later one, a repetition of the first included. *)
Definition rateLimitedOnce : AwsApi :=
  provider (fun _ => inr [])
    (describe_enabled ["us-east-1"; "us-west-2"]%string)
    (fun h _ _ _ =>
       match h with
       | [] => Some (errorString "RequestLimitExceeded: Request limit exceeded.")
       | _ :: _ => None
       end)
    (fun n => Z.of_nat n).

(** An account in which us-east-2 is the only enabled region, probed
    with a random source that returns the same value at every draw. *)
Definition stuckSource : AwsApi :=
  provider (fun _ => inr [])
    (describe_enabled ["us-east-2"]%string)
    (fun _ _ _ _ => None)
    (fun _ => 0).

(** An operator who confirms every prompt. *)
Definition confirming : Terminal := {|
  time_ParseDuration := fun _ => inr 0;
  time_Now := 1546300800000000000;
  PromptUserForInput := fun _ _ => inr "nuke"%string;
  strings_ToLower := fun s => s;
|}.

(** A project with a zone in each of two regions and an instance in each
    zone, both without deletion protection and created on 2019-01-01. *)
Definition project : GcpContext :=
  mkContext "playground"
    [ mkRegion "us-central1"
        ["https://www.googleapis.com/compute/v1/projects/playground/zones/us-central1-a"%string];
      mkRegion "europe-west1"
        ["https://www.googleapis.com/compute/v1/projects/playground/zones/europe-west1-b"%string] ].

Definition compute : GcpApi := {|
  AggregatedList_Do := fun _ =>
    inr [ ("zones/us-central1-a"%string,
           mkScopedList
             [ mkInstance "vm-1"
                 "https://www.googleapis.com/compute/v1/projects/playground/zones/us-central1-a"
                 false "2019-01-01T00:00:00Z" ]);
          ("zones/europe-west1-b"%string,
           mkScopedList
             [ mkInstance "vm-2"
                 "https://www.googleapis.com/compute/v1/projects/playground/zones/europe-west1-b"
                 false "2019-01-01T00:00:00Z" ]) ];
  time_Parse_RFC3339 := fun value =>
    if String.eqb value "2019-01-01T00:00:00Z"
    then inr 1546300800000000000
    else inl (errorString "parsing time: cannot parse");
|}.

End samples.

(** ** package aws: [getRandomRegion] *)

Module aws_random.
Import aws.

(** The clock and the generator of [math/rand] after [rand.Seed]:
    [seeded_source seed n] is the raw value behind the [n]-th draw that
    follows [rand.Seed(seed)]. *)
Class Seeding : Type := {
  time_Now_UnixNano : Z;
  seeded_source : Z -> nat -> Z;
}.

(** The state of the generator once it has been seeded. *)
Record Seeded : Type := mkSeeded { seed : Z; seeded_calls : nat }.

(** [rand.Intn(n)] on a seeded generator; it panics unless [n] is
    positive. *)
Definition seeded_Intn {R : Seeding} (g : Seeded) (n : Z) : outcome (Seeded * Z) :=
  if n <=? 0 then Panicked "invalid argument to Intn"
  else
    Returned (mkSeeded (seed g) (S (seeded_calls g)),
              seeded_source (seed g) (seeded_calls g) mod n).

(** [func getRandomRegion() (string, error)], with the world it leaves
    and the state of the generator when it has seeded it. *)
Definition getRandomRegion {A : AwsApi} {R : Seeding} (w : World)
    : World * option Seeded * outcome (error + string) :=
  match GetEnabledRegions w with
  | (w1, Returned (inl err)) => (w1, None, Returned (inl (WithStackTrace err)))
  | (w1, Returned (inr allRegions)) =>
      let g := mkSeeded time_Now_UnixNano 0 in
      match seeded_Intn g (len allRegions) with
      | Returned (g1, randIndex) =>
          (w1, Some g1,
           Returned (inr (nth (Z.to_nat randIndex) allRegions EmptyString)))
      | Panicked msg => (w1, Some g, Panicked msg)
      | Diverged => (w1, Some g, Diverged)
      end
  | (w1, Panicked msg) => (w1, None, Panicked msg)
  | (w1, Diverged) => (w1, None, Diverged)
  end.

End aws_random.

(** ** package commands: the other commands *)

Module commands_more.
Import aws gcp commands.

(** [func promptForConfirmationBeforeNuking(force bool) (bool, error)] *)
Definition promptForConfirmationBeforeNuking {T : Terminal} (force : bool)
    (w : World) : World * (error + bool) :=
  if force then
    let w1 := countdown 10 10 w in
    let w2 := record (EvPrintln EmptyString) w1 in
    (w2, inr true)
  else
    let w1 :=
      record (EvPrintln (newline +:+ "THE NEXT STEPS ARE DESTRUCTIVE AND COMPLETELY IRREVERSIBLE, PROCEED WITH CAUTION!!!")) w in
    let prompt :=
      newline +:+ "Are you sure you want to nuke all listed resources? Enter 'nuke' to confirm: " in
    let answer := PromptUserForInput (history w1) prompt in
    let w2 := record (EvPrompt prompt) w1 in
    match answer with
    | inl err => (w2, inl (WithStackTrace err))
    | inr input => (w2, inr (String.eqb (strings_ToLower input) "nuke"))
    end.

(** The flags of the [gcp] command. *)
Record GcpFlags : Type := mkGcpFlags {
  gcp_exclude_region : list string;
  gcp_older_than : string;
  gcp_force : bool;
}.

(** What [gcpNuke] calls in package gcp outside the functions modelled
    above, taken as parameters. *)
Class GcpCommands : Type := {
  (** [gcp.DefaultContext()] *)
  DefaultContext : error + GcpContext;
  (** [ctx.ContainsRegion(region)] *)
  ContainsRegion : GcpContext -> string -> bool;
  (** [ctx.GetAllResources(excludedRegions, excludeAfter)] *)
  ctx_GetAllResources :
    GcpContext -> list string -> Z -> error + list GceInstanceResource;
  (** [ctx.NukeAllResources(resources)]: the errors of the deletions *)
  ctx_NukeAllResources : GcpContext -> list GceInstanceResource -> list error;
}.

(** [func regionIsValid(ctx *gcp.GcpContext, region string) bool] *)
Definition regionIsValid {C : GcpCommands} (ctx : GcpContext) (region : string)
    : bool :=
  ContainsRegion ctx region.

(** Lines 148-155 of [gcpNuke]. *)
Fixpoint gcp_invalidExcludedRegion {C : GcpCommands} (ctx : GcpContext)
    (excludedRegions : list string) : option cli_error :=
  match excludedRegions with
  | [] => None
  | excludedRegion :: excludedRegions' =>
      if negb (regionIsValid ctx excludedRegion) then
        Some (InvalidFlagError "exclude-region" excludedRegion)
      else gcp_invalidExcludedRegion ctx excludedRegions'
  end.

(** The world of the [gcp] command: the terminal, and the lists of
    resources handed to [ctx.NukeAllResources], oldest first. *)
Record GcpWorld : Type :=
  mkGcpWorld { gcp_terminal : World; gcp_nuked : list (list GceInstanceResource) }.

(** [func gcpNuke(c *cli.Context) error]; calls of the logger are left
    out. *)
Definition gcpNuke {T : Terminal} {C : GcpCommands} (c : GcpFlags)
    (w : GcpWorld) : GcpWorld * option cli_error :=
  match DefaultContext with
  | inl err => (w, Some (Err (WithStackTrace err)))
  | inr ctx =>
      let excludedRegions := gcp_exclude_region c in
      match gcp_invalidExcludedRegion ctx excludedRegions with
      | Some err => (w, Some err)
      | None =>
          match parseDurationParam (gcp_older_than c) with
          | inl err => (w, Some (Err (WithStackTrace err)))
          | inr excludeAfter =>
              match ctx_GetAllResources ctx excludedRegions excludeAfter with
              | inl err => (w, Some (Err (WithStackTrace err)))
              | inr resources =>
                  if len resources =? 0 then (w, None)
                  else
                    match promptForConfirmationBeforeNuking (gcp_force c)
                            (gcp_terminal w) with
                    | (t1, inl err) => (mkGcpWorld t1 (gcp_nuked w), Some (Err err))
                    | (t1, inr confirmation) =>
                        if confirmation then
                          let nukeErrors := ctx_NukeAllResources ctx resources in
                          let w1 := mkGcpWorld t1 (gcp_nuked w ++ [resources]) in
                          if negb (len nukeErrors =? 0) then
                            (w1, Some (Err (errorString "Some resources failed to nuke.")))
                          else (w1, None)
                        else (mkGcpWorld t1 (gcp_nuked w), None)
                    end
              end
          end
      end
  end.

(** [aws.Vpc] and [aws.DefaultSecurityGroup]: the fields the commands
    read. *)
Record Vpc : Type := mkVpc { Vpc_Region : string; VpcId : string }.

Record DefaultSecurityGroup : Type :=
  mkDefaultSecurityGroup { GroupId : string; GroupName : string; SG_Region : string }.

(** What the [defaults-aws] command calls in package aws outside the
    functions modelled above, taken as parameters; [None] is a nil
    error. *)
Class DefaultsApi : Type := {
  NewVpcPerRegion : list string -> list Vpc;
  GetDefaultVpcs : list Vpc -> error + list Vpc;
  NukeVpcs : list Vpc -> option error;
  GetDefaultSecurityGroups : list string -> error + list DefaultSecurityGroup;
  NukeDefaultSecurityGroupRules : list DefaultSecurityGroup -> option error;
}.

(** A deleting call of the [defaults-aws] command. *)
Inductive defaults_call : Type :=
| NukeVpcsCall (vpcs : list Vpc)
| NukeRulesCall (groups : list DefaultSecurityGroup).

(** The world of the command: the terminal and the deleting calls made,
    oldest first. *)
Record DefaultsWorld : Type :=
  mkDefaultsWorld { terminal : World; deletions : list defaults_call }.

(** [func nukeDefaultVpcs(c *cli.Context, regions []string) error]; the
    error of [aws.NukeVpcs] is logged and dropped. *)
Definition nukeDefaultVpcs {T : Terminal} {D : DefaultsApi} (force : bool)
    (regions : list string) (w : DefaultsWorld) : DefaultsWorld * option error :=
  let vpcPerRegion := NewVpcPerRegion regions in
  match GetDefaultVpcs vpcPerRegion with
  | inl err => (w, Some (WithStackTrace err))
  | inr vpcPerRegion =>
      if len vpcPerRegion =? 0 then (w, None)
      else
        let asked :=
          if negb force then
            let prompt :=
              newline +:+ "Are you sure you want to nuke all default VPCs? Enter 'nuke' to confirm: " in
            confirmationPrompt prompt (terminal w)
          else (terminal w, inr false) in
        match asked with
        | (t1, inl err) => (mkDefaultsWorld t1 (deletions w), Some err)
        | (t1, inr proceed) =>
            if proceed || force then
              let w1 :=
                mkDefaultsWorld t1 (deletions w ++ [NukeVpcsCall vpcPerRegion]) in
              match NukeVpcs vpcPerRegion with
              | Some err => (w1, None)
              | None => (w1, None)
              end
            else (mkDefaultsWorld t1 (deletions w), None)
        end
  end.

(** [func nukeDefaultSecurityGroups(c *cli.Context, regions []string) error];
    the error of [aws.NukeDefaultSecurityGroupRules] is logged and
    dropped. *)
Definition nukeDefaultSecurityGroups {T : Terminal} {D : DefaultsApi}
    (force : bool) (regions : list string) (w : DefaultsWorld)
    : DefaultsWorld * option error :=
  match GetDefaultSecurityGroups regions with
  | inl err => (w, Some (WithStackTrace err))
  | inr defaultSgs =>
      let asked :=
        if negb force then
          let prompt :=
            newline +:+ "Are you sure you want to nuke the rules in these default security groups ? Enter 'nuke' to confirm: " in
          confirmationPrompt prompt (terminal w)
        else (terminal w, inr false) in
      match asked with
      | (t1, inl err) => (mkDefaultsWorld t1 (deletions w), Some err)
      | (t1, inr proceed) =>
          if proceed || force then
            let w1 :=
              mkDefaultsWorld t1 (deletions w ++ [NukeRulesCall defaultSgs]) in
            match NukeDefaultSecurityGroupRules defaultSgs with
            | Some err => (w1, None)
            | None => (w1, None)
            end
          else (mkDefaultsWorld t1 (deletions w), None)
      end
  end.

(** [func awsDefaults(c *cli.Context) error] *)
Definition awsDefaults {A : AwsApi} {T : Terminal} {D : DefaultsApi}
    (force : bool) (w : DefaultsWorld)
    : DefaultsWorld * outcome (option error) :=
  match GetEnabledRegions (terminal w) with
  | (t1, Panicked msg) => (mkDefaultsWorld t1 (deletions w), Panicked msg)
  | (t1, Diverged) => (mkDefaultsWorld t1 (deletions w), Diverged)
  | (t1, Returned (inl err)) =>
      (mkDefaultsWorld t1 (deletions w), Returned (Some (WithStackTrace err)))
  | (t1, Returned (inr regions)) =>
      match nukeDefaultVpcs force regions (mkDefaultsWorld t1 (deletions w)) with
      | (w1, Some err) => (w1, Returned (Some (WithStackTrace err)))
      | (w1, None) =>
          match nukeDefaultSecurityGroups force regions w1 with
          | (w2, Some err) => (w2, Returned (Some (WithStackTrace err)))
          | (w2, None) => (w2, Returned None)
          end
      end
  end.

End commands_more.

(** ** Vocabulary of the further properties *)

Module deletion.
Import aws.

(** The resources [NukeAllResources] reads for a region: the entry of the
    map, or the zero value when the region is no key. *)
Definition entry (account : AwsAccountResources) (region : string)
    : list AwsResources :=
  Resources (default (mkRegionResource []) (AccountResources account !! region)).

(** The identifiers of the inventory for a list of regions, in the order
    of the regions, of the resource types and of the identifiers. *)
Definition inventory_identifiers {P : Plugins} (account : AwsAccountResources)
    (regions : list string) : list string :=
  flat_map (fun region => flat_map ResourceIdentifiers (entry account region))
    regions.

(** The identifiers the delete calls of a piece of history submit. *)
Definition submitted (seg : list event) : list string :=
  flat_map (fun ev => match ev with
                      | EvNuke _ _ batch => batch
                      | _ => []
                      end) seg.

(** An event of the loop over the batches [all] of one resource type. *)
Definition batch_event (session : Session) (resources : AwsResources)
    (all : list (list string)) (ev : event) : Prop :=
  match ev with
  | EvNuke s r batch => s = session /\ r = resources /\ In batch all
  | EvSleep seconds => seconds = 60 \/ seconds = 10
  | _ => False
  end.

(** An event [NukeAllResources] may add for an inventory and a list of
    regions: a pause, or a delete call in one of the regions, for a
    resource type of the region's entry and one of its batches. *)
Definition from_inventory {P : Plugins} (account : AwsAccountResources)
    (regions : list string) (ev : event) : Prop :=
  match ev with
  | EvNuke session resources batch =>
      In (Config_Region session) regions
      /\ In resources (entry account (Config_Region session))
      /\ exists batches,
           split (ResourceIdentifiers resources) (MaxBatchSize resources)
           = Returned batches
           /\ In batch batches
  | EvSleep seconds => seconds = 60 \/ seconds = 10
  | _ => False
  end.

Definition is_delete (ev : event) : bool :=
  match ev with
  | EvNuke _ _ _ => true
  | _ => false
  end.

Definition is_prompt (ev : event) : bool :=
  match ev with
  | EvPrompt _ => true
  | _ => false
  end.

End deletion.

Module listing.
Import gcp.

(** The instance [r] of a result stands for the listed [apiInstance]. *)
Definition stands_for (ctx : GcpContext) (apiInstance : Instance)
    (r : GceInstanceResource) : Prop :=
  InstanceName r = Name apiInstance
  /\ zoneFromUrl (Zone apiInstance) = inr (Instance_Zone r)
  /\ regionFromZone ctx (Instance_Zone r) = inr (RegionName r).

(** A listed instance without deletion protection, created not after the
    cut-off [t]. *)
Definition deletable {G : GcpApi} (t : Z) (apiInstance : Instance) : Prop :=
  DeletionProtection apiInstance = false
  /\ exists creationTime,
       time_Parse_RFC3339 (CreationTimestamp apiInstance) = inr creationTime
       /\ creationTime <= t.

End listing.

(** ** Further sample providers *)

Module more_samples.
Import aws gcp commands.

(** The provider [base], except that no session can be created for the
    regions of [broken]. *)
Definition without_sessions (base : AwsApi) (broken : list string) : AwsApi := {|
  NewSession_error := fun region =>
    if ListContainsElement broken region
    then Some (errorString "MissingRegion: could not find region configuration")
    else None;
  NewSessionWithOptions_error := fun region =>
    if ListContainsElement broken region
    then Some (errorString "MissingRegion: could not find region configuration")
    else None;
  DescribeRegions := DescribeRegions (AwsApi := base);
  getAllAutoScalingGroups := getAllAutoScalingGroups (AwsApi := base);
  getAllLaunchConfigurations := getAllLaunchConfigurations (AwsApi := base);
  getAllElbInstances := getAllElbInstances (AwsApi := base);
  getAllElbv2Instances := getAllElbv2Instances (AwsApi := base);
  getAllEc2Instances := getAllEc2Instances (AwsApi := base);
  getAllEbsVolumes := getAllEbsVolumes (AwsApi := base);
  getAllEIPAddresses := getAllEIPAddresses (AwsApi := base);
  getAllAMIs := getAllAMIs (AwsApi := base);
  getAllSnapshots := getAllSnapshots (AwsApi := base);
  getAllEcsClusters := getAllEcsClusters (AwsApi := base);
  getAllEcsServices := getAllEcsServices (AwsApi := base);
  getAllEksClusters := getAllEksClusters (AwsApi := base);
  Nuke := Nuke (AwsApi := base);
  rand_source := rand_source (AwsApi := base);
|}.

(** A compute service that lists one instance whose creation time cannot
    be parsed. *)
Definition badTimestamp : GcpApi := {|
  AggregatedList_Do := fun _ =>
    inr [ ("zones/us-central1-a"%string,
           mkScopedList
             [ mkInstance "vm-3"
                 "https://www.googleapis.com/compute/v1/projects/playground/zones/us-central1-a"
                 false "yesterday" ]) ];
  time_Parse_RFC3339 := time_Parse_RFC3339 (GcpApi := samples.compute);
|}.

(** An account in which us-west-2, the last of the candidates, is the only
    region that answers, probed with a random source whose sixteenth draw
    repeats the first: the draws are 0, 1, ..., 14, 0. *)
Definition repeatedDraw : AwsApi :=
  samples.provider (fun _ => inr [])
    (samples.describe_enabled ["us-west-2"]%string)
    (fun _ _ _ _ => None)
    (fun n => Z.of_nat n mod 15).

(** An account with one instance in every region, all of whose delete
    calls succeed. *)
Definition populated : AwsApi :=
  samples.provider (fun _ => inr [Some "i-1"%string])
    (samples.describe_enabled ["us-east-1"; "us-west-2"]%string)
    (fun _ _ _ _ => None)
    (fun n => Z.of_nat n).

(** An operator who declines. *)
Definition declining : Terminal := {|
  time_ParseDuration := fun _ => inr 0;
  time_Now := 1546300800000000000;
  PromptUserForInput := fun _ _ => inr "no"%string;
  strings_ToLower := fun s => s;
|}.

End more_samples.

Module command_samples.
Import aws gcp commands aws_random commands_more.

(** A clock and a seeded generator. *)
Definition seeding : Seeding := {|
  time_Now_UnixNano := 1546300800000000000;
  seeded_source := fun seed n => seed + Z.of_nat n;
|}.

(** A project whose listing finds two instances and in which the deletion
    of listed resources fails. *)
Definition failingDeletion : GcpCommands := {|
  DefaultContext := inr samples.project;
  ContainsRegion := fun ctx region =>
    ListContainsElement (map Region_Name (Regions ctx)) region;
  ctx_GetAllResources := fun _ _ _ =>
    inr [ mkGceInstance "vm-1" "us-central1-a" "us-central1";
          mkGceInstance "vm-2" "europe-west1-b" "europe-west1" ];
  ctx_NukeAllResources := fun _ _ => [errorString "resourceInUseByAnotherResource"];
|}.

(** The same project with deletions that succeed. *)
Definition succeedingDeletion : GcpCommands := {|
  DefaultContext := inr samples.project;
  ContainsRegion := fun ctx region =>
    ListContainsElement (map Region_Name (Regions ctx)) region;
  ctx_GetAllResources := fun _ _ _ =>
    inr [ mkGceInstance "vm-1" "us-central1-a" "us-central1";
          mkGceInstance "vm-2" "europe-west1-b" "europe-west1" ];
  ctx_NukeAllResources := fun _ _ => [];
|}.

(** An account with one default VPC and one default security group per
    region, in which the deletion of both fails. *)
Definition stubbornDefaults : DefaultsApi := {|
  NewVpcPerRegion := map (fun region => mkVpc region EmptyString);
  GetDefaultVpcs := fun vpcs =>
    inr (map (fun vpc => mkVpc (Vpc_Region vpc) "vpc-default") vpcs);
  NukeVpcs := fun _ => Some (errorString "DependencyViolation");
  GetDefaultSecurityGroups := fun regions =>
    inr (map (fun region => mkDefaultSecurityGroup "sg-default" "default" region)
           regions);
  NukeDefaultSecurityGroupRules := fun _ =>
    Some (errorString "InvalidPermission.NotFound");
|}.

End command_samples.

(* ===================================================================== *)
(** * Properties *)
(* ===================================================================== *)

Import aws gcp commands inventory executor probing instances validation.

(** ** [split] *)

Lemma split_loop_spec (fuel : nat) :
  forall (identifiers : list string) (limit : Z) (chunks : list (list string)),
    0 < limit ->
    (length identifiers <= fuel)%nat ->
    exists cs rest,
      split_loop fuel identifiers limit chunks = Returned (chunks ++ cs, rest)
      /\ concat cs ++ rest = identifiers
      /\ Forall (fun b => len b = limit) cs
      /\ len rest < limit.
Proof.
  induction fuel as [|fuel IH]; intros ids limit chunks Hpos Hfuel.
  - cbn [split_loop].
    destruct (Z.geb_spec (len ids) limit) as [Hge|Hlt].
    + unfold len in Hge. lia.
    + exists [], ids. rewrite app_nil_r. split; [reflexivity|].
      split; [reflexivity|]. split; [constructor|exact Hlt].
  - cbn [split_loop].
    destruct (Z.geb_spec (len ids) limit) as [Hge|Hlt].
    + destruct (Z.ltb_spec limit 0) as [?|_]; [lia|].
      unfold len in Hge.
      destruct (IH (skipn (Z.to_nat limit) ids) limit
                   (chunks ++ [firstn (Z.to_nat limit) ids]) Hpos)
        as (cs & rest & Heq & Hcat & Hall & Hrest).
      { rewrite length_skipn. lia. }
      exists (firstn (Z.to_nat limit) ids :: cs), rest.
      rewrite Heq, <- app_assoc. cbn [app concat].
      split; [reflexivity|]. split; [|split; [|exact Hrest]].
      * rewrite <- app_assoc, Hcat. apply firstn_skipn.
      * constructor; auto. unfold len. rewrite length_firstn. lia.
    + exists [], ids. rewrite app_nil_r. split; [reflexivity|].
      split; [reflexivity|]. split; [constructor|exact Hlt].
Qed.

Lemma int_wrap_id (z : Z) : min_int <= z <= max_int -> int_wrap z = z.
Proof.
  unfold int_wrap, min_int, max_int. intros H.
  rewrite Z.mod_small; lia.
Qed.

Lemma split_chunks_spec (identifiers : list string) (limit : Z) :
  0 < limit ->
  len identifiers < max_int ->
  exists batches,
    split_chunks identifiers limit = Returned batches
    /\ concat batches = identifiers
    /\ Forall (fun b => 0 < len b <= limit) batches.
Proof.
  intros Hpos Hlen. unfold split_chunks.
  assert (Hq : 0 <= Z.quot (len identifiers) limit <= len identifiers).
  { split.
    - apply Z.quot_pos; unfold len; lia.
    - apply Z.quot_le_upper_bound; unfold len; nia. }
  unfold int_add, int_quot.
  rewrite (int_wrap_id (Z.quot _ _)) by (unfold min_int, max_int in *; lia).
  rewrite int_wrap_id by (unfold min_int, max_int in *; lia).
  destruct (Z.ltb_spec (Z.quot (len identifiers) limit + 1) 0) as [?|_]; [lia|].
  destruct (split_loop_spec (S (length identifiers)) identifiers limit [] Hpos)
    as (cs & rest & Heq & Hcat & Hall & Hrest); [lia|].
  rewrite Heq. cbn [app].
  assert (Hcs : Forall (fun b => 0 < len b <= limit) cs).
  { eapply Forall_impl; [exact Hall|]. cbv beta. intros b Hb. lia. }
  destruct (Z.gtb_spec (len rest) 0) as [Hgt|Hle].
  - eexists. split; [reflexivity|]. rewrite firstn_all. split.
    + rewrite concat_app. cbn [concat]. rewrite app_nil_r. exact Hcat.
    + apply Forall_app. split; [exact Hcs|]. constructor; [lia|constructor].
  - assert (rest = []) as ->.
    { destruct rest; [reflexivity|]. unfold len in Hle. simpl in Hle. lia. }
    rewrite app_nil_r in Hcat.
    eexists. split; [reflexivity|]. split; assumption.
Qed.

(** C6.  For a positive batch size [n] (and a slice, whose length is below
    the largest [int]), [split ids n] returns batches whose concatenation, in
    order, is [ids], each of length at most [n]; [split ids 0] is the single
    batch [[ids]]; and 25 identifiers with [n = 10] give exactly three
    batches, of sizes 10, 10 and 5. *)
Theorem split_concat_bounded (ids : list string) (n : Z) :
  0 < n ->
  len ids < max_int ->
  (exists batches,
      split ids n = Returned batches
      /\ concat batches = ids
      /\ Forall (fun b => len b <= n) batches)
  /\ split ids 0 = Returned [ids]
  /\ (forall ids25 : list string,
         length ids25 = 25%nat ->
         exists b1 b2 b3,
           split ids25 10 = Returned [b1; b2; b3]
           /\ length b1 = 10%nat /\ length b2 = 10%nat /\ length b3 = 5%nat).
Proof.
  intros Hpos Hlen. split; [|split].
  - unfold split.
    destruct (Z.ltb_spec n 0) as [?|_]; [lia|].
    destruct (Z.eqb_spec n 0) as [?|_]; [lia|].
    destruct (split_chunks_spec ids n Hpos Hlen) as (bs & Heq & Hcat & Hall).
    exists bs. split; [exact Heq|]. split; [exact Hcat|].
    eapply Forall_impl; [exact Hall|]. cbv beta. intros b Hb. lia.
  - reflexivity.
  - intros ids25 H25.
    do 25 (destruct ids25 as [|? ids25]; [discriminate H25|]).
    destruct ids25; [|discriminate H25].
    do 3 eexists. split; [vm_compute; reflexivity|].
    repeat split; reflexivity.
Qed.

Lemma split_concat_bounded_witness :
  (0 < 2 /\ len ["a"; "b"; "c"]%string < max_int)
  /\ (exists batches,
        split ["a"; "b"; "c"]%string 2 = Returned batches
        /\ concat batches = ["a"; "b"; "c"]%string
        /\ Forall (fun b => len b <= 2) batches).
Proof.
  split; [split; [lia | reflexivity]|].
  apply (split_concat_bounded ["a"; "b"; "c"]%string 2); [lia | reflexivity].
Defined.

(** ** [GetAllResources] *)

(** Each block of the loop body is an instance of [collect]. *)
Ltac collect_block :=
  unfold collect, enabled, listed, stackTraced; cbn [zero];
  rewrite ?andb_true_r;
  repeat match goal with
    | |- context [if ?b then _ else _] => destruct b; try reflexivity
    | |- context [match ?x with inl _ => _ | inr _ => _ end] =>
        lazymatch x with
        | context [match _ with inl _ => _ | inr _ => _ end] => fail
        | _ => destruct x; try reflexivity
        end
    | |- context [let (_, _) := ?p in _] => destruct p; try reflexivity
    end.

Lemma collect_ASGroups_eq {P : Plugins} {A : AwsApi} s region t rts rs :
  collect_ASGroups s region t rts rs = collect KASGroups s region t rts rs.
Proof. unfold collect_ASGroups. collect_block. Qed.

Lemma collect_LaunchConfigs_eq {P : Plugins} {A : AwsApi} s region t rts rs :
  collect_LaunchConfigs s region t rts rs = collect KLaunchConfigs s region t rts rs.
Proof. unfold collect_LaunchConfigs. collect_block. Qed.

Lemma collect_LoadBalancers_eq {P : Plugins} {A : AwsApi} s region t rts rs :
  collect_LoadBalancers s region t rts rs = collect KLoadBalancers s region t rts rs.
Proof. unfold collect_LoadBalancers. collect_block. Qed.

Lemma collect_LoadBalancersV2_eq {P : Plugins} {A : AwsApi} s region t rts rs :
  collect_LoadBalancersV2 s region t rts rs = collect KLoadBalancersV2 s region t rts rs.
Proof. unfold collect_LoadBalancersV2. collect_block. Qed.

Lemma collect_EC2Instances_eq {P : Plugins} {A : AwsApi} s region t rts rs :
  collect_EC2Instances s region t rts rs = collect KEC2Instances s region t rts rs.
Proof. unfold collect_EC2Instances. collect_block. Qed.

Lemma collect_EBSVolumes_eq {P : Plugins} {A : AwsApi} s region t rts rs :
  collect_EBSVolumes s region t rts rs = collect KEBSVolumes s region t rts rs.
Proof. unfold collect_EBSVolumes. collect_block. Qed.

Lemma collect_EIPAddresses_eq {P : Plugins} {A : AwsApi} s region t rts rs :
  collect_EIPAddresses s region t rts rs = collect KEIPAddresses s region t rts rs.
Proof. unfold collect_EIPAddresses. collect_block. Qed.

Lemma collect_AMIs_eq {P : Plugins} {A : AwsApi} s region t rts rs :
  collect_AMIs s region t rts rs = collect KAMIs s region t rts rs.
Proof. unfold collect_AMIs. collect_block. Qed.

Lemma collect_Snapshots_eq {P : Plugins} {A : AwsApi} s region t rts rs :
  collect_Snapshots s region t rts rs = collect KSnapshots s region t rts rs.
Proof. unfold collect_Snapshots. collect_block. Qed.

Lemma collect_ECSServices_eq {P : Plugins} {A : AwsApi} s region t rts rs :
  collect_ECSServices s region t rts rs = collect KECSServices s region t rts rs.
Proof. unfold collect_ECSServices. collect_block. Qed.

Lemma collect_EKSClusters_eq {P : Plugins} {A : AwsApi} s region t rts rs :
  collect_EKSClusters s region t rts rs = collect KEKSClusters s region t rts rs.
Proof.
  unfold collect_EKSClusters, collect, enabled, listed, stackTraced.
  cbn [zero].
  destruct (IsNukeable _ _); cbn [andb]; [|reflexivity].
  destruct (eksSupportedRegion region); [|reflexivity].
  destruct (getAllEksClusters _ _); reflexivity.
Qed.

Lemma collectRegion_kinds {P : Plugins} {A : AwsApi} s region t rts :
  collectRegion s region t rts
  = (rs <- collect_kinds kinds s region t rts [] ;; inr (mkRegionResource rs)).
Proof.
  unfold collectRegion. cbn [collect_kinds kinds].
  rewrite collect_ASGroups_eq. destruct (collect KASGroups _ _ _ _ _); [reflexivity|].
  rewrite collect_LaunchConfigs_eq. destruct (collect KLaunchConfigs _ _ _ _ _); [reflexivity|].
  rewrite collect_LoadBalancers_eq. destruct (collect KLoadBalancers _ _ _ _ _); [reflexivity|].
  rewrite collect_LoadBalancersV2_eq. destruct (collect KLoadBalancersV2 _ _ _ _ _); [reflexivity|].
  rewrite collect_EC2Instances_eq. destruct (collect KEC2Instances _ _ _ _ _); [reflexivity|].
  rewrite collect_EBSVolumes_eq. destruct (collect KEBSVolumes _ _ _ _ _); [reflexivity|].
  rewrite collect_EIPAddresses_eq. destruct (collect KEIPAddresses _ _ _ _ _); [reflexivity|].
  rewrite collect_AMIs_eq. destruct (collect KAMIs _ _ _ _ _); [reflexivity|].
  rewrite collect_Snapshots_eq. destruct (collect KSnapshots _ _ _ _ _); [reflexivity|].
  rewrite collect_ECSServices_eq. destruct (collect KECSServices _ _ _ _ _); [reflexivity|].
  rewrite collect_EKSClusters_eq. destruct (collect KEKSClusters _ _ _ _ _); reflexivity.
Qed.

Lemma listed_kind {A : AwsApi} k s region t r :
  listed k s region t = inr r -> kind_of r = k.
Proof.
  destruct k; cbn [listed]; intros H;
    repeat match type of H with
      | match ?x with inl _ => _ | inr _ => _ end = _ =>
          destruct x; [discriminate H|]
      end;
    injection H as <-; reflexivity.
Qed.

Lemma collect_kinds_ok {P : Plugins} {A : AwsApi} ks s region t rts :
  forall rs rs',
    collect_kinds ks s region t rts rs = inr rs' ->
    rs' = rs ++ flat_map (entry_of s region t rts) ks
    /\ (forall k, In k ks -> enabled k region rts = true ->
          exists r, listed k s region t = inr r).
Proof.
  induction ks as [|k ks IH]; intros rs rs' Hrun; cbn [collect_kinds] in Hrun.
  - injection Hrun as <-. cbn [flat_map]. rewrite app_nil_r.
    split; [reflexivity|]. intros k [].
  - unfold collect in Hrun. cbn [flat_map]. unfold entry_of at 1.
    destruct (enabled k region rts) eqn:Hen.
    + unfold stackTraced in Hrun.
      destruct (listed k s region t) as [err|r] eqn:Hl; [discriminate Hrun|].
      destruct (IH _ _ Hrun) as [-> Hall].
      split; [rewrite <- app_assoc; reflexivity|].
      intros k' [<-|Hin] Hen'; [exists r; exact Hl | exact (Hall k' Hin Hen')].
    + destruct (IH _ _ Hrun) as [-> Hall].
      split; [reflexivity|].
      intros k' [<-|Hin] Hen'; [congruence | exact (Hall k' Hin Hen')].
Qed.

Lemma collect_kinds_fail {P : Plugins} {A : AwsApi} ks s region t rts k err :
  In k ks ->
  enabled k region rts = true ->
  listed k s region t = inl err ->
  forall rs, exists e, collect_kinds ks s region t rts rs = inl e.
Proof.
  intros Hin Hen Hl.
  induction ks as [|k0 ks IH]; [destruct Hin|]. intros rs.
  cbn [collect_kinds].
  destruct (collect k0 s region t rts rs) as [e|rs0] eqn:Hc; [exists e; reflexivity|].
  destruct Hin as [->|Hin]; [|exact (IH Hin rs0)].
  unfold collect in Hc. rewrite Hen, Hl in Hc. discriminate Hc.
Qed.

Lemma all_kinds (k : kind) : In k kinds.
Proof. destruct k; cbn; tauto. Qed.

Lemma session_NewSession_region {A : AwsApi} region session :
  session_NewSession region = inr session -> session = mkSession region.
Proof.
  unfold session_NewSession. destruct (NewSession_error region); congruence.
Qed.

Lemma collectRegion_fail {P : Plugins} {A : AwsApi} s region t rts k err :
  enabled k region rts = true ->
  listed k s region t = inl err ->
  exists e, collectRegion s region t rts = inl e.
Proof.
  intros Hen Hl. rewrite collectRegion_kinds.
  destruct (collect_kinds_fail kinds s region t rts k err (all_kinds k) Hen Hl [])
    as [e ->].
  exists e. reflexivity.
Qed.

Lemma collectRegion_ok {P : Plugins} {A : AwsApi} s region t rts rir :
  collectRegion s region t rts = inr rir ->
  Resources rir = flat_map (entry_of s region t rts) kinds
  /\ (forall k, enabled k region rts = true ->
        exists r, listed k s region t = inr r).
Proof.
  rewrite collectRegion_kinds.
  destruct (collect_kinds kinds s region t rts []) as [e|rs] eqn:Hc;
    [discriminate|].
  intros [= <-]. destruct (collect_kinds_ok _ _ _ _ _ _ _ Hc) as [-> Hall].
  split; [reflexivity|]. intros k. apply Hall, all_kinds.
Qed.

Lemma ListContainsElement_In (l : list string) (x : string) :
  ListContainsElement l x = true <-> In x l.
Proof.
  induction l as [|y l IH]; cbn [ListContainsElement In].
  - split; [discriminate | tauto].
  - rewrite orb_true_iff, IH, String.eqb_eq. tauto.
Qed.

Lemma GetAllResources_loop_fail {P : Plugins} {A : AwsApi}
    regions excluded t rts region k err :
  In region regions ->
  ListContainsElement excluded region = false ->
  enabled k region rts = true ->
  listed k (mkSession region) region t = inl err ->
  forall account,
    exists e, GetAllResources_loop regions excluded t rts account = (None, Some e).
Proof.
  intros Hin Hex Hen Hl.
  induction regions as [|r0 regions IH]; [destruct Hin|]. intros account.
  cbn [GetAllResources_loop].
  destruct (ListContainsElement excluded r0) eqn:Hex0.
  - destruct Hin as [->|Hin]; [congruence | exact (IH Hin account)].
  - destruct (session_NewSession r0) as [e|session] eqn:Hs; [eexists; reflexivity|].
    apply session_NewSession_region in Hs. subst session.
    destruct (collectRegion (mkSession r0) r0 t rts) as [e|rir] eqn:Hc;
      [eexists; reflexivity|].
    destruct Hin as [->|Hin]; [|exact (IH Hin _)].
    destruct (collectRegion_fail _ _ _ _ _ _ Hen Hl) as [e He]. congruence.
Qed.

(** C7.  If the list call of a resource type that is collected in a
    region of [regions] (a region that is not excluded) fails, then
    [GetAllResources] returns an error and a nil inventory, whatever was
    gathered before. *)
Theorem GetAllResources_all_or_nothing {P : Plugins} {A : AwsApi}
    (regions excluded : list string) (t : Time) (rts : list string)
    (region : string) (k : kind) (err : error) :
  In region regions ->
  ListContainsElement excluded region = false ->
  enabled k region rts = true ->
  listed k (mkSession region) region t = inl err ->
  exists e, GetAllResources regions excluded t rts = (None, Some e).
Proof.
  intros Hin Hex Hen Hl. unfold GetAllResources.
  exact (GetAllResources_loop_fail _ _ _ _ _ _ _ Hin Hex Hen Hl ∅).
Qed.

(** The entry [GetAllResources] builds for a region. *)
Lemma GetAllResources_loop_lookup {P : Plugins} {A : AwsApi}
    regions excluded t rts :
  forall m account,
    GetAllResources_loop regions excluded t rts m = (Some account, None) ->
    forall region,
      let entry := flat_map (entry_of (mkSession region) region t rts) kinds in
      (In region regions -> ListContainsElement excluded region = false ->
         (forall k, enabled k region rts = true ->
            exists r, listed k (mkSession region) region t = inr r)
         /\ (entry <> [] ->
               AccountResources account !! region = Some (mkRegionResource entry)))
      /\ (~ (In region regions
             /\ ListContainsElement excluded region = false
             /\ entry <> []) ->
          AccountResources account !! region = m !! region).
Proof.
  induction regions as [|r0 regions IH]; intros m account Hrun region entry.
  - cbn [GetAllResources_loop] in Hrun. injection Hrun as <-.
    split; [intros []|]. intros _. reflexivity.
  - cbn [GetAllResources_loop] in Hrun.
    destruct (ListContainsElement excluded r0) eqn:Hex0.
    + destruct (IH _ _ Hrun region) as [Ha Hb]. split.
      * intros [->|Hin] Hex; [congruence | exact (Ha Hin Hex)].
      * intros Hno. apply Hb. intros (Hin & Hex & Hne).
        apply Hno. split; [right; exact Hin | split; assumption].
    + destruct (session_NewSession r0) as [e|session] eqn:Hs; [discriminate Hrun|].
      apply session_NewSession_region in Hs. subst session.
      destruct (collectRegion (mkSession r0) r0 t rts) as [e|rir] eqn:Hc;
        [discriminate Hrun|].
      destruct (collectRegion_ok _ _ _ _ _ Hc) as [Hres Hall].
      destruct rir as [rs]. cbn [Resources] in Hres, Hrun. subst rs.
      set (entry0 := flat_map (entry_of (mkSession r0) r0 t rts) kinds) in *.
      destruct (IH _ _ Hrun region) as [Ha Hb]. fold entry in Ha, Hb.
      assert (Hm : forall r, r <> r0 \/ entry0 = [] ->
                (if len entry0 >? 0
                 then <[r0 := mkRegionResource entry0]> m else m) !! r = m !! r).
      { intros r Hr. unfold len.
        destruct entry0 as [|x entry0'] eqn:He0; [reflexivity|].
        destruct Hr as [Hr|Hr]; [|discriminate Hr].
        cbn [length]. rewrite Nat2Z.inj_succ.
        destruct (Z.gtb_spec (Z.succ (Z.of_nat (length entry0'))) 0); [|lia].
        apply lookup_insert_ne. congruence. }
      split.
      * intros Hin Hex.
        destruct (in_dec String.string_dec region regions) as [Hin'|Hnin];
          [exact (Ha Hin' Hex)|].
        destruct Hin as [->|Hin]; [|contradiction].
        split; [exact Hall|]. intros Hne.
        rewrite Hb by tauto. subst entry. fold entry0 in Hne |- *.
        unfold len. destruct entry0 as [|x entry0']; [congruence|].
        cbn [length]. rewrite Nat2Z.inj_succ.
        destruct (Z.gtb_spec (Z.succ (Z.of_nat (length entry0'))) 0); [|lia].
        apply lookup_insert_eq.
      * intros Hno. rewrite Hb.
        -- apply Hm. destruct (String.string_dec region r0) as [->|Hne];
             [|left; exact Hne].
           right. subst entry. fold entry0 in Hno.
           destruct entry0; [reflexivity|].
           exfalso. apply Hno. split; [left; reflexivity|].
           split; [exact Hex0 | discriminate].
        -- intros (Hin & Hex & Hne). apply Hno.
           split; [right; exact Hin | split; assumption].
Qed.

(** What a successful build enters.  The entry of every region of
    [regions] that is not excluded holds, for each resource type collected
    there, the value built from its list call, in the order of the source
    and whatever the number of identifiers (no block checks for an empty
    result); it holds nothing else; and the region is absent from the
    inventory exactly when its entry holds no resource type. *)
Theorem GetAllResources_entries {P : Plugins} {A : AwsApi}
    (regions excluded : list string) (t : Time) (rts : list string)
    (account : AwsAccountResources) :
  GetAllResources regions excluded t rts = (Some account, None) ->
  forall region,
    In region regions ->
    ListContainsElement excluded region = false ->
    let entry := flat_map (entry_of (mkSession region) region t rts) kinds in
    (forall k, enabled k region rts = true ->
       exists r, listed k (mkSession region) region t = inr r
                 /\ kind_of r = k /\ In r entry)
    /\ (forall r, In r entry ->
          enabled (kind_of r) region rts = true
          /\ listed (kind_of r) (mkSession region) region t = inr r)
    /\ AccountResources account !! region
       = (if len entry >? 0 then Some (mkRegionResource entry) else None).
Proof.
  intros Hrun region Hin Hex entry. unfold GetAllResources in Hrun.
  destruct (GetAllResources_loop_lookup _ _ _ _ _ _ Hrun region) as [Ha Hb].
  fold entry in Ha, Hb. destruct (Ha Hin Hex) as [Hall Hsome].
  split; [|split].
  - intros k Hen. destruct (Hall k Hen) as [r Hr]. exists r.
    split; [exact Hr|]. split; [exact (listed_kind _ _ _ _ _ Hr)|].
    apply in_flat_map. exists k. split; [apply all_kinds|].
    unfold entry_of. rewrite Hen, Hr. left. reflexivity.
  - intros r Hr. apply in_flat_map in Hr. destruct Hr as (k & _ & Hr).
    unfold entry_of in Hr.
    destruct (enabled k region rts) eqn:Hen; [|destruct Hr].
    destruct (listed k (mkSession region) region t) as [e|r'] eqn:Hl;
      [destruct Hr|].
    destruct Hr as [<-|[]]. rewrite (listed_kind _ _ _ _ _ Hl). tauto.
  - unfold len. destruct entry as [|x entry'] eqn:He.
    + cbn. rewrite Hb; [apply lookup_empty|]. intros (_ & _ & Hne). congruence.
    + cbn [length]. rewrite Nat2Z.inj_succ.
      destruct (Z.gtb_spec (Z.succ (Z.of_nat (length entry'))) 0); [|lia].
      apply Hsome. discriminate.
Qed.

Lemma GetAllResources_all_or_nothing_witness :
  (In "us-west-2"%string ["us-east-1"; "us-west-2"]%string
   /\ ListContainsElement [] "us-west-2" = false
   /\ enabled (P := samples.plugins 2) KEC2Instances "us-west-2" [] = true
   /\ listed (A := samples.failingList) KEC2Instances
        (mkSession "us-west-2") "us-west-2" 0
      = inl (errorString "UnauthorizedOperation"))
  /\ exists e,
       GetAllResources (P := samples.plugins 2) (A := samples.failingList)
         ["us-east-1"; "us-west-2"]%string [] 0 [] = (None, Some e).
Proof.
  assert (Hin : In "us-west-2"%string ["us-east-1"; "us-west-2"]%string)
    by (right; left; reflexivity).
  split; [repeat split; [exact Hin | reflexivity ..]|].
  apply (GetAllResources_all_or_nothing (P := samples.plugins 2)
           (A := samples.failingList)
           ["us-east-1"; "us-west-2"]%string [] 0 [] "us-west-2"
           KEC2Instances (errorString "UnauthorizedOperation") Hin);
    reflexivity.
Defined.

(** C4 on the code.  In an account without any resource every list call
    returns zero identifiers.  Every collected resource type is entered all
    the same, with an empty identifier list, so the guard on the number of
    resource types of the region holds and the region is part of the
    inventory.  The inventory [awsNuke] gets is therefore not empty: the
    branch for nothing to nuke is not taken, and the operator is asked to
    confirm the deletion of resources of which there are none. *)
Theorem GetAllResources_keeps_empty_types :
  (exists account,
     GetAllResources (P := samples.plugins 2) (A := samples.emptyAccount)
       ["us-east-1"]%string [] 0 [] = (Some account, None)
     /\ AccountResources account !! "us-east-1"%string
        = Some (mkRegionResource
                  [ ASGroups []; LaunchConfigs []; LoadBalancers [];
                    LoadBalancersV2 []; EC2Instances []; EBSVolumes [];
                    EIPAddresses []; AMIs []; Snapshots [];
                    ECSServices [] ∅; EKSClusters [] ]))
  /\ awsNuke (P := samples.plugins 2) (A := samples.emptyAccount)
       (T := more_samples.declining)
       (mkFlags false [] [] "0s" false) (mkWorld 0 [])
     = (mkWorld 13
          (map EvDescribeRegions
             [ "eu-north-1"; "ap-south-1"; "eu-west-3"; "eu-west-2";
               "eu-west-1"; "ap-northeast-2"; "ap-northeast-1"; "sa-east-1";
               "ca-central-1"; "ap-southeast-1"; "ap-southeast-2";
               "eu-central-1"; "us-east-1" ]%string
           ++ [ EvPrintln (newline +:+ "THE NEXT STEPS ARE DESTRUCTIVE AND COMPLETELY IRREVERSIBLE, PROCEED WITH CAUTION!!!");
                EvPrompt (newline +:+ "Are you sure you want to nuke all listed resources? Enter 'nuke' to confirm: ") ]),
        Returned None).
Proof.
  split.
  - eexists. split; [reflexivity|]. apply lookup_insert_eq.
  - vm_compute. reflexivity.
Qed.

Lemma GetAllResources_entries_witness :
  (In "us-east-1"%string ["us-east-1"]%string
   /\ ListContainsElement [] "us-east-1" = false)
  /\ (<["us-east-1"%string :=
         mkRegionResource
           [ ASGroups []; LaunchConfigs []; LoadBalancers [];
             LoadBalancersV2 []; EC2Instances []; EBSVolumes [];
             EIPAddresses []; AMIs []; Snapshots [];
             ECSServices [] ∅; EKSClusters [] ]]>
        (∅ : gmap string AwsRegionResource)) !! "us-east-1"%string
     = Some (mkRegionResource
               [ ASGroups []; LaunchConfigs []; LoadBalancers [];
                 LoadBalancersV2 []; EC2Instances []; EBSVolumes [];
                 EIPAddresses []; AMIs []; Snapshots [];
                 ECSServices [] ∅; EKSClusters [] ]).
Proof.
  assert (Hin : In "us-east-1"%string ["us-east-1"]%string)
    by (left; reflexivity).
  split; [split; [exact Hin | reflexivity]|].
  exact (proj2 (proj2
    (GetAllResources_entries (P := samples.plugins 2)
       (A := samples.emptyAccount) ["us-east-1"]%string [] 0 []
       (mkAccountResources
          (<["us-east-1"%string :=
              mkRegionResource
                [ ASGroups []; LaunchConfigs []; LoadBalancers [];
                  LoadBalancersV2 []; EC2Instances []; EBSVolumes [];
                  EIPAddresses []; AMIs []; Snapshots [];
                  ECSServices [] ∅; EKSClusters [] ]]> ∅))
       eq_refl "us-east-1"%string Hin eq_refl))).
Defined.

(** ** [NukeAllResources] *)

Section Stops.
Context {P : Plugins} {A : AwsApi}.

Lemma clean_nil (h : list event) : clean h [].
Proof. intros pre ev post H. destruct pre; discriminate H. Qed.

Lemma clean_cons (h : list event) (ev : event) (seg : list event) :
  terminal_answer h ev = None -> clean (h ++ [ev]) seg -> clean h (ev :: seg).
Proof.
  intros Hev Hseg pre ev' post Heq. destruct pre as [|x pre].
  - injection Heq as <- _. rewrite app_nil_r. exact Hev.
  - injection Heq as <- Heq. specialize (Hseg pre ev' post Heq).
    rewrite <- app_assoc in Hseg. exact Hseg.
Qed.

Lemma clean_app (h s1 s2 : list event) :
  clean h s1 -> clean (h ++ s1) s2 -> clean h (s1 ++ s2).
Proof.
  revert h. induction s1 as [|x s1 IH]; intros h H1 H2.
  - rewrite app_nil_r in H2. exact H2.
  - cbn [app]. apply clean_cons.
    + specialize (H1 [] x s1 eq_refl). rewrite app_nil_r in H1. exact H1.
    + apply IH.
      * intros pre ev post Heq. specialize (H1 (x :: pre) ev post).
        rewrite <- app_assoc. apply H1. cbn [app]. congruence.
      * rewrite <- app_assoc. exact H2.
Qed.

Lemma stopped_app (h s1 s2 : list event) (e : error) :
  clean h s1 -> stopped (h ++ s1) s2 e -> stopped h (s1 ++ s2) e.
Proof.
  intros H1 (seg' & ev & err & -> & Hc & Ht & ->).
  exists (s1 ++ seg'), ev, err. rewrite <- app_assoc in Ht.
  split; [apply app_assoc|]. split; [apply clean_app; assumption|].
  split; [exact Ht | reflexivity].
Qed.

Lemma silent_event (h : list event) (ev : event) :
  match ev with EvNuke _ _ _ => False | _ => True end ->
  terminal_answer h ev = None.
Proof. destruct ev; cbn; tauto. Qed.

(** The loop over the batches of a resource type. *)
Lemma nukeBatches_segment session resources batches :
  forall i n h,
    exists seg,
      fst (nukeBatches session resources i n batches h) = h ++ seg
      /\ match snd (nukeBatches session resources i n batches h) with
         | None => clean h seg
         | Some e => stopped h seg e
         end.
Proof.
  induction batches as [|batch batches IH]; intros i n h; cbn [nukeBatches].
  - exists []. rewrite app_nil_r. split; [reflexivity | apply clean_nil].
  - destruct (Nuke h resources session batch) as [err|] eqn:Hn.
    + destruct (strings_Contains (Error err) "RequestLimitExceeded") eqn:Hrl.
      * destruct (IH (int_add i 1) n
                    ((h ++ [EvNuke session resources batch]) ++ [EvSleep 60]))
          as (seg & Hfst & Hsnd).
        exists ([EvNuke session resources batch; EvSleep 60] ++ seg).
        rewrite Hfst. split; [rewrite <- !app_assoc; reflexivity|].
        assert (Hc : clean h [EvNuke session resources batch; EvSleep 60]).
        { apply clean_cons; [cbn; rewrite Hn, Hrl; reflexivity|].
          apply clean_cons; [reflexivity | apply clean_nil]. }
        destruct (snd _); rewrite <- app_assoc in Hsnd; cbn [app] in Hsnd;
          [apply stopped_app | apply clean_app]; assumption.
      * exists [EvNuke session resources batch]. cbn [fst snd].
        split; [reflexivity|].
        exists [], (EvNuke session resources batch), err.
        rewrite app_nil_r. split; [reflexivity|]. split; [apply clean_nil|].
        split; [cbn; rewrite Hn, Hrl; reflexivity | reflexivity].
    + set (h2 := if negb (i =? int_add n (-1))
                 then (h ++ [EvNuke session resources batch]) ++ [EvSleep 10]
                 else h ++ [EvNuke session resources batch]).
      set (s1 := if negb (i =? int_add n (-1))
                 then [EvNuke session resources batch; EvSleep 10]
                 else [EvNuke session resources batch]).
      assert (Hh2 : h2 = h ++ s1).
      { subst h2 s1. destruct (negb _); [rewrite <- app_assoc|]; reflexivity. }
      assert (Hc : clean h s1).
      { subst s1. destruct (negb _).
        - apply clean_cons; [cbn; rewrite Hn; reflexivity|].
          apply clean_cons; [reflexivity | apply clean_nil].
        - apply clean_cons; [cbn; rewrite Hn; reflexivity | apply clean_nil]. }
      clearbody h2 s1. subst h2.
      destruct (IH (int_add i 1) n (h ++ s1)) as (seg & Hfst & Hsnd).
      exists (s1 ++ seg). rewrite Hfst, <- app_assoc.
      split; [reflexivity|].
      destruct (snd _); [apply stopped_app | apply clean_app]; assumption.
Qed.

(** The loop over the resource types of a region. *)
Lemma nukeRegion_segment session resourcesInRegion :
  forall h,
    exists seg,
      fst (nukeRegion session resourcesInRegion h) = h ++ seg
      /\ match snd (nukeRegion session resourcesInRegion h) with
         | Returned (Some e) => stopped h seg e
         | _ => clean h seg
         end.
Proof.
  induction resourcesInRegion as [|resources rest IH]; intros h;
    cbn [nukeRegion].
  - exists []. rewrite app_nil_r. split; [reflexivity | apply clean_nil].
  - destruct (split _ _) as [batches|msg|];
      [| exists []; rewrite app_nil_r; split; [reflexivity | apply clean_nil] ..].
    destruct (nukeBatches_segment session resources batches 0 (len batches) h)
      as (s1 & Hfst & Hsnd).
    destruct (nukeBatches session resources 0 (len batches) batches h)
      as [h1 [e|]]; cbn [fst snd] in Hfst, Hsnd; subst h1.
    + exists s1. split; [reflexivity | exact Hsnd].
    + destruct (IH (h ++ s1)) as (s2 & Hfst2 & Hsnd2).
      exists (s1 ++ s2). rewrite Hfst2, <- app_assoc. split; [reflexivity|].
      destruct (snd _) as [[e|]| |];
        [apply stopped_app | apply clean_app ..]; assumption.
Qed.

(** The loop over the regions: a run ends at the first terminal answer,
    with that error, or it ends without any (with the error of a session,
    a panic of [split], or nil). *)
Lemma NukeAllResources_segment account regions :
  forall h,
    exists seg,
      fst (NukeAllResources account regions h) = h ++ seg
      /\ match snd (NukeAllResources account regions h) with
         | Returned (Some e) =>
             stopped h seg e
             \/ (clean h seg
                 /\ exists region err,
                      In region regions
                      /\ NewSession_error region = Some err
                      /\ e = WithStackTrace err)
         | _ => clean h seg
         end.
Proof.
  induction regions as [|region regions IH]; intros h;
    cbn [NukeAllResources].
  - exists []. rewrite app_nil_r. split; [reflexivity | apply clean_nil].
  - unfold session_NewSession.
    destruct (NewSession_error region) as [err|] eqn:Hs.
    + exists []. rewrite app_nil_r. split; [reflexivity|]. right.
      split; [apply clean_nil|]. exists region, err.
      split; [left; reflexivity | split; [exact Hs | reflexivity]].
    + set (rs := Resources (default (mkRegionResource [])
                              (AccountResources account !! region))).
      destruct (nukeRegion_segment (mkSession region) rs h)
        as (s1 & Hfst & Hsnd).
      destruct (nukeRegion (mkSession region) rs h) as [h1 result];
        cbn [fst snd] in Hfst, Hsnd; subst h1.
      destruct result as [[e|]|msg|].
      * exists s1. split; [reflexivity | left; exact Hsnd].
      * destruct (IH (h ++ s1)) as (s2 & Hfst2 & Hsnd2).
        exists (s1 ++ s2). rewrite Hfst2, <- app_assoc. split; [reflexivity|].
        destruct (snd _) as [[e|]| |]; [|apply clean_app; assumption ..].
        destruct Hsnd2 as [Hst|(Hcl & r & err & Hin & Hr & He)].
        -- left. apply stopped_app; assumption.
        -- right. split; [apply clean_app; assumption|].
           exists r, err. split; [right; exact Hin | split; assumption].
      * exists s1. split; [reflexivity | exact Hsnd].
      * exists s1. split; [reflexivity | exact Hsnd].
Qed.

Lemma stopped_last (h seg pre post : list event) (ev : event) (e err : error) :
  stopped h seg e ->
  seg = pre ++ ev :: post ->
  terminal_answer (h ++ pre) ev = Some err ->
  post = [] /\ e = WithStackTrace err.
Proof.
  intros (seg' & ev0 & err0 & -> & Hc & Ht & ->) Heq Hans.
  destruct post as [|x post] using rev_ind.
  - apply app_inj_tail in Heq. destruct Heq as [-> ->].
    split; [reflexivity | congruence].
  - clear IHpost.
    change (pre ++ ev :: post ++ [x]) with (pre ++ (ev :: post) ++ [x]) in Heq.
    rewrite app_assoc in Heq. apply app_inj_tail in Heq.
    destruct Heq as [-> _]. specialize (Hc pre ev post eq_refl). congruence.
Qed.

End Stops.

(** C1, as the code has it.  When a delete call of a run is answered by
    an error that is not the rate-limit signal, that call is the last call
    of the run: no later batch, resource type or region is attempted, and
    [NukeAllResources] returns that one error (with its stack trace), not
    a list of errors. *)
Theorem NukeAllResources_stops_at_terminal_error {P : Plugins} {A : AwsApi}
    (account : AwsAccountResources) (regions : list string)
    (h h' : list event) (result : outcome (option error))
    (pre post : list event) (session : Session) (resources : AwsResources)
    (batch : list string) (err : error) :
  NukeAllResources account regions h = (h', result) ->
  h' = h ++ pre ++ EvNuke session resources batch :: post ->
  Nuke (h ++ pre) resources session batch = Some err ->
  strings_Contains (Error err) "RequestLimitExceeded" = false ->
  post = [] /\ result = Returned (Some (WithStackTrace err)).
Proof.
  intros Hrun Hh' Hn Hrl.
  destruct (NukeAllResources_segment account regions h) as (seg & Hfst & Hsnd).
  rewrite Hrun in Hfst, Hsnd. cbn [fst snd] in Hfst, Hsnd.
  rewrite Hh' in Hfst. apply app_inv_head in Hfst. symmetry in Hfst.
  assert (Hans : terminal_answer (h ++ pre) (EvNuke session resources batch)
                 = Some err).
  { cbn [terminal_answer]. rewrite Hn, Hrl. reflexivity. }
  assert (Hclean : clean h seg -> False).
  { intros Hc. specialize (Hc _ _ _ Hfst). congruence. }
  destruct result as [[e|]|msg|]; try (exfalso; exact (Hclean Hsnd)).
  destruct Hsnd as [Hst|[Hc _]]; [|exfalso; exact (Hclean Hc)].
  destruct (stopped_last _ _ _ _ _ _ _ Hst Hfst Hans) as [-> ->].
  split; reflexivity.
Qed.

Lemma NukeAllResources_stops_at_terminal_error_witness :
  (Nuke (AwsApi := samples.terminalOnFirstBatch) ([] ++ [])
     (EC2Instances ["i-1"; "i-2"; "i-3"]%string) (mkSession "us-east-1")
     ["i-1"; "i-2"]%string
   = Some (errorString "OperationNotPermitted: termination protection")
   /\ strings_Contains
        (Error (errorString "OperationNotPermitted: termination protection"))
        "RequestLimitExceeded" = false)
  /\ ([] : list event) = []
     /\ Returned (Some (withStack
           (errorString "OperationNotPermitted: termination protection")))
        = Returned (Some (WithStackTrace
           (errorString "OperationNotPermitted: termination protection"))).
Proof.
  split; [split; reflexivity|].
  apply (NukeAllResources_stops_at_terminal_error
           (P := samples.plugins 2) (A := samples.terminalOnFirstBatch)
           samples.twoRegions ["us-east-1"; "us-west-2"]%string []
           [EvNuke (mkSession "us-east-1")
              (EC2Instances ["i-1"; "i-2"; "i-3"]%string) ["i-1"; "i-2"]%string]
           _ [] [] (mkSession "us-east-1")
           (EC2Instances ["i-1"; "i-2"; "i-3"]%string) ["i-1"; "i-2"]%string
           (errorString "OperationNotPermitted: termination protection"));
    reflexivity.
Defined.

(** C1 as stated fails.  The instances of us-east-1 make two batches; the
    delete call for the first is refused for a reason other than rate
    limiting, and the second would be accepted.  The run makes the first
    call only: the second batch, the volume of the region and the region
    us-west-2 are not attempted, and the result is the single error. *)
Lemma NukeAllResources_returns_at_first_error :
  split (ResourceIdentifiers (Plugins := samples.plugins 2)
           (EC2Instances ["i-1"; "i-2"; "i-3"]%string))
        (MaxBatchSize (Plugins := samples.plugins 2)
           (EC2Instances ["i-1"; "i-2"; "i-3"]%string))
  = Returned [["i-1"; "i-2"]; ["i-3"]]%string
  /\ (forall h,
        Nuke (AwsApi := samples.terminalOnFirstBatch) h
          (EC2Instances ["i-1"; "i-2"; "i-3"]%string) (mkSession "us-east-1")
          ["i-3"]%string = None)
  /\ NukeAllResources (P := samples.plugins 2)
       (A := samples.terminalOnFirstBatch)
       samples.twoRegions ["us-east-1"; "us-west-2"]%string []
     = ([EvNuke (mkSession "us-east-1")
           (EC2Instances ["i-1"; "i-2"; "i-3"]%string) ["i-1"; "i-2"]%string],
        Returned (Some (withStack
           (errorString "OperationNotPermitted: termination protection")))).
Proof.
  split; [reflexivity|]. split; [intros h; reflexivity|].
  vm_compute. reflexivity.
Qed.

(** After the rate-limit signal the loop goes on with the batches that
    follow: the batch that was refused is not part of what remains. *)
Lemma nukeBatches_rate_limit_advances {A : AwsApi} session resources i n
    batch batches h err :
  Nuke h resources session batch = Some err ->
  strings_Contains (Error err) "RequestLimitExceeded" = true ->
  nukeBatches session resources i n (batch :: batches) h
  = nukeBatches session resources (int_add i 1) n batches
      (h ++ [EvNuke session resources batch; EvSleep 60]).
Proof.
  intros Hn Hrl. cbn [nukeBatches]. rewrite Hn, Hrl, <- app_assoc.
  reflexivity.
Qed.

(** C2 on the code.  The first delete call of the run, for the first batch
    of instances, is answered by the rate-limit signal; a repetition would
    be accepted.  After the pause of a minute the run goes on with the
    second batch: the first batch is not tried again, and the run ends
    with a nil error although its identifiers were never deleted. *)
Theorem NukeAllResources_rate_limit_skips_batch :
  Nuke (AwsApi := samples.rateLimitedOnce) []
    (EC2Instances ["i-1"; "i-2"; "i-3"]%string) (mkSession "us-east-1")
    ["i-1"; "i-2"]%string
  = Some (errorString "RequestLimitExceeded: Request limit exceeded.")
  /\ NukeAllResources (P := samples.plugins 2) (A := samples.rateLimitedOnce)
       samples.twoRegions ["us-east-1"]%string []
     = ([EvNuke (mkSession "us-east-1")
           (EC2Instances ["i-1"; "i-2"; "i-3"]%string) ["i-1"; "i-2"]%string;
         EvSleep 60;
         EvNuke (mkSession "us-east-1")
           (EC2Instances ["i-1"; "i-2"; "i-3"]%string) ["i-3"]%string;
         EvNuke (mkSession "us-east-1")
           (EBSVolumes ["vol-1"]%string) ["vol-1"]%string],
        Returned None).
Proof.
  split; [reflexivity|]. vm_compute. reflexivity.
Qed.

(** ** [split] with a limit that is not positive *)

(** C5 as stated fails: a negative limit does not give a single batch. *)
Lemma split_negative_limit_batches :
  split ["a"; "b"; "c"]%string (-2) = Returned [["a"; "b"]; ["c"]]%string.
Proof. vm_compute. reflexivity. Qed.

Lemma int_mul_negate (limit : Z) :
  min_int < limit < 0 -> int_mul (-1) limit = - limit.
Proof.
  intros H. unfold int_mul.
  replace (-1 * limit) with (- limit) by lia.
  apply int_wrap_id. unfold min_int, max_int in *. lia.
Qed.

(** C5, as the code has it.  [split ids 0] is the single batch [[ids]]; a
    negative limit other than the smallest [int] is negated first, so
    [split ids limit] batches as [split ids (- limit)] does. *)
Theorem split_nonpositive_limit (ids : list string) :
  split ids 0 = Returned [ids]
  /\ forall limit, min_int < limit < 0 -> split ids limit = split ids (- limit).
Proof.
  split; [reflexivity|]. intros limit Hlimit. unfold split.
  rewrite (int_mul_negate limit Hlimit).
  destruct (Z.ltb_spec limit 0) as [_|?]; [|lia].
  destruct (Z.ltb_spec (- limit) 0) as [?|_]; [lia|].
  destruct (Z.eqb_spec (- limit) 0) as [?|_]; [lia|].
  reflexivity.
Qed.

Lemma split_nonpositive_limit_witness :
  min_int < -2 < 0
  /\ split ["a"; "b"; "c"]%string (-2) = split ["a"; "b"; "c"]%string (- -2).
Proof.
  assert (H : min_int < -2 < 0) by (split; reflexivity).
  split; [exact H|].
  exact (proj2 (split_nonpositive_limit ["a"; "b"; "c"]%string) (-2) H).
Defined.

(** ** [zoneFromUrl] *)

Lemma nth_last {X : Type} (l : list X) (d : X) :
  l <> [] -> nth (Z.to_nat (len l - 1)) l d = List.last l d.
Proof.
  intros Hne. unfold len.
  replace (Z.to_nat (Z.of_nat (length l) - 1)) with (length l - 1)%nat by lia.
  induction l as [|x l IH]; [congruence|].
  destruct l as [|y l]; [reflexivity|].
  cbn [length List.last]. cbn [length] in IH.
  replace (S (S (length l)) - 1)%nat with (S (length l)) by lia.
  cbn [nth]. replace (length l) with (S (length l) - 1)%nat at 1 by lia.
  apply IH. discriminate.
Qed.

Lemma Split_fields_slash (s : string) :
  let (field, fields) := Split_fields "/" 0 s in
  ~ has_slash (List.last (field :: fields) EmptyString)
  /\ match fields with
     | [] => s = field
     | _ :: _ =>
         exists p, s = p +:+ "/" +:+ List.last (field :: fields) EmptyString
     end.
Proof.
  induction s as [|c s IH].
  - cbn. split; [intros [] | reflexivity].
  - cbn [Split_fields String.prefix String.length Nat.sub].
    destruct (Split_fields "/" 0 s) as [field fields].
    destruct IH as [Hno Hshape].
    destruct (Ascii.ascii_dec "/"%char c) as [Hc|Hc].
    + subst c. replace (String.prefix EmptyString s) with true
        by (destruct s; reflexivity).
      split; [exact Hno|].
      destruct fields as [|f2 fields].
      * subst s. exists EmptyString. reflexivity.
      * destruct Hshape as [p ->]. exists (String "/"%char p). reflexivity.
    + destruct fields as [|f2 fields].
      * subst s. cbn [List.last]. split; [|reflexivity].
        unfold has_slash. cbn [list_ascii_of_string In].
        intros [H|H]; [congruence | exact (Hno H)].
      * split; [exact Hno|]. destruct Hshape as [p ->].
        exists (String c p). reflexivity.
Qed.

(** C10.  For every string [url], [zoneFromUrl url] returns without an
    error; what it returns holds no ['/'] and is [url] itself or what
    follows a ['/'] of [url], that is, the part after the last ['/'], or
    [url] when it has none. *)
Theorem zoneFromUrl_last_segment (url : string) :
  exists zone,
    zoneFromUrl url = inr zone
    /\ ~ has_slash zone
    /\ (url = zone \/ exists p, url = p +:+ "/" +:+ zone).
Proof.
  unfold zoneFromUrl, strings_Split.
  pose proof (Split_fields_slash url) as H.
  destruct (Split_fields "/" 0 url) as [field fields].
  destruct H as [Hno Hshape].
  exists (List.last (field :: fields) EmptyString).
  assert (Hlen : (len (field :: fields) =? 0) = false).
  { unfold len. cbn [length]. apply Z.eqb_neq. lia. }
  rewrite Hlen, nth_last by discriminate.
  split; [reflexivity|]. split; [exact Hno|].
  destruct fields; [left; exact Hshape | right; exact Hshape].
Qed.

(** ** [retryDescribeRegions] *)

Lemma candidate_listed {A : AwsApi} (n : nat) :
  In (candidate n) OptInNotRequiredRegions.
Proof.
  unfold candidate. apply nth_In.
  change (len OptInNotRequiredRegions) with 16.
  change (length OptInNotRequiredRegions) with 16%nat.
  assert (H : 0 <= rand_source n mod 16 < 16)
    by (apply Z.mod_pos_bound; reflexivity).
  lia.
Qed.

Lemma retryDescribeRegions_loop_spec {A : AwsApi} (attempts : nat) :
  forall w,
    exists probes,
      history (fst (retryDescribeRegions_loop attempts w))
      = history w ++ map EvDescribeRegions probes
      /\ (length probes <= attempts)%nat
      /\ probes = map candidate (seq (rand_calls w) (length probes))
      /\ match snd (retryDescribeRegions_loop attempts w) with
         | Returned (inr regions) =>
             exists earlier region,
               probes = earlier ++ [region]
               /\ Forall probe_fails earlier
               /\ DescribeRegions (mkSession region) = inr regions
         | Returned (inl err) =>
             err = WithStackTrace
                     (errorString "could not find any enabled regions")
             /\ length probes = attempts
             /\ Forall probe_fails probes
         | Panicked _ =>
             exists region,
               In region OptInNotRequiredRegions
               /\ NewSessionWithOptions_error region <> None
         | Diverged => False
         end.
Proof.
  induction attempts as [|attempts IH]; intros w;
    cbn [retryDescribeRegions_loop].
  - exists []. cbn [fst snd map length]. rewrite app_nil_r.
    repeat split; auto.
  - unfold rand_Intn, newSession. fold (candidate (rand_calls w)).
    destruct (NewSessionWithOptions_error (candidate (rand_calls w)))
      as [err|] eqn:Hs.
    + exists []. cbn [fst snd map length history]. rewrite app_nil_r.
      split; [reflexivity|]. split; [lia|]. split; [reflexivity|].
      exists (candidate (rand_calls w)).
      split; [apply candidate_listed | congruence].
    + destruct (DescribeRegions (mkSession (candidate (rand_calls w))))
        as [err|regions] eqn:Hd.
      * set (w2 := record (EvDescribeRegions (candidate (rand_calls w)))
                     (mkWorld (S (rand_calls w)) (history w))).
        destruct (IH w2) as (probes & Hh & Hlen & Hp & Hres).
        exists (candidate (rand_calls w) :: probes).
        split.
        { rewrite Hh. subst w2. cbn [record history map].
          rewrite <- app_assoc. reflexivity. }
        split; [cbn [length]; lia|].
        split.
        { cbn [length seq map]. f_equal. exact Hp. }
        assert (Hf : probe_fails (candidate (rand_calls w)))
          by (exists err; exact Hd).
        destruct (snd (retryDescribeRegions_loop attempts w2))
          as [[err'|regions]|msg|].
        -- destruct Hres as (-> & <- & Hall).
           split; [reflexivity|]. split; [reflexivity|].
           constructor; assumption.
        -- destruct Hres as (earlier & region & -> & Hall & Hok).
           exists (candidate (rand_calls w) :: earlier), region.
           split; [reflexivity|]. split; [constructor; assumption | exact Hok].
        -- exact Hres.
        -- exact Hres.
      * exists [candidate (rand_calls w)].
        cbn [fst snd record history map length seq].
        split; [reflexivity|]. split; [lia|]. split; [reflexivity|].
        exists [], (candidate (rand_calls w)).
        split; [reflexivity|]. split; [constructor | exact Hd].
Qed.

(** What the loop does.  [retryDescribeRegions] makes at most 16
    probes, one per iteration.  The candidate of each probe is the one the
    next draw of the random source selects from the list of regions
    enabled by default, whatever was probed before.  It returns the answer
    of the first probe that succeeds, all probes before it having failed,
    and it returns the error for exhaustion after 16 failed probes. *)
Theorem retryDescribeRegions_attempts {A : AwsApi} (w : World) :
  exists probes,
    history (fst (retryDescribeRegions w))
    = history w ++ map EvDescribeRegions probes
    /\ (length probes <= 16)%nat
    /\ probes = map candidate (seq (rand_calls w) (length probes))
    /\ Forall (fun region => In region OptInNotRequiredRegions) probes
    /\ match snd (retryDescribeRegions w) with
       | Returned (inr regions) =>
           exists earlier region,
             probes = earlier ++ [region]
             /\ Forall probe_fails earlier
             /\ DescribeRegions (mkSession region) = inr regions
       | Returned (inl err) =>
           err = WithStackTrace
                   (errorString "could not find any enabled regions")
           /\ length probes = 16%nat
           /\ Forall probe_fails probes
       | Panicked _ =>
           exists region,
             In region OptInNotRequiredRegions
             /\ NewSessionWithOptions_error region <> None
       | Diverged => False
       end.
Proof.
  unfold retryDescribeRegions.
  destruct (retryDescribeRegions_loop_spec
              (length OptInNotRequiredRegions) w)
    as (probes & Hh & Hlen & Hp & Hres).
  exists probes. split; [exact Hh|]. split; [exact Hlen|].
  split; [exact Hp|]. split; [|exact Hres].
  rewrite Hp. apply List.Forall_forall. intros region Hin.
  apply in_map_iff in Hin. destruct Hin as (n & <- & _).
  apply candidate_listed.
Qed.

(** An extreme run.  With a random source that repeats itself, all 16
    probes go to the same candidate; the run ends with the error for
    exhaustion although us-east-2, which was never probed, answers. *)
Lemma retryDescribeRegions_repeats_candidate :
  retryDescribeRegions (A := samples.stuckSource) (mkWorld 0 [])
  = (mkWorld 16 (repeat (EvDescribeRegions "eu-north-1") 16),
     Returned (inl (withStack
        (errorString "could not find any enabled regions"))))
  /\ DescribeRegions (AwsApi := samples.stuckSource) (mkSession "us-east-2")
     = inr [Some "us-east-2"%string].
Proof. split; vm_compute; reflexivity. Qed.

(** C9 on the code.  Only us-west-2, the last of the 16 candidates,
    answers.  The draws select the first 15 candidates, one after the
    other, and then the first again: eu-north-1 is probed twice, us-west-2
    is never probed, and the run ends with the error for exhaustion
    although a candidate that answers was left untried. *)
Theorem retryDescribeRegions_misses_enabled_candidate :
  retryDescribeRegions (A := more_samples.repeatedDraw) (mkWorld 0 [])
  = (mkWorld 16
       (map EvDescribeRegions
          [ "eu-north-1"; "ap-south-1"; "eu-west-3"; "eu-west-2"; "eu-west-1";
            "ap-northeast-2"; "ap-northeast-1"; "sa-east-1"; "ca-central-1";
            "ap-southeast-1"; "ap-southeast-2"; "eu-central-1"; "us-east-1";
            "us-east-2"; "us-west-1"; "eu-north-1" ]%string),
     Returned (inl (withStack
        (errorString "could not find any enabled regions"))))
  /\ In "us-west-2"%string OptInNotRequiredRegions
  /\ DescribeRegions (AwsApi := more_samples.repeatedDraw)
       (mkSession "us-west-2")
     = inr [Some "us-west-2"%string].
Proof.
  split; [vm_compute; reflexivity|].
  split; [|vm_compute; reflexivity].
  unfold OptInNotRequiredRegions. cbn. tauto.
Qed.

(** ** [GetAllGceInstances] *)

Lemma GetAllGceInstances_instances_eligible {G : GcpApi} ctx excluded t
    apiInstances :
  forall instances result,
    GetAllGceInstances_instances ctx excluded t apiInstances instances
    = inr result ->
    forall r, In r result -> In r instances \/ eligible ctx t apiInstances r.
Proof.
  induction apiInstances as [|api rest IH]; intros instances result Hrun r Hr;
    cbn [GetAllGceInstances_instances] in Hrun.
  - injection Hrun as <-. left. exact Hr.
  - assert (Hweak : forall acc, In r acc \/ eligible ctx t rest r ->
               In r acc \/ eligible ctx t (api :: rest) r).
    { intros acc [H|(a & ct & Hin & H)]; [left; exact H|].
      right. exists a, ct. split; [right; exact Hin | exact H]. }
    destruct (DeletionProtection api) eqn:Hprot.
    + apply Hweak, (IH _ _ Hrun r Hr).
    + destruct (zoneFromUrl (Zone api)) as [e|zone] eqn:Hz; [discriminate Hrun|].
      destruct (regionFromZone ctx zone) as [e|region] eqn:Hreg;
        [discriminate Hrun|].
      destruct (excludedRegions_loop region excluded).
      destruct (time_Parse_RFC3339 (CreationTimestamp api)) as [e|ct] eqn:Hct;
        [discriminate Hrun|].
      destruct (Z.gtb_spec ct t) as [Hgt|Hle].
      * apply Hweak, (IH _ _ Hrun r Hr).
      * destruct (IH _ _ Hrun r Hr) as [Hacc|Hel];
          [|apply (Hweak instances); right; exact Hel].
        apply in_app_or in Hacc. destruct Hacc as [Hacc|[<-|[]]];
          [left; exact Hacc|].
        right. exists api, ct. cbn [InstanceName Instance_Zone RegionName].
        repeat split; auto. left. reflexivity.
Qed.

Lemma GetAllGceInstances_eligible {G : GcpApi} ctx excluded t items result :
  AggregatedList_Do (Project ctx) = inr items ->
  GetAllGceInstances ctx excluded t = inr result ->
  forall r, In r result ->
    eligible ctx t (flat_map (fun item => Instances (snd item)) items) r.
Proof.
  unfold GetAllGceInstances. intros -> Hrun r Hr.
  enough (Hgen : forall instances result,
             GetAllGceInstances_items ctx excluded t items instances
             = inr result ->
             forall r, In r result ->
               In r instances
               \/ eligible ctx t
                    (flat_map (fun item => Instances (snd item)) items) r).
  { destruct (Hgen _ _ Hrun r Hr) as [[]|H]. exact H. }
  clear. induction items as [|[key item] items IH];
    intros instances result Hrun r Hr; cbn [GetAllGceInstances_items] in Hrun.
  - injection Hrun as <-. left. exact Hr.
  - destruct (GetAllGceInstances_instances ctx excluded t (Instances item)
                instances) as [e|instances'] eqn:Hi; [discriminate Hrun|].
    cbn [flat_map snd].
    destruct (IH _ _ Hrun r Hr) as [Hacc|(a & ct & Hin & H)].
    + destruct (GetAllGceInstances_instances_eligible _ _ _ _ _ _ Hi r Hacc)
        as [H|(a & ct & Hin & H)]; [left; exact H|].
      right. exists a, ct. split; [apply in_or_app; left; exact Hin | exact H].
    + right. exists a, ct. split; [apply in_or_app; right; exact Hin | exact H].
Qed.

(** The list of excluded regions has no influence on the result. *)
Lemma GetAllGceInstances_ignores_exclusions {G : GcpApi} ctx excluded t :
  GetAllGceInstances ctx excluded t = GetAllGceInstances ctx [] t.
Proof.
  unfold GetAllGceInstances.
  destruct (AggregatedList_Do (Project ctx)) as [e|items]; [reflexivity|].
  assert (Hinst : forall apis acc,
             GetAllGceInstances_instances ctx excluded t apis acc
             = GetAllGceInstances_instances ctx [] t apis acc).
  { induction apis as [|api apis IH]; intros acc;
      cbn [GetAllGceInstances_instances]; [reflexivity|].
    destruct (DeletionProtection api); [apply IH|].
    destruct (zoneFromUrl (Zone api)) as [e|zone]; [reflexivity|].
    destruct (regionFromZone ctx zone) as [e|region]; [reflexivity|].
    destruct (excludedRegions_loop region excluded).
    cbn [excludedRegions_loop].
    destruct (time_Parse_RFC3339 (CreationTimestamp api)) as [e|ct];
      [reflexivity|].
    destruct (ct >? t); apply IH. }
  generalize (@nil GceInstanceResource).
  induction items as [|[key item] items IH]; intros acc;
    cbn [GetAllGceInstances_items]; [reflexivity|].
  rewrite Hinst.
  destruct (GetAllGceInstances_instances ctx [] t (Instances item) acc);
    [reflexivity | apply IH].
Qed.

(** C3 on the code.  The instance vm-1 lies in the zone us-central1-a of
    the region us-central1, which is excluded; it has no deletion
    protection and was created before the cut-off (2019-06-01).  The loop
    over the excluded regions skips nothing, and vm-1 is part of the
    result. *)
Theorem GetAllGceInstances_keeps_excluded_region :
  regionFromZone samples.project "us-central1-a" = inr "us-central1"%string
  /\ ListContainsElement ["us-central1"]%string "us-central1" = true
  /\ GetAllGceInstances (G := samples.compute) samples.project
       ["us-central1"]%string 1559347200000000000
     = inr [ mkGceInstance "vm-1" "us-central1-a" "us-central1";
             mkGceInstance "vm-2" "europe-west1-b" "europe-west1" ].
Proof. repeat split; vm_compute; reflexivity. Qed.

(** ** [awsNuke]: validation of the resource types *)

Lemma invalidResourceTypes_filter (resourceTypes allResourceTypes : list string) :
  forall invalid,
    invalidResourceTypes resourceTypes allResourceTypes invalid
    = invalid ++ List.filter (rejected allResourceTypes) resourceTypes.
Proof.
  induction resourceTypes as [|name rest IH]; intros invalid;
    cbn [invalidResourceTypes List.filter].
  - rewrite app_nil_r. reflexivity.
  - unfold rejected at 1.
    destruct (String.eqb name "all"); cbn [negb andb]; [apply IH|].
    destruct (IsValidResourceType name allResourceTypes); cbn [negb].
    + apply IH.
    + rewrite IH, <- app_assoc. reflexivity.
Qed.

Lemma rejected_spec (allResourceTypes : list string) (name : string) :
  rejected allResourceTypes name = true
  <-> name <> "all"%string /\ ~ In name allResourceTypes.
Proof.
  unfold rejected, IsValidResourceType.
  rewrite andb_true_iff, !negb_true_iff, String.eqb_neq.
  rewrite <- ListContainsElement_In.
  destruct (ListContainsElement allResourceTypes name); intuition congruence.
Qed.




(* ===================================================================== *)
(** * Further properties *)
(* ===================================================================== *)

Import deletion listing aws_random commands_more.

(** ** [split]: the shape of the batches *)

Lemma concat_full_length (cs : list (list string)) (n : Z) :
  Forall (fun b => len b = n) cs -> len (concat cs) = n * len cs.
Proof.
  unfold len. induction 1 as [|b cs Hb _ IH]; cbn [concat length]; [lia|].
  rewrite length_app. unfold len in Hb. lia.
Qed.

Lemma split_chunks_shape (identifiers : list string) (limit : Z) :
  0 < limit ->
  len identifiers < max_int ->
  exists full rest,
    split_chunks identifiers limit = Returned (full ++ rest)
    /\ concat full ++ concat rest = identifiers
    /\ Forall (fun b => len b = limit) full
    /\ (rest = [] \/ exists b, rest = [b] /\ 0 < len b < limit).
Proof.
  intros Hpos Hlen. unfold split_chunks.
  assert (Hq : 0 <= Z.quot (len identifiers) limit <= len identifiers).
  { split.
    - apply Z.quot_pos; unfold len; lia.
    - apply Z.quot_le_upper_bound; unfold len; nia. }
  unfold int_add, int_quot.
  rewrite (int_wrap_id (Z.quot _ _)) by (unfold min_int, max_int in *; lia).
  rewrite int_wrap_id by (unfold min_int, max_int in *; lia).
  destruct (Z.ltb_spec (Z.quot (len identifiers) limit + 1) 0) as [?|_]; [lia|].
  destruct (split_loop_spec (S (length identifiers)) identifiers limit [] Hpos)
    as (cs & rest & Heq & Hcat & Hall & Hrest); [lia|].
  rewrite Heq. cbn [app].
  destruct (Z.gtb_spec (len rest) 0) as [Hgt|Hle].
  - exists cs, [rest]. rewrite firstn_all. split; [reflexivity|].
    cbn [concat]. rewrite app_nil_r. split; [exact Hcat|].
    split; [exact Hall|]. right. exists rest. split; [reflexivity | lia].
  - assert (rest = []) as ->.
    { destruct rest; [reflexivity|]. unfold len in Hle. simpl in Hle. lia. }
    exists cs, []. rewrite app_nil_r. split; [reflexivity|].
    split; [exact Hcat|]. split; [exact Hall | left; reflexivity].
Qed.

(** X1.  For a positive batch size [n], every batch of [split ids n] but
    the last holds exactly [n] identifiers and the last holds between 1
    and [n]: no batch is empty, and there are [ceil(len(ids) / n)]
    batches. *)
Theorem split_batches_shape (ids : list string) (n : Z) :
  0 < n ->
  len ids < max_int ->
  exists full rest,
    split ids n = Returned (full ++ rest)
    /\ Forall (fun b => len b = n) full
    /\ (rest = [] \/ exists b, rest = [b] /\ 0 < len b < n)
    /\ len (full ++ rest) = (len ids + n - 1) / n.
Proof.
  intros Hpos Hlen. unfold split.
  destruct (Z.ltb_spec n 0) as [?|_]; [lia|].
  destruct (Z.eqb_spec n 0) as [?|_]; [lia|].
  destruct (split_chunks_shape ids n Hpos Hlen)
    as (full & rest & Heq & Hcat & Hall & Hrest).
  exists full, rest. split; [exact Heq|]. split; [exact Hall|].
  split; [exact Hrest|].
  pose proof (concat_full_length full n Hall) as Hfull.
  assert (Hids : len ids = n * len full + len (concat rest)).
  { rewrite <- Hcat. unfold len in *. rewrite length_app. lia. }
  unfold len in *. rewrite length_app.
  destruct Hrest as [->|(b & -> & Hb)].
  - cbn [concat length] in *.
    apply (Z.div_unique _ _ _ (n - 1)); lia.
  - cbn [concat length] in *. rewrite app_nil_r in Hids.
    apply (Z.div_unique _ _ _ (Z.of_nat (length b) - 1)); lia.
Qed.

Lemma split_batches_shape_witness :
  (0 < 2 /\ len ["a"; "b"; "c"]%string < max_int)
  /\ exists full rest,
       split ["a"; "b"; "c"]%string 2 = Returned (full ++ rest)
       /\ Forall (fun b => len b = 2) full
       /\ (rest = [] \/ exists b, rest = [b] /\ 0 < len b < 2)
       /\ len (full ++ rest) = (len ["a"; "b"; "c"]%string + 2 - 1) / 2.
Proof.
  split; [split; [lia | reflexivity]|].
  apply (split_batches_shape ["a"; "b"; "c"]%string 2); [lia | reflexivity].
Defined.

(** X2.  An empty identifier list gives no batch at all for every batch
    size other than 0 (negative sizes, the smallest [int] apart,
    included), while the size 0 gives one empty batch. *)
Theorem split_empty (limit : Z) :
  min_int < limit ->
  limit <> 0 ->
  split [] limit = Returned [] /\ split [] 0 = Returned [[]].
Proof.
  intros Hmin Hnz. split; [|reflexivity].
  assert (Hpos : forall m, 0 < m -> split_chunks [] m = Returned []).
  { intros m Hm. unfold split_chunks, int_add, int_quot.
    change (len (@nil string)) with 0. rewrite Z.quot_0_l by lia.
    change (int_wrap (int_wrap 0 + 1)) with 1. cbn [Z.ltb Z.compare].
    cbn [split_loop length]. change (len (@nil string)) with 0.
    destruct (Z.geb_spec 0 m) as [?|_]; [lia|]. reflexivity. }
  unfold split. destruct (Z.ltb_spec limit 0) as [Hneg|Hge].
  - rewrite int_mul_negate by lia. apply Hpos. lia.
  - destruct (Z.eqb_spec limit 0) as [?|_]; [contradiction|]. apply Hpos. lia.
Qed.

Lemma split_empty_witness :
  (min_int < -3 /\ -3 <> 0)
  /\ split [] (-3) = Returned [] /\ split [] 0 = Returned [[]].
Proof.
  assert (H1 : min_int < -3) by reflexivity.
  assert (H2 : -3 <> 0) by discriminate.
  split; [split; assumption|]. exact (split_empty (-3) H1 H2).
Defined.

(** X3.  With the smallest [int] as batch size the negation overflows and
    leaves the limit negative: the first slice expression of the loop
    panics, whatever the identifiers. *)
Theorem split_min_int_panics (ids : list string) :
  len ids < max_int ->
  split ids min_int = Panicked "slice bounds out of range".
Proof.
  intros Hlen. unfold split.
  change (min_int <? 0) with true. cbn match.
  change (int_mul (-1) min_int) with min_int.
  unfold split_chunks.
  assert (Hq : Z.quot (len ids) min_int = 0).
  { change min_int with (- 2 ^ 63). rewrite Z.quot_opp_r by lia.
    rewrite Z.quot_small; [reflexivity|].
    unfold len, max_int in *. lia. }
  unfold int_quot. rewrite Hq.
  change (int_add (int_wrap 0) 1) with 1. cbn [Z.ltb Z.compare].
  cbn [split_loop].
  destruct (Z.geb_spec (len ids) min_int) as [_|Hlt];
    [|unfold len, min_int in Hlt; lia].
  reflexivity.
Qed.

Lemma split_min_int_panics_witness :
  len ["a"; "b"]%string < max_int
  /\ split ["a"; "b"]%string min_int = Panicked "slice bounds out of range".
Proof.
  assert (H : len ["a"; "b"]%string < max_int) by reflexivity.
  split; [exact H | exact (split_min_int_panics _ H)].
Defined.

(** ** The registry of resource types *)

Lemma sort_insert_In (s x : string) (l : list string) :
  In x (sort_insert s l) <-> x = s \/ In x l.
Proof.
  induction l as [|t l IH]; cbn [sort_insert In].
  - intuition congruence.
  - destruct (String.leb s t); cbn [In]; [intuition congruence|].
    rewrite IH. intuition congruence.
Qed.

Lemma sort_Strings_In (x : string) (l : list string) :
  In x (sort_Strings l) <-> In x l.
Proof.
  unfold sort_Strings. induction l as [|s l IH]; cbn [fold_right In];
    [tauto|].
  rewrite sort_insert_In, IH. intuition congruence.
Qed.

(** X4.  The names [IsValidResourceType] accepts against
    [ListResourceTypes()] are exactly the [ResourceName]s of the eleven
    resource types: sorting the list loses and adds no name. *)
Theorem registry_names {P : Plugins} (name : string) :
  IsValidResourceType name ListResourceTypes = true
  <-> exists k, name = ResourceName (zero k).
Proof.
  unfold IsValidResourceType, ListResourceTypes.
  rewrite ListContainsElement_In, sort_Strings_In. cbn [In]. split.
  - intros H.
    repeat (destruct H as [H|H];
            [first [ exists KASGroups; symmetry; exact H
                   | exists KLaunchConfigs; symmetry; exact H
                   | exists KLoadBalancers; symmetry; exact H
                   | exists KLoadBalancersV2; symmetry; exact H
                   | exists KEC2Instances; symmetry; exact H
                   | exists KEBSVolumes; symmetry; exact H
                   | exists KEIPAddresses; symmetry; exact H
                   | exists KAMIs; symmetry; exact H
                   | exists KSnapshots; symmetry; exact H
                   | exists KECSServices; symmetry; exact H
                   | exists KEKSClusters; symmetry; exact H ]|]).
    destruct H.
  - intros [k ->]. destruct k; cbn [zero]; tauto.
Qed.

(** ** [GetAllResources]: what the inventory holds and how it fails *)

(** X5.  Every key of the inventory a successful build returns is a region
    of [regions] that is not excluded, and its entry holds at least one
    resource type: the values collected for the region, in the order of
    the source. *)
Theorem GetAllResources_keys {P : Plugins} {A : AwsApi}
    (regions excluded : list string) (t : Time) (rts : list string)
    (account : AwsAccountResources) (region : string)
    (resourcesInRegion : AwsRegionResource) :
  GetAllResources regions excluded t rts = (Some account, None) ->
  AccountResources account !! region = Some resourcesInRegion ->
  In region regions
  /\ ListContainsElement excluded region = false
  /\ Resources resourcesInRegion <> []
  /\ Resources resourcesInRegion
     = flat_map (entry_of (mkSession region) region t rts) kinds.
Proof.
  intros Hrun Hlook. unfold GetAllResources in Hrun.
  destruct (GetAllResources_loop_lookup _ _ _ _ _ _ Hrun region) as [Ha Hb].
  cbv zeta in Ha, Hb.
  set (entry := flat_map (entry_of (mkSession region) region t rts) kinds) in *.
  destruct (in_dec String.string_dec region regions) as [Hin|Hnin];
    [|rewrite Hb, lookup_empty in Hlook by tauto; discriminate Hlook].
  destruct (ListContainsElement excluded region) eqn:Hex;
    [rewrite Hb, lookup_empty in Hlook by (intros (_ & H & _); discriminate H);
     discriminate Hlook|].
  destruct entry as [|x entry'] eqn:He;
    [rewrite Hb, lookup_empty in Hlook by (intros (_ & _ & H); congruence);
     discriminate Hlook|].
  destruct (Ha Hin eq_refl) as [_ Hsome].
  rewrite Hsome in Hlook by discriminate. injection Hlook as <-.
  cbn [Resources]. repeat split; auto; discriminate.
Qed.

Lemma GetAllResources_keys_witness :
  Resources
    (mkRegionResource
       [ ASGroups []; LaunchConfigs []; LoadBalancers [];
         LoadBalancersV2 []; EC2Instances []; EBSVolumes [];
         EIPAddresses []; AMIs []; Snapshots [];
         ECSServices [] ∅; EKSClusters [] ]) <> []
  /\ In "us-east-1"%string ["us-east-1"]%string.
Proof.
  pose proof (GetAllResources_keys (P := samples.plugins 2)
                (A := samples.emptyAccount) ["us-east-1"]%string [] 0 []
                (mkAccountResources
                   (<["us-east-1"%string :=
                       mkRegionResource
                         [ ASGroups []; LaunchConfigs []; LoadBalancers [];
                           LoadBalancersV2 []; EC2Instances []; EBSVolumes [];
                           EIPAddresses []; AMIs []; Snapshots [];
                           ECSServices [] ∅; EKSClusters [] ]]> ∅))
                "us-east-1"%string _ eq_refl (lookup_insert_eq _ _ _))
    as (Hin & _ & Hne & _).
  split; [exact Hne | exact Hin].
Defined.

Lemma WithStackTrace_withStack (err : error) :
  exists err', WithStackTrace err = withStack err'.
Proof. destruct err; eexists; reflexivity. Qed.

Lemma collect_kinds_error {P : Plugins} {A : AwsApi} ks s region t rts :
  forall rs e,
    collect_kinds ks s region t rts rs = inl e -> exists err, e = withStack err.
Proof.
  induction ks as [|k ks IH]; intros rs e Hrun; cbn [collect_kinds] in Hrun;
    [discriminate Hrun|].
  destruct (collect k s region t rts rs) as [e0|rs0] eqn:Hc;
    [|exact (IH _ _ Hrun)].
  injection Hrun as <-. unfold collect, stackTraced in Hc.
  destruct (enabled k region rts); [|discriminate Hc].
  destruct (listed k s region t) as [err|r]; [|discriminate Hc].
  injection Hc as <-. destruct (WithStackTrace_withStack err) as [err' ->].
  exists err'. reflexivity.
Qed.

(** X6.  [GetAllResources] returns either an inventory and a nil error, or
    a nil inventory and an error that carries a stack trace: never both,
    never neither. *)
Theorem GetAllResources_result_shape {P : Plugins} {A : AwsApi}
    (regions excluded : list string) (t : Time) (rts : list string) :
  (exists account,
      GetAllResources regions excluded t rts = (Some account, None))
  \/ (exists err,
        GetAllResources regions excluded t rts = (None, Some (withStack err))).
Proof.
  unfold GetAllResources. generalize (∅ : gmap string AwsRegionResource).
  induction regions as [|region regions IH]; intros m;
    cbn [GetAllResources_loop].
  - left. eexists. reflexivity.
  - destruct (ListContainsElement excluded region); [apply IH|].
    destruct (session_NewSession region) as [err|session].
    + right. destruct (WithStackTrace_withStack err) as [err' ->].
      exists err'. reflexivity.
    + destruct (collectRegion session region t rts) as [e|rir] eqn:Hc;
        [|apply IH].
      right. rewrite collectRegion_kinds in Hc.
      destruct (collect_kinds kinds session region t rts []) as [e0|rs] eqn:Hk;
        [|discriminate Hc].
      injection Hc as <-.
      destruct (collect_kinds_error _ _ _ _ _ _ _ Hk) as [err ->].
      exists err. reflexivity.
Qed.

(** X7.  If no session can be created for a region of [regions] that is
    not excluded, [GetAllResources] returns an error and a nil
    inventory. *)
Theorem GetAllResources_session_failure {P : Plugins} {A : AwsApi}
    (regions excluded : list string) (t : Time) (rts : list string)
    (region : string) (err : error) :
  In region regions ->
  ListContainsElement excluded region = false ->
  NewSession_error region = Some err ->
  exists e, GetAllResources regions excluded t rts = (None, Some e).
Proof.
  intros Hin Hex Hs. unfold GetAllResources.
  generalize (∅ : gmap string AwsRegionResource).
  induction regions as [|r0 regions IH]; [destruct Hin|]. intros m.
  cbn [GetAllResources_loop].
  destruct (ListContainsElement excluded r0) eqn:Hex0.
  - destruct Hin as [->|Hin]; [congruence | exact (IH Hin m)].
  - destruct (session_NewSession r0) as [e|session] eqn:Hs0;
      [eexists; reflexivity|].
    destruct (collectRegion session r0 t rts) as [e|rir];
      [eexists; reflexivity|].
    destruct Hin as [->|Hin]; [|exact (IH Hin _)].
    unfold session_NewSession in Hs0. rewrite Hs in Hs0. discriminate Hs0.
Qed.

(** X8.  When every region of [regions] is excluded (the empty list of
    regions included), [GetAllResources] returns the empty inventory
    without an error, whatever the provider: also when no session could be
    created and every list call would fail. *)
Theorem GetAllResources_all_excluded {P : Plugins} {A : AwsApi}
    (regions excluded : list string) (t : Time) (rts : list string) :
  (forall region, In region regions ->
     ListContainsElement excluded region = true) ->
  GetAllResources regions excluded t rts = (Some (mkAccountResources ∅), None).
Proof.
  intros Hall. unfold GetAllResources.
  induction regions as [|region regions IH]; cbn [GetAllResources_loop];
    [reflexivity|].
  rewrite (Hall region) by (left; reflexivity).
  apply IH. intros r Hr. apply Hall. right. exact Hr.
Qed.

(** ** [NukeAllResources]: the calls it makes *)

Lemma nukeBatches_events {A : AwsApi} session resources all batches :
  forall i n h,
    (forall b, In b batches -> In b all) ->
    exists seg,
      fst (nukeBatches session resources i n batches h) = h ++ seg
      /\ Forall (batch_event session resources all) seg.
Proof.
  induction batches as [|batch batches IH]; intros i n h Hall;
    cbn [nukeBatches].
  - exists []. rewrite app_nil_r. split; [reflexivity | constructor].
  - assert (Hcall : batch_event session resources all
                      (EvNuke session resources batch)).
    { cbn. repeat split. apply Hall. left. reflexivity. }
    assert (Hrest : forall b, In b batches -> In b all)
      by (intros b Hb; apply Hall; right; exact Hb).
    destruct (Nuke h resources session batch) as [err|].
    + destruct (strings_Contains (Error err) "RequestLimitExceeded").
      * destruct (IH (int_add i 1) n
                    ((h ++ [EvNuke session resources batch]) ++ [EvSleep 60])
                    Hrest) as (seg & -> & Hseg).
        exists (EvNuke session resources batch :: EvSleep 60 :: seg).
        rewrite <- !app_assoc. split; [reflexivity|].
        constructor; [exact Hcall|]. constructor; [left; reflexivity|].
        exact Hseg.
      * exists [EvNuke session resources batch]. split; [reflexivity|].
        constructor; [exact Hcall | constructor].
    + destruct (negb (i =? int_add n (-1))).
      * destruct (IH (int_add i 1) n
                    ((h ++ [EvNuke session resources batch]) ++ [EvSleep 10])
                    Hrest) as (seg & -> & Hseg).
        exists (EvNuke session resources batch :: EvSleep 10 :: seg).
        rewrite <- !app_assoc. split; [reflexivity|].
        constructor; [exact Hcall|]. constructor; [right; reflexivity|].
        exact Hseg.
      * destruct (IH (int_add i 1) n (h ++ [EvNuke session resources batch])
                    Hrest) as (seg & -> & Hseg).
        exists (EvNuke session resources batch :: seg).
        rewrite <- !app_assoc. split; [reflexivity|].
        constructor; [exact Hcall | exact Hseg].
Qed.

Lemma nukeRegion_events {P : Plugins} {A : AwsApi} account regions region
    resourcesInRegion :
  In region regions ->
  (forall r, In r resourcesInRegion -> In r (entry account region)) ->
  forall h,
    exists seg,
      fst (nukeRegion (mkSession region) resourcesInRegion h) = h ++ seg
      /\ Forall (from_inventory account regions) seg.
Proof.
  intros Hin. induction resourcesInRegion as [|resources rest IH];
    intros Hsub h; cbn [nukeRegion].
  - exists []. rewrite app_nil_r. split; [reflexivity | constructor].
  - destruct (split (ResourceIdentifiers resources) (MaxBatchSize resources))
      as [batches|msg|] eqn:Hsplit;
      [| exists []; rewrite app_nil_r; split; [reflexivity | constructor] ..].
    destruct (nukeBatches_events (mkSession region) resources batches batches
                0 (len batches) h (fun b Hb => Hb)) as (s1 & Hfst & Hev).
    assert (Hs1 : Forall (from_inventory account regions) s1).
    { eapply Forall_impl; [exact Hev|]. intros ev Hb.
      destruct ev; cbn in Hb |- *; try assumption.
      destruct Hb as (-> & -> & Hb). cbn [Config_Region].
      split; [exact Hin|]. split; [apply Hsub; left; reflexivity|].
      exists batches. split; [exact Hsplit | exact Hb]. }
    destruct (nukeBatches (mkSession region) resources 0 (len batches) batches h)
      as [h1 [e|]]; cbn [fst] in Hfst; subst h1.
    + exists s1. split; [reflexivity | exact Hs1].
    + destruct (IH (fun r Hr => Hsub r (or_intror Hr)) (h ++ s1))
        as (s2 & Hfst2 & Hs2).
      exists (s1 ++ s2). rewrite Hfst2, <- app_assoc.
      split; [reflexivity | apply Forall_app; split; assumption].
Qed.

Lemma NukeAllResources_events {P : Plugins} {A : AwsApi} account all regions :
  (forall region, In region regions -> In region all) ->
  forall h,
    exists seg,
      fst (NukeAllResources account regions h) = h ++ seg
      /\ Forall (from_inventory account all) seg.
Proof.
  induction regions as [|region regions IH]; intros Hsub h;
    cbn [NukeAllResources].
  - exists []. rewrite app_nil_r. split; [reflexivity | constructor].
  - unfold session_NewSession. destruct (NewSession_error region).
    + exists []. rewrite app_nil_r. split; [reflexivity | constructor].
    + destruct (nukeRegion_events account all region (entry account region)
                  (Hsub region (or_introl eq_refl)) (fun r Hr => Hr) h)
        as (s1 & Hfst & Hs1).
      fold (entry account region).
      destruct (nukeRegion (mkSession region) (entry account region) h)
        as [h1 result]; cbn [fst] in Hfst; subst h1.
      destruct result as [[e|]|msg|];
        try (exists s1; split; [reflexivity | exact Hs1]).
      destruct (IH (fun r Hr => Hsub r (or_intror Hr)) (h ++ s1))
        as (s2 & Hfst2 & Hs2).
      exists (s1 ++ s2). rewrite Hfst2, <- app_assoc.
      split; [reflexivity | apply Forall_app; split; assumption].
Qed.

(** X9.  Whatever the provider answers, [NukeAllResources] adds nothing to
    the history but pauses of 60 or 10 seconds and delete calls, and every
    delete call is made in a region of [regions] that is a key of the
    inventory, for a resource type of that region's entry and for one of
    the batches [split] makes of its identifiers. *)
Theorem NukeAllResources_calls_from_inventory {P : Plugins} {A : AwsApi}
    (account : AwsAccountResources) (regions : list string) (h : list event) :
  exists seg,
    fst (NukeAllResources account regions h) = h ++ seg
    /\ Forall (fun ev => is_delete ev = true \/ ev = EvSleep 60 \/ ev = EvSleep 10)
         seg
    /\ forall session resources batch,
         In (EvNuke session resources batch) seg ->
         In (Config_Region session) regions
         /\ (exists resourcesInRegion,
               AccountResources account !! Config_Region session
               = Some resourcesInRegion
               /\ In resources (Resources resourcesInRegion))
         /\ exists batches,
              split (ResourceIdentifiers resources) (MaxBatchSize resources)
              = Returned batches
              /\ In batch batches.
Proof.
  destruct (NukeAllResources_events account regions regions (fun r Hr => Hr) h)
    as (seg & Hfst & Hev).
  exists seg. split; [exact Hfst|]. split.
  - eapply Forall_impl; [exact Hev|]. intros ev Hf.
    destruct ev; cbn in Hf |- *; try contradiction; [left; reflexivity|].
    right. destruct Hf as [->| ->]; [left | right]; reflexivity.
  - intros session resources batch Hin.
    rewrite List.Forall_forall in Hev. specialize (Hev _ Hin).
    cbn in Hev. destruct Hev as (Hregion & Hres & Hbatches).
    split; [exact Hregion|]. split; [|exact Hbatches].
    unfold entry in Hres.
    destruct (AccountResources account !! Config_Region session) as [rir|];
      [exists rir; split; [reflexivity | exact Hres] | destruct Hres].
Qed.

Lemma split_total (ids : list string) (limit : Z) :
  min_int < limit ->
  len ids < max_int ->
  exists batches, split ids limit = Returned batches /\ concat batches = ids.
Proof.
  intros Hmin Hlen. unfold split.
  destruct (Z.ltb_spec limit 0) as [Hneg|Hge].
  - rewrite int_mul_negate by lia.
    destruct (split_chunks_spec ids (- limit)) as (bs & Heq & Hcat & _);
      [lia | exact Hlen |].
    exists bs. split; assumption.
  - destruct (Z.eqb_spec limit 0) as [_|Hnz].
    + exists [ids]. split; [reflexivity|]. cbn [concat]. apply app_nil_r.
    + destruct (split_chunks_spec ids limit) as (bs & Heq & Hcat & _);
        [lia | exact Hlen |].
      exists bs. split; assumption.
Qed.

(** X10.  Whatever the provider answers, a delete call of
    [NukeAllResources] for a resource type with a positive maximum batch
    size submits a batch that is not empty and is not larger than that
    size. *)
Theorem NukeAllResources_batch_bound {P : Plugins} {A : AwsApi}
    (account : AwsAccountResources) (regions : list string)
    (h h' : list event) (result : outcome (option error))
    (pre post : list event) (session : Session) (resources : AwsResources)
    (batch : list string) :
  NukeAllResources account regions h = (h', result) ->
  h' = h ++ pre ++ EvNuke session resources batch :: post ->
  0 < MaxBatchSize resources ->
  len (ResourceIdentifiers resources) < max_int ->
  0 < len batch <= MaxBatchSize resources.
Proof.
  intros Hrun Hh' Hpos Hlen.
  destruct (NukeAllResources_events account regions regions (fun r Hr => Hr) h)
    as (seg & Hfst & Hev).
  rewrite Hrun in Hfst. cbn [fst] in Hfst. rewrite Hh' in Hfst.
  apply app_inv_head in Hfst. subst seg.
  rewrite List.Forall_forall in Hev.
  specialize (Hev (EvNuke session resources batch)
                (in_elt _ _ _)).
  cbn in Hev. destruct Hev as (_ & _ & batches & Hsplit & Hin).
  unfold split in Hsplit.
  destruct (Z.ltb_spec (MaxBatchSize resources) 0) as [?|_]; [lia|].
  destruct (Z.eqb_spec (MaxBatchSize resources) 0) as [?|_]; [lia|].
  destruct (split_chunks_spec _ _ Hpos Hlen) as (bs & Heq & _ & Hall).
  rewrite Heq in Hsplit. injection Hsplit as <-.
  rewrite List.Forall_forall in Hall. exact (Hall _ Hin).
Qed.

Lemma NukeAllResources_batch_bound_witness :
  (0 < MaxBatchSize (Plugins := samples.plugins 2)
         (EC2Instances ["i-1"; "i-2"; "i-3"]%string)
   /\ len (ResourceIdentifiers (Plugins := samples.plugins 2)
             (EC2Instances ["i-1"; "i-2"; "i-3"]%string)) < max_int)
  /\ 0 < len ["i-3"]%string
       <= MaxBatchSize (Plugins := samples.plugins 2)
            (EC2Instances ["i-1"; "i-2"; "i-3"]%string).
Proof.
  split; [split; reflexivity|].
  apply (NukeAllResources_batch_bound
           (P := samples.plugins 2) (A := samples.rateLimitedOnce)
           samples.twoRegions ["us-east-1"]%string []
           [EvNuke (mkSession "us-east-1")
              (EC2Instances ["i-1"; "i-2"; "i-3"]%string) ["i-1"; "i-2"]%string;
            EvSleep 60;
            EvNuke (mkSession "us-east-1")
              (EC2Instances ["i-1"; "i-2"; "i-3"]%string) ["i-3"]%string;
            EvNuke (mkSession "us-east-1")
              (EBSVolumes ["vol-1"]%string) ["vol-1"]%string]
           (Returned None)
           [EvNuke (mkSession "us-east-1")
              (EC2Instances ["i-1"; "i-2"; "i-3"]%string) ["i-1"; "i-2"]%string;
            EvSleep 60]
           [EvNuke (mkSession "us-east-1")
              (EBSVolumes ["vol-1"]%string) ["vol-1"]%string]
           (mkSession "us-east-1")
           (EC2Instances ["i-1"; "i-2"; "i-3"]%string) ["i-3"]%string);
    reflexivity.
Defined.

Lemma submitted_app (s1 s2 : list event) :
  submitted (s1 ++ s2) = submitted s1 ++ submitted s2.
Proof. unfold submitted. apply flat_map_app. Qed.

Section Accepted.
Context {P : Plugins} {A : AwsApi}.
Hypothesis accepted : forall h r s b, Nuke h r s b = None.

Lemma nukeBatches_accepted session resources batches :
  forall i n h,
    exists seg,
      nukeBatches session resources i n batches h = (h ++ seg, None)
      /\ submitted seg = concat batches.
Proof.
  induction batches as [|batch batches IH]; intros i n h; cbn [nukeBatches].
  - exists []. rewrite app_nil_r. split; reflexivity.
  - rewrite accepted.
    destruct (negb (i =? int_add n (-1))).
    + destruct (IH (int_add i 1) n
                  ((h ++ [EvNuke session resources batch]) ++ [EvSleep 10]))
        as (seg & -> & Hsub).
      exists (EvNuke session resources batch :: EvSleep 10 :: seg).
      rewrite <- !app_assoc. split; [reflexivity|].
      cbn [concat]. rewrite <- Hsub. reflexivity.
    + destruct (IH (int_add i 1) n (h ++ [EvNuke session resources batch]))
        as (seg & -> & Hsub).
      exists (EvNuke session resources batch :: seg).
      rewrite <- !app_assoc. split; [reflexivity|].
      cbn [concat]. rewrite <- Hsub. reflexivity.
Qed.

Lemma nukeRegion_accepted session resourcesInRegion :
  (forall r, In r resourcesInRegion ->
     min_int < MaxBatchSize r /\ len (ResourceIdentifiers r) < max_int) ->
  forall h,
    exists seg,
      nukeRegion session resourcesInRegion h = (h ++ seg, Returned None)
      /\ submitted seg = flat_map ResourceIdentifiers resourcesInRegion.
Proof.
  induction resourcesInRegion as [|resources rest IH]; intros Hsize h;
    cbn [nukeRegion].
  - exists []. rewrite app_nil_r. split; reflexivity.
  - destruct (Hsize resources (or_introl eq_refl)) as [Hmin Hlen].
    destruct (split_total _ _ Hmin Hlen) as (batches & -> & Hcat).
    destruct (nukeBatches_accepted session resources batches 0 (len batches) h)
      as (s1 & -> & Hs1).
    destruct (IH (fun r Hr => Hsize r (or_intror Hr)) (h ++ s1))
      as (s2 & -> & Hs2).
    exists (s1 ++ s2). rewrite <- app_assoc. split; [reflexivity|].
    rewrite submitted_app, Hs1, Hs2, Hcat. reflexivity.
Qed.

End Accepted.

(** X11.  When the provider accepts every delete call, sessions can be
    created for the regions, and no resource type of their entries
    declares the smallest [int] as batch size, [NukeAllResources] returns
    nil and its delete calls submit every identifier the inventory holds
    for [regions] exactly once, in the order of the regions, of the
    resource types and of the identifiers. *)
Theorem NukeAllResources_submits_inventory {P : Plugins} {A : AwsApi}
    (account : AwsAccountResources) (regions : list string) (h : list event) :
  (forall h r s b, Nuke h r s b = None) ->
  (forall region, In region regions -> NewSession_error region = None) ->
  (forall region r,
     In region regions -> In r (entry account region) ->
     min_int < MaxBatchSize r /\ len (ResourceIdentifiers r) < max_int) ->
  exists seg,
    NukeAllResources account regions h = (h ++ seg, Returned None)
    /\ submitted seg = inventory_identifiers account regions.
Proof.
  intros Hacc Hsess Hsize. revert h.
  induction regions as [|region regions IH]; intros h;
    cbn [NukeAllResources].
  - exists []. rewrite app_nil_r. split; reflexivity.
  - unfold session_NewSession.
    rewrite (Hsess region (or_introl eq_refl)).
    fold (entry account region).
    destruct (nukeRegion_accepted Hacc (mkSession region) (entry account region)
                (fun r Hr => Hsize region r (or_introl eq_refl) Hr) h)
      as (s1 & -> & Hs1).
    destruct (IH (fun r Hr => Hsess r (or_intror Hr))
                 (fun r x Hr Hx => Hsize r x (or_intror Hr) Hx) (h ++ s1))
      as (s2 & -> & Hs2).
    exists (s1 ++ s2). rewrite <- app_assoc. split; [reflexivity|].
    rewrite submitted_app, Hs1, Hs2. reflexivity.
Qed.

Lemma NukeAllResources_submits_inventory_witness :
  (forall h r s b, Nuke (AwsApi := samples.emptyAccount) h r s b = None)
  /\ exists seg,
       NukeAllResources (P := samples.plugins 2) (A := samples.emptyAccount)
         samples.twoRegions ["us-east-1"; "us-west-2"]%string []
       = ([] ++ seg, Returned None)
       /\ submitted seg
          = inventory_identifiers (P := samples.plugins 2) samples.twoRegions
              ["us-east-1"; "us-west-2"]%string.
Proof.
  split; [reflexivity|].
  apply (NukeAllResources_submits_inventory
           (P := samples.plugins 2) (A := samples.emptyAccount)).
  - reflexivity.
  - reflexivity.
  - intros region r [<-|[<-|[]]] Hr; vm_compute in Hr;
      repeat (destruct Hr as [<-|Hr]; [split; reflexivity|]); destruct Hr.
Defined.

(** X12.  An error [NukeAllResources] returns is either the error of the
    creation of a session for one of the regions, or the answer to the
    last delete call of the run, which is not the rate-limit signal; both
    carry a stack trace.  A rate-limit answer is never returned. *)
Theorem NukeAllResources_error_origin {P : Plugins} {A : AwsApi}
    (account : AwsAccountResources) (regions : list string)
    (h h' : list event) (e : error) :
  NukeAllResources account regions h = (h', Returned (Some e)) ->
  (exists region err,
      In region regions
      /\ NewSession_error region = Some err
      /\ e = WithStackTrace err)
  \/ (exists pre session resources batch err,
        h' = h ++ pre ++ [EvNuke session resources batch]
        /\ Nuke (h ++ pre) resources session batch = Some err
        /\ strings_Contains (Error err) "RequestLimitExceeded" = false
        /\ e = WithStackTrace err).
Proof.
  intros Hrun.
  destruct (NukeAllResources_segment account regions h) as (seg & Hfst & Hsnd).
  rewrite Hrun in Hfst, Hsnd. cbn [fst snd] in Hfst, Hsnd. subst h'.
  destruct Hsnd as [(seg' & ev & err & -> & _ & Hans & ->)|(_ & Hsess)];
    [right | left; exact Hsess].
  destruct ev as [| session resources batch | | | |]; try discriminate Hans.
  cbn [terminal_answer] in Hans.
  destruct (Nuke (h ++ seg') resources session batch) as [err0|] eqn:Hn;
    [|discriminate Hans].
  destruct (strings_Contains (Error err0) "RequestLimitExceeded") eqn:Hrl;
    [discriminate Hans|].
  injection Hans as ->.
  exists seg', session, resources, batch, err.
  repeat split; auto.
Qed.

Lemma NukeAllResources_error_origin_witness :
  exists pre session resources batch err,
    [EvNuke (mkSession "us-east-1")
       (EC2Instances ["i-1"; "i-2"; "i-3"]%string) ["i-1"; "i-2"]%string]
    = [] ++ pre ++ [EvNuke session resources batch]
    /\ Nuke (AwsApi := samples.terminalOnFirstBatch) ([] ++ pre) resources
         session batch = Some err
    /\ strings_Contains (Error err) "RequestLimitExceeded" = false.
Proof.
  destruct (NukeAllResources_error_origin
              (P := samples.plugins 2) (A := samples.terminalOnFirstBatch)
              samples.twoRegions ["us-east-1"; "us-west-2"]%string []
              [EvNuke (mkSession "us-east-1")
                 (EC2Instances ["i-1"; "i-2"; "i-3"]%string)
                 ["i-1"; "i-2"]%string]
              (withStack
                 (errorString "OperationNotPermitted: termination protection"))
              eq_refl)
    as [(region & err & _ & Hs & _)|(pre & s & r & b & err & H1 & H2 & H3 & _)].
  - discriminate Hs.
  - exists pre, s, r, b, err. repeat split; assumption.
Defined.

(** X13.  When no resource type in the entries of [regions] declares the
    smallest [int] as batch size, [NukeAllResources] returns (an error or
    nil): it does not panic and its loops end, whatever the provider
    answers. *)
Theorem NukeAllResources_returns {P : Plugins} {A : AwsApi}
    (account : AwsAccountResources) (regions : list string) (h : list event) :
  (forall region r,
     In region regions -> In r (entry account region) ->
     min_int < MaxBatchSize r /\ len (ResourceIdentifiers r) < max_int) ->
  exists result, snd (NukeAllResources account regions h) = Returned result.
Proof.
  intros Hsize. revert h.
  assert (Hregion : forall session rs,
             (forall r, In r rs ->
                min_int < MaxBatchSize r
                /\ len (ResourceIdentifiers r) < max_int) ->
             forall h, exists result,
               snd (nukeRegion session rs h) = Returned result).
  { intros session rs. induction rs as [|resources rest IH]; intros Hrs h;
      cbn [nukeRegion]; [eexists; reflexivity|].
    destruct (Hrs resources (or_introl eq_refl)) as [Hmin Hlen].
    destruct (split_total _ _ Hmin Hlen) as (batches & -> & _).
    destruct (nukeBatches session resources 0 (len batches) batches h)
      as [h1 [e|]]; [eexists; reflexivity|].
    apply IH. intros r Hr. apply Hrs. right. exact Hr. }
  induction regions as [|region regions IH]; intros h;
    cbn [NukeAllResources]; [eexists; reflexivity|].
  destruct (session_NewSession region) as [err|session];
    [eexists; reflexivity|].
  fold (entry account region).
  destruct (Hregion session (entry account region)
              (fun r Hr => Hsize region r (or_introl eq_refl) Hr) h)
    as [result Hres].
  destruct (nukeRegion session (entry account region) h) as [h1 res].
  cbn [snd] in Hres. subst res.
  destruct result as [e|]; [eexists; reflexivity|].
  apply IH. intros r x Hr Hx. apply (Hsize r x); [right; exact Hr | exact Hx].
Qed.

Lemma NukeAllResources_returns_witness :
  exists result,
    snd (NukeAllResources (P := samples.plugins 2)
           (A := samples.terminalOnFirstBatch)
           samples.twoRegions ["us-east-1"; "us-west-2"]%string [])
    = Returned result.
Proof.
  apply (NukeAllResources_returns
           (P := samples.plugins 2) (A := samples.terminalOnFirstBatch)).
  intros region r [<-|[<-|[]]] Hr; vm_compute in Hr;
    repeat (destruct Hr as [<-|Hr]; [split; reflexivity|]); destruct Hr.
Defined.

Lemma GetAllResources_session_failure_witness :
  (In "us-west-2"%string ["us-east-1"; "us-west-2"]%string
   /\ ListContainsElement [] "us-west-2" = false)
  /\ exists e,
       GetAllResources (P := samples.plugins 2)
         (A := more_samples.without_sessions samples.emptyAccount
                 ["us-west-2"]%string)
         ["us-east-1"; "us-west-2"]%string [] 0 [] = (None, Some e).
Proof.
  assert (Hin : In "us-west-2"%string ["us-east-1"; "us-west-2"]%string)
    by (right; left; reflexivity).
  split; [split; [exact Hin | reflexivity]|].
  apply (GetAllResources_session_failure (P := samples.plugins 2)
           (A := more_samples.without_sessions samples.emptyAccount
                   ["us-west-2"]%string)
           ["us-east-1"; "us-west-2"]%string [] 0 [] "us-west-2"
           (errorString "MissingRegion: could not find region configuration")
           Hin);
    reflexivity.
Defined.

Lemma GetAllResources_all_excluded_witness :
  GetAllResources (P := samples.plugins 2) (A := samples.failingList)
    ["us-west-2"]%string ["us-east-1"; "us-west-2"]%string 0 []
  = (Some (mkAccountResources ∅), None).
Proof.
  apply (GetAllResources_all_excluded (P := samples.plugins 2)
           (A := samples.failingList)).
  intros region [<-|[]]. reflexivity.
Defined.

(** ** [zoneFromUrl] and [regionFromZone] *)

Lemma Split_fields_no_slash (s : string) :
  ~ has_slash s -> Split_fields "/" 0 s = (s, []).
Proof.
  induction s as [|c s IH]; intros Hno; [reflexivity|].
  cbn [Split_fields String.prefix].
  destruct (Ascii.ascii_dec "/"%char c) as [Hc|Hc].
  - exfalso. apply Hno. left. symmetry. exact Hc.
  - rewrite IH; [reflexivity|]. intros H. apply Hno. right. exact H.
Qed.

Lemma Split_fields_after_slash (zone : string) :
  ~ has_slash zone ->
  forall p,
    let (field, fields) := Split_fields "/" 0 (p +:+ "/" +:+ zone) in
    fields <> [] /\ List.last (field :: fields) EmptyString = zone.
Proof.
  intros Hno. induction p as [|c p IH].
  - change (EmptyString +:+ "/" +:+ zone) with (String "/"%char zone).
    cbn [Split_fields String.prefix String.length Nat.sub].
    destruct (Ascii.ascii_dec "/"%char "/"%char) as [_|Hc]; [|congruence].
    replace (String.prefix EmptyString zone) with true
      by (destruct zone; reflexivity).
    rewrite (Split_fields_no_slash zone Hno).
    split; [discriminate | reflexivity].
  - change (String c p +:+ "/" +:+ zone)
      with (String c (p +:+ "/" +:+ zone)).
    cbn [Split_fields String.prefix String.length Nat.sub].
    destruct (Split_fields "/" 0 (p +:+ "/" +:+ zone)) as [field fields].
    destruct IH as [Hne Hlast].
    destruct (Ascii.ascii_dec "/"%char c) as [Hc|Hc].
    + replace (String.prefix EmptyString (p +:+ "/" +:+ zone)) with true
        by (destruct (p +:+ "/" +:+ zone); reflexivity).
      split; [discriminate | exact Hlast].
    + split; [exact Hne|].
      destruct fields as [|f2 fields]; [congruence | exact Hlast].
Qed.

(** X14.  [zoneFromUrl] reads back the zone of a zone url: for every
    prefix [p] and every [zone] without ['/'], the url [p/zone] yields
    [zone], and [zone] alone yields itself. *)
Theorem zoneFromUrl_round_trip (p zone : string) :
  ~ has_slash zone ->
  zoneFromUrl (p +:+ "/" +:+ zone) = inr zone /\ zoneFromUrl zone = inr zone.
Proof.
  intros Hno. unfold zoneFromUrl, strings_Split. split.
  - pose proof (Split_fields_after_slash zone Hno p) as H.
    destruct (Split_fields "/" 0 (p +:+ "/" +:+ zone)) as [field fields].
    destruct H as [_ Hlast].
    assert (Hlen : (len (field :: fields) =? 0) = false).
    { unfold len. cbn [length]. apply Z.eqb_neq. lia. }
    rewrite Hlen, nth_last by discriminate. rewrite Hlast. reflexivity.
  - rewrite (Split_fields_no_slash zone Hno). reflexivity.
Qed.

Lemma zoneFromUrl_round_trip_witness :
  zoneFromUrl ("https://www.googleapis.com/compute/v1/projects/p/zones"
               +:+ "/" +:+ "us-central1-a")
  = inr "us-central1-a"%string
  /\ zoneFromUrl "us-central1-a" = inr "us-central1-a"%string.
Proof.
  apply (zoneFromUrl_round_trip
           "https://www.googleapis.com/compute/v1/projects/p/zones"
           "us-central1-a").
  unfold has_slash. cbn. intuition discriminate.
Defined.

Lemma zoneFromUrl_returns (url : string) : exists zone, zoneFromUrl url = inr zone.
Proof.
  unfold zoneFromUrl, strings_Split.
  destruct (Split_fields "/" 0 url) as [field fields].
  assert (Hlen : (len (field :: fields) =? 0) = false).
  { unfold len. cbn [length]. apply Z.eqb_neq. lia. }
  rewrite Hlen. eexists. reflexivity.
Qed.

Lemma regionFromZone_zones_spec (name : string) (zones : list string)
    (zone : string) :
  (regionFromZone_zones name zones zone = inr (Some name)
   /\ exists url, In url zones /\ zoneFromUrl url = inr zone)
  \/ (regionFromZone_zones name zones zone = inr None
      /\ forall url, In url zones -> zoneFromUrl url <> inr zone).
Proof.
  induction zones as [|url zones IH]; cbn [regionFromZone_zones].
  - right. split; [reflexivity | intros url []].
  - destruct (zoneFromUrl_returns url) as [z Hz]. rewrite Hz.
    destruct (String.eqb_spec zone z) as [->|Hne].
    + left. split; [reflexivity|]. exists url. split; [left; reflexivity | exact Hz].
    + destruct IH as [[Heq (u & Hin & Hu)]|[Heq Hnone]].
      * left. split; [exact Heq|]. exists u. split; [right; exact Hin | exact Hu].
      * right. split; [exact Heq|]. intros u [<-|Hin]; [congruence | exact (Hnone u Hin)].
Qed.

Lemma regionFromZone_regions_spec (regions : list Region) (zone : string) :
  (exists before region after,
      regions = before ++ region :: after
      /\ regionFromZone_regions regions zone = inr (Region_Name region)
      /\ (exists url, In url (Zones region) /\ zoneFromUrl url = inr zone)
      /\ forall r url, In r before -> In url (Zones r) ->
           zoneFromUrl url <> inr zone)
  \/ (regionFromZone_regions regions zone
      = inl (errorString ("could not get region for zone: " +:+ zone))
      /\ forall r url, In r regions -> In url (Zones r) ->
           zoneFromUrl url <> inr zone).
Proof.
  induction regions as [|region regions IH]; cbn [regionFromZone_regions].
  - right. split; [reflexivity | intros r url []].
  - destruct (regionFromZone_zones_spec (Region_Name region) (Zones region) zone)
      as [[-> Hurl]|[-> Hnone]].
    + left. exists [], region, regions. split; [reflexivity|].
      split; [reflexivity|]. split; [exact Hurl | intros r url []].
    + destruct IH as [(before & r1 & after & -> & Heq & Hurl & Hbefore)
                     |[Heq Hall]].
      * left. exists (region :: before), r1, after.
        split; [reflexivity|]. split; [exact Heq|]. split; [exact Hurl|].
        intros r url [<-|Hr] Hu; [exact (Hnone url Hu) | exact (Hbefore r url Hr Hu)].
      * right. split; [exact Heq|].
        intros r url [<-|Hr] Hu; [exact (Hnone url Hu) | exact (Hall r url Hr Hu)].
Qed.

(** X15.  [regionFromZone] returns the name of the first region of the
    context one of whose zone urls ends in the zone; when no region has
    such a url it returns the error "could not get region for zone", and
    it returns no other error. *)
Theorem regionFromZone_first_match (ctx : GcpContext) (zone : string) :
  (forall name,
     regionFromZone ctx zone = inr name ->
     exists before region after,
       Regions ctx = before ++ region :: after
       /\ Region_Name region = name
       /\ (exists url, In url (Zones region) /\ zoneFromUrl url = inr zone)
       /\ forall r url, In r before -> In url (Zones r) ->
            zoneFromUrl url <> inr zone)
  /\ (forall err,
        regionFromZone ctx zone = inl err ->
        err = errorString ("could not get region for zone: " +:+ zone)
        /\ forall r url, In r (Regions ctx) -> In url (Zones r) ->
             zoneFromUrl url <> inr zone).
Proof.
  unfold regionFromZone.
  destruct (regionFromZone_regions_spec (Regions ctx) zone)
    as [(before & region & after & Hsplit & Heq & Hurl & Hbefore)|[Heq Hall]];
    rewrite Heq; split.
  - intros name [= <-]. exists before, region, after. repeat split; auto.
  - intros err H. discriminate H.
  - intros name H. discriminate H.
  - intros err [= <-]. split; [reflexivity | exact Hall].
Qed.

Lemma regionFromZone_first_match_witness :
  regionFromZone samples.project "europe-west1-b" = inr "europe-west1"%string
  /\ exists before region after,
       Regions samples.project = before ++ region :: after
       /\ Region_Name region = "europe-west1"%string
       /\ (exists url, In url (Zones region)
                       /\ zoneFromUrl url = inr "europe-west1-b"%string)
       /\ forall r url, In r before -> In url (Zones r) ->
            zoneFromUrl url <> inr "europe-west1-b"%string.
Proof.
  assert (H : regionFromZone samples.project "europe-west1-b"
              = inr "europe-west1"%string) by (vm_compute; reflexivity).
  split; [exact H|].
  exact (proj1 (regionFromZone_first_match samples.project "europe-west1-b")
           "europe-west1"%string H).
Defined.

(** ** [GetAllGceInstances]: what it returns and how it fails *)

(** X16.  Every instance [GetAllGceInstances] returns stands for a listed
    instance that has no deletion protection and whose creation time
    parses and is not after the cut-off; its zone is the last segment of
    the instance's zone url and its region the one [regionFromZone] gives
    for that zone. *)
Theorem GetAllGceInstances_sound {G : GcpApi} (ctx : GcpContext)
    (excluded : list string) (t : Z)
    (items : list (string * InstancesScopedList))
    (result : list GceInstanceResource) (r : GceInstanceResource) :
  AggregatedList_Do (Project ctx) = inr items ->
  GetAllGceInstances ctx excluded t = inr result ->
  In r result ->
  exists key item apiInstance creationTime,
    In (key, item) items
    /\ In apiInstance (Instances item)
    /\ InstanceName r = Name apiInstance
    /\ DeletionProtection apiInstance = false
    /\ time_Parse_RFC3339 (CreationTimestamp apiInstance) = inr creationTime
    /\ creationTime <= t
    /\ zoneFromUrl (Zone apiInstance) = inr (Instance_Zone r)
    /\ regionFromZone ctx (Instance_Zone r) = inr (RegionName r).
Proof.
  intros Hlist Hrun Hr.
  destruct (GetAllGceInstances_eligible ctx excluded t items result Hlist Hrun r Hr)
    as (api & ct & Hin & H).
  apply in_flat_map in Hin. destruct Hin as ([key item] & Hitem & Hapi).
  exists key, item, api, ct. split; [exact Hitem|]. split; [exact Hapi | exact H].
Qed.

Lemma GetAllGceInstances_sound_witness :
  exists key item apiInstance creationTime,
    In (key, item)
      [ ("zones/us-central1-a"%string,
         mkScopedList
           [ mkInstance "vm-1"
               "https://www.googleapis.com/compute/v1/projects/playground/zones/us-central1-a"
               false "2019-01-01T00:00:00Z" ]);
        ("zones/europe-west1-b"%string,
         mkScopedList
           [ mkInstance "vm-2"
               "https://www.googleapis.com/compute/v1/projects/playground/zones/europe-west1-b"
               false "2019-01-01T00:00:00Z" ]) ]
    /\ In apiInstance (Instances item)
    /\ "vm-2"%string = Name apiInstance
    /\ DeletionProtection apiInstance = false
    /\ time_Parse_RFC3339 (GcpApi := samples.compute)
         (CreationTimestamp apiInstance) = inr creationTime
    /\ creationTime <= 1559347200000000000.
Proof.
  destruct (GetAllGceInstances_sound (G := samples.compute) samples.project
              [] 1559347200000000000 _
              [ mkGceInstance "vm-1" "us-central1-a" "us-central1";
                mkGceInstance "vm-2" "europe-west1-b" "europe-west1" ]
              (mkGceInstance "vm-2" "europe-west1-b" "europe-west1")
              eq_refl eq_refl (or_intror (or_introl eq_refl)))
    as (key & item & api & ct & H1 & H2 & H3 & H4 & H5 & H6 & _).
  exists key, item, api, ct. repeat split; assumption.
Defined.

Section Complete.
Context {G : GcpApi} (ctx : GcpContext) (excluded : list string) (t : Z).


Lemma GetAllGceInstances_instances_complete apiInstances :
  forall instances result,
    GetAllGceInstances_instances ctx excluded t apiInstances instances
    = inr result ->
    (forall r, In r instances -> In r result)
    /\ forall apiInstance,
         In apiInstance apiInstances -> deletable t apiInstance ->
         exists r, In r result /\ stands_for ctx apiInstance r.
Proof.
  induction apiInstances as [|api rest IH]; intros instances result Hrun;
    cbn [GetAllGceInstances_instances] in Hrun.
  - injection Hrun as <-. split; [auto | intros a []].
  - destruct (DeletionProtection api) eqn:Hprot.
    + destruct (IH _ _ Hrun) as [Hmono Hall]. split; [exact Hmono|].
      intros a [<-|Hin] Hdel; [|exact (Hall a Hin Hdel)].
      destruct Hdel as [Hdel _]. congruence.
    + destruct (zoneFromUrl (Zone api)) as [e|zone] eqn:Hz; [discriminate Hrun|].
      destruct (regionFromZone ctx zone) as [e|region] eqn:Hreg;
        [discriminate Hrun|].
      destruct (excludedRegions_loop region excluded).
      destruct (time_Parse_RFC3339 (CreationTimestamp api)) as [e|ct] eqn:Hct;
        [discriminate Hrun|].
      destruct (Z.gtb_spec ct t) as [Hgt|Hle].
      * destruct (IH _ _ Hrun) as [Hmono Hall]. split; [exact Hmono|].
        intros a [<-|Hin] Hdel; [|exact (Hall a Hin Hdel)].
        destruct Hdel as [_ (ct' & Hct' & Hle)].
        rewrite Hct in Hct'. injection Hct' as <-. lia.
      * destruct (IH _ _ Hrun) as [Hmono Hall]. split.
        -- intros r Hr. apply Hmono, in_or_app. left. exact Hr.
        -- intros a [<-|Hin] Hdel; [|exact (Hall a Hin Hdel)].
           exists (mkGceInstance (Name api) zone region).
           split; [apply Hmono, in_or_app; right; left; reflexivity|].
           unfold stands_for. cbn [InstanceName Instance_Zone RegionName].
           repeat split; assumption.
Qed.

Lemma GetAllGceInstances_items_complete items :
  forall instances result,
    GetAllGceInstances_items ctx excluded t items instances = inr result ->
    (forall r, In r instances -> In r result)
    /\ forall key item apiInstance,
         In (key, item) items -> In apiInstance (Instances item) ->
         deletable t apiInstance ->
         exists r, In r result /\ stands_for ctx apiInstance r.
Proof.
  induction items as [|[key0 item0] items IH]; intros instances result Hrun;
    cbn [GetAllGceInstances_items] in Hrun.
  - injection Hrun as <-. split; [auto | intros key item a []].
  - destruct (GetAllGceInstances_instances ctx excluded t (Instances item0)
                instances) as [e|instances'] eqn:Hi; [discriminate Hrun|].
    destruct (GetAllGceInstances_instances_complete _ _ _ Hi) as [Hmono0 Hall0].
    destruct (IH _ _ Hrun) as [Hmono Hall]. split.
    + intros r Hr. apply Hmono, Hmono0, Hr.
    + intros key item a [Heq|Hin] Ha Hdel; [|exact (Hall key item a Hin Ha Hdel)].
      injection Heq as <- <-.
      destruct (Hall0 a Ha Hdel) as (r & Hr & Hst).
      exists r. split; [apply Hmono, Hr | exact Hst].
Qed.

End Complete.

(** X17.  When [GetAllGceInstances] succeeds, every listed instance that
    has no deletion protection and was created not after the cut-off is
    part of the result, with its name, the last segment of its zone url
    and the region of that zone, whatever the excluded regions are. *)
Theorem GetAllGceInstances_complete {G : GcpApi} (ctx : GcpContext)
    (excluded : list string) (t : Z)
    (items : list (string * InstancesScopedList))
    (result : list GceInstanceResource)
    (key : string) (item : InstancesScopedList) (apiInstance : Instance)
    (creationTime : Z) :
  AggregatedList_Do (Project ctx) = inr items ->
  GetAllGceInstances ctx excluded t = inr result ->
  In (key, item) items ->
  In apiInstance (Instances item) ->
  DeletionProtection apiInstance = false ->
  time_Parse_RFC3339 (CreationTimestamp apiInstance) = inr creationTime ->
  creationTime <= t ->
  exists r,
    In r result
    /\ InstanceName r = Name apiInstance
    /\ zoneFromUrl (Zone apiInstance) = inr (Instance_Zone r)
    /\ regionFromZone ctx (Instance_Zone r) = inr (RegionName r).
Proof.
  intros Hlist Hrun Hitem Hapi Hprot Hct Hle.
  unfold GetAllGceInstances in Hrun. rewrite Hlist in Hrun.
  destruct (GetAllGceInstances_items_complete ctx excluded t items [] result Hrun)
    as [_ Hall].
  apply (Hall key item apiInstance Hitem Hapi).
  split; [exact Hprot|]. exists creationTime. split; assumption.
Qed.

Lemma GetAllGceInstances_complete_witness :
  exists r,
    In r [ mkGceInstance "vm-1" "us-central1-a" "us-central1";
           mkGceInstance "vm-2" "europe-west1-b" "europe-west1" ]
    /\ InstanceName r = "vm-1"%string
    /\ zoneFromUrl
         "https://www.googleapis.com/compute/v1/projects/playground/zones/us-central1-a"
       = inr (Instance_Zone r)
    /\ regionFromZone samples.project (Instance_Zone r) = inr (RegionName r).
Proof.
  apply (GetAllGceInstances_complete (G := samples.compute) samples.project
           ["us-central1"]%string 1559347200000000000 _
           [ mkGceInstance "vm-1" "us-central1-a" "us-central1";
             mkGceInstance "vm-2" "europe-west1-b" "europe-west1" ]
           "zones/us-central1-a"
           (mkScopedList
              [ mkInstance "vm-1"
                  "https://www.googleapis.com/compute/v1/projects/playground/zones/us-central1-a"
                  false "2019-01-01T00:00:00Z" ])
           (mkInstance "vm-1"
              "https://www.googleapis.com/compute/v1/projects/playground/zones/us-central1-a"
              false "2019-01-01T00:00:00Z")
           1546300800000000000
           eq_refl eq_refl (or_introl eq_refl) (or_introl eq_refl)
           eq_refl eq_refl).
  vm_compute. discriminate.
Defined.

(** X18.  The list of excluded regions has no influence on the result of
    [GetAllGceInstances]: any two lists give the same instances, or the
    same error. *)
Theorem GetAllGceInstances_exclusions_irrelevant {G : GcpApi}
    (ctx : GcpContext) (excluded excluded' : list string) (t : Z) :
  GetAllGceInstances ctx excluded t = GetAllGceInstances ctx excluded' t.
Proof.
  rewrite (GetAllGceInstances_ignores_exclusions ctx excluded t).
  rewrite (GetAllGceInstances_ignores_exclusions ctx excluded' t).
  reflexivity.
Qed.

(** X19.  The listing is all or nothing: when a listed instance without
    deletion protection lies in a zone of no region of the context, or
    has a creation time that does not parse, [GetAllGceInstances] returns
    an error and no instance. *)
Theorem GetAllGceInstances_fails_on_bad_instance {G : GcpApi}
    (ctx : GcpContext) (excluded : list string) (t : Z)
    (items : list (string * InstancesScopedList))
    (key : string) (item : InstancesScopedList) (apiInstance : Instance) :
  AggregatedList_Do (Project ctx) = inr items ->
  In (key, item) items ->
  In apiInstance (Instances item) ->
  DeletionProtection apiInstance = false ->
  (exists zone err,
      zoneFromUrl (Zone apiInstance) = inr zone
      /\ regionFromZone ctx zone = inl err)
  \/ (exists err,
        time_Parse_RFC3339 (CreationTimestamp apiInstance) = inl err) ->
  exists err, GetAllGceInstances ctx excluded t = inl err.
Proof.
  intros Hlist Hitem Hapi Hprot Hbad.
  unfold GetAllGceInstances. rewrite Hlist.
  assert (Hinst : forall apis, In apiInstance apis ->
            forall acc, exists err,
              GetAllGceInstances_instances ctx excluded t apis acc = inl err).
  { induction apis as [|api rest IH]; intros Hin acc; [destruct Hin|].
    cbn [GetAllGceInstances_instances].
    destruct (DeletionProtection api) eqn:Hp.
    - destruct Hin as [->|Hin]; [congruence | exact (IH Hin acc)].
    - destruct (zoneFromUrl (Zone api)) as [e|zone] eqn:Hz;
        [eexists; reflexivity|].
      destruct (regionFromZone ctx zone) as [e|region] eqn:Hreg;
        [eexists; reflexivity|].
      destruct (excludedRegions_loop region excluded).
      destruct (time_Parse_RFC3339 (CreationTimestamp api)) as [e|ct] eqn:Hct;
        [eexists; reflexivity|].
      destruct Hin as [->|Hin].
      + exfalso. destruct Hbad as [(z & e & Hz' & He)|(e & He)]; congruence.
      + destruct (ct >? t); exact (IH Hin _). }
  clear Hlist. generalize (@nil GceInstanceResource).
  induction items as [|[key0 item0] items IH]; [destruct Hitem|]. intros acc.
  cbn [GetAllGceInstances_items].
  destruct (GetAllGceInstances_instances ctx excluded t (Instances item0) acc)
    as [e|acc'] eqn:Hi; [eexists; reflexivity|].
  destruct Hitem as [Heq|Hin]; [|exact (IH Hin acc')].
  injection Heq as -> ->.
  destruct (Hinst (Instances item) Hapi acc) as [e He]. congruence.
Qed.

Lemma GetAllGceInstances_fails_on_bad_instance_witness :
  time_Parse_RFC3339 (GcpApi := more_samples.badTimestamp) "yesterday"
  = inl (errorString "parsing time: cannot parse")
  /\ exists err,
       GetAllGceInstances (G := more_samples.badTimestamp) samples.project
         [] 1559347200000000000 = inl err.
Proof.
  split; [reflexivity|].
  apply (GetAllGceInstances_fails_on_bad_instance
           (G := more_samples.badTimestamp) samples.project
           [] 1559347200000000000 _ "zones/us-central1-a"
           (mkScopedList
              [ mkInstance "vm-3"
                  "https://www.googleapis.com/compute/v1/projects/playground/zones/us-central1-a"
                  false "yesterday" ])
           (mkInstance "vm-3"
              "https://www.googleapis.com/compute/v1/projects/playground/zones/us-central1-a"
              false "yesterday")
           eq_refl (or_introl eq_refl) (or_introl eq_refl) eq_refl).
  right. eexists. reflexivity.
Defined.

(** ** [awsNuke]: what a run does to the world *)

Lemma GetEnabledRegions_history {A : AwsApi} (w : World) :
  exists probes,
    history (fst (GetEnabledRegions w))
    = history w ++ map EvDescribeRegions probes.
Proof.
  unfold GetEnabledRegions, retryDescribeRegions.
  destruct (retryDescribeRegions_loop_spec (length OptInNotRequiredRegions) w)
    as (probes & Hh & _).
  exists probes.
  destruct (retryDescribeRegions_loop (length OptInNotRequiredRegions) w)
    as [w' [[e|regions]|msg|]]; exact Hh.
Qed.

Lemma printed_history (lines : list string) :
  forall w,
    history (fold_left (fun w line => record (EvPrintln line) w) lines w)
    = history w ++ map EvPrintln lines.
Proof.
  induction lines as [|line lines IH]; intros w; cbn [fold_left map].
  - rewrite app_nil_r. reflexivity.
  - rewrite IH. cbn [record history]. rewrite <- app_assoc. reflexivity.
Qed.

Lemma countdown_history (steps : nat) :
  forall i w,
    exists seg,
      history (countdown steps i w) = history w ++ seg
      /\ Forall (fun ev => (exists j, ev = EvCountdown j) \/ ev = EvSleep 1) seg.
Proof.
  induction steps as [|steps IH]; intros i w; cbn [countdown].
  - exists []. rewrite app_nil_r. split; [reflexivity | constructor].
  - destruct (i >? 0).
    + destruct (IH (int_add i (-1))
                  (record (EvSleep 1) (record (EvCountdown i) w)))
        as (seg & -> & Hseg).
      exists (EvCountdown i :: EvSleep 1 :: seg).
      cbn [record history]. rewrite <- !app_assoc. split; [reflexivity|].
      constructor; [left; eexists; reflexivity|].
      constructor; [right; reflexivity | exact Hseg].
    + exists []. rewrite app_nil_r. split; [reflexivity | constructor].
Qed.

Lemma awsNuke_valid_filter {P : Plugins} {A : AwsApi} {T : Terminal}
    (c : Flags) (w : World) :
  list_resource_types c = false ->
  (forall name, In name (resource_type c) ->
     name = "all"%string \/ In name ListResourceTypes) ->
  awsNuke c w = awsNuke_run c (resource_type c) w.
Proof.
  intros Hlist Hvalid. unfold awsNuke. rewrite Hlist.
  rewrite invalidResourceTypes_filter. cbn [app].
  assert (Hf : List.filter (rejected ListResourceTypes) (resource_type c) = []).
  { destruct (List.filter (rejected ListResourceTypes) (resource_type c))
      as [|x l] eqn:Hfl; [reflexivity|].
    assert (Hx : In x (List.filter (rejected ListResourceTypes) (resource_type c)))
      by (rewrite Hfl; left; reflexivity).
    apply List.filter_In in Hx. destruct Hx as [Hin Hrej].
    apply rejected_spec in Hrej. destruct (Hvalid x Hin); tauto. }
  rewrite Hf. reflexivity.
Qed.

(** The events of a run of [awsNuke], for a property [Q] of events that
    holds of what every run may add, of a prompt unless [--force] is
    given, and of a delete call when [--force] is given or the operator
    can type the confirmation. *)
Lemma awsNuke_history {P : Plugins} {A : AwsApi} {T : Terminal}
    (Q : event -> Prop) (c : Flags) (w : World) :
  (forall region, Q (EvDescribeRegions region)) ->
  (forall line, Q (EvPrintln line)) ->
  (forall i, Q (EvCountdown i)) ->
  (forall seconds, Q (EvSleep seconds)) ->
  (force c = false -> forall prompt, Q (EvPrompt prompt)) ->
  (force c = true
   \/ (exists h prompt input,
         PromptUserForInput h prompt = inr input
         /\ String.eqb (strings_ToLower input) "nuke" = true) ->
   forall session resources batch, Q (EvNuke session resources batch)) ->
  exists seg,
    history (fst (awsNuke c w)) = history w ++ seg /\ Forall Q seg.
Proof.
  intros Hprobe Hprint Hcount Hsleep Hprompt Hnuke.
  assert (Hnone : exists seg, history w = history w ++ seg /\ Forall Q seg).
  { exists []. rewrite app_nil_r. split; [reflexivity | constructor]. }
  assert (Hdeletes : forall account regions w0,
            (forall session resources batch,
               Q (EvNuke session resources batch)) ->
            exists seg,
              history (fst (nuke account regions w0)) = history w0 ++ seg
              /\ Forall Q seg).
  { intros account regions w0 HQ. unfold nuke.
    destruct (NukeAllResources_events account regions regions
                (fun r Hr => Hr) (history w0)) as (seg & Hfst & Hev).
    exists seg. split.
    - destruct (NukeAllResources account regions (history w0))
        as [h [[e|]|msg|]]; exact Hfst.
    - eapply Forall_impl; [exact Hev|]. intros ev Hf.
      destruct ev; cbn in Hf; try contradiction; [apply HQ | apply Hsleep]. }
  unfold awsNuke. destruct (list_resource_types c).
  { cbn [fst]. rewrite printed_history. eexists. split; [reflexivity|].
    apply List.Forall_forall. intros ev Hin. apply in_map_iff in Hin.
    destruct Hin as (line & <- & _). apply Hprint. }
  destruct (len _ >? 0); [exact Hnone|].
  unfold awsNuke_run.
  destruct (GetEnabledRegions_history w) as (probes & Hw1).
  assert (Hprobes : Forall Q (map EvDescribeRegions probes)).
  { apply List.Forall_forall. intros ev Hin. apply in_map_iff in Hin.
    destruct Hin as (region & <- & _). apply Hprobe. }
  assert (Hstop : exists seg,
             history (fst (GetEnabledRegions w)) = history w ++ seg
             /\ Forall Q seg) by (eexists; split; [exact Hw1 | exact Hprobes]).
  destruct (GetEnabledRegions w) as [w1 [[e|regions]|msg|]];
    cbn [fst] in *; try exact Hstop.
  destruct (invalidExcludedRegion _ _); [exact Hstop|].
  destruct (parseDurationParam _) as [e|excludeAfter]; [exact Hstop|].
  destruct (GetAllResources _ _ _ _) as [[account|] [e|]]; try exact Hstop.
  destruct (Z.of_nat (size (AccountResources account)) =? 0); [exact Hstop|].
  destruct (force c) eqn:Hforce; cbn [negb].
  - destruct (countdown_history 10 10 w1) as (s1 & Hc & Hs1).
    destruct (Hdeletes account regions
                (record (EvPrintln EmptyString) (countdown 10 10 w1))
                (Hnuke (or_introl eq_refl))) as (s2 & -> & Hs2).
    cbn [record history]. rewrite Hc, Hw1.
    exists (map EvDescribeRegions probes ++ s1 ++ EvPrintln EmptyString :: s2).
    rewrite <- !app_assoc. split; [reflexivity|].
    apply Forall_app. split; [exact Hprobes|].
    apply Forall_app. split.
    + eapply Forall_impl; [exact Hs1|]. intros ev [[j ->]| ->]; auto.
    + constructor; [apply Hprint | exact Hs2].
  - unfold confirmationPrompt.
    set (warning := EvPrintln _). set (question := EvPrompt _).
    assert (Hasked : exists seg,
               history (record question (record warning w1)) = history w ++ seg
               /\ Forall Q seg).
    { exists (map EvDescribeRegions probes ++ [warning; question]).
      cbn [record history]. rewrite Hw1, <- !app_assoc.
      split; [reflexivity|]. apply Forall_app. split; [exact Hprobes|].
      constructor; [apply Hprint|].
      constructor; [apply (Hprompt eq_refl) | constructor]. }
    destruct (PromptUserForInput (history (record warning w1)) _)
      as [e|input] eqn:Hinput; cbn [fst]; [exact Hasked|].
    destruct (String.eqb (strings_ToLower input) "nuke") eqn:Hyes;
      cbn [fst]; [|exact Hasked].
    destruct Hasked as (s1 & Hh1 & Hs1).
    destruct (Hdeletes account regions (record question (record warning w1)))
      as (s2 & -> & Hs2).
    { apply Hnuke. right. eexists _, _, input. split; [exact Hinput | exact Hyes]. }
    rewrite Hh1. exists (s1 ++ s2). rewrite <- app_assoc.
    split; [reflexivity | apply Forall_app; split; assumption].
Qed.

(** X20.  Without [--force], [awsNuke] makes no delete call unless the
    operator's answer to the prompt, in lower case, is "nuke": when no
    answer the operator gives reads so, no delete call is added to the
    history. *)
Theorem awsNuke_needs_confirmation {P : Plugins} {A : AwsApi} {T : Terminal}
    (c : Flags) (w : World) :
  force c = false ->
  (forall h prompt input,
     PromptUserForInput h prompt = inr input ->
     String.eqb (strings_ToLower input) "nuke" = false) ->
  exists seg,
    history (fst (awsNuke c w)) = history w ++ seg
    /\ Forall (fun ev => is_delete ev = false) seg.
Proof.
  intros Hforce Hno.
  apply (awsNuke_history (fun ev => is_delete ev = false)); try reflexivity.
  intros [H|(h & prompt & input & Hin & Hyes)]; [congruence|].
  rewrite (Hno h prompt input Hin) in Hyes. discriminate Hyes.
Qed.

Lemma awsNuke_needs_confirmation_witness :
  (existsb is_delete
     (history (fst (awsNuke (P := samples.plugins 2)
                      (A := more_samples.populated) (T := samples.confirming)
                      (mkFlags false [] [] "0s" false) (mkWorld 0 []))))
   = true
   /\ existsb is_prompt
        (history (fst (awsNuke (P := samples.plugins 2)
                         (A := more_samples.populated)
                         (T := more_samples.declining)
                         (mkFlags false [] [] "0s" false) (mkWorld 0 []))))
      = true)
  /\ exists seg,
       history (fst (awsNuke (P := samples.plugins 2)
                       (A := more_samples.populated)
                       (T := more_samples.declining)
                       (mkFlags false [] [] "0s" false) (mkWorld 0 [])))
       = history (mkWorld 0 []) ++ seg
       /\ Forall (fun ev => is_delete ev = false) seg.
Proof.
  split; [split; vm_compute; reflexivity|].
  apply (awsNuke_needs_confirmation (P := samples.plugins 2)
           (A := more_samples.populated) (T := more_samples.declining));
    [reflexivity|].
  intros h prompt input H. injection H as <-. reflexivity.
Defined.

(** X21.  With [--force], [awsNuke] never prompts the operator. *)
Theorem awsNuke_force_never_prompts {P : Plugins} {A : AwsApi} {T : Terminal}
    (c : Flags) (w : World) :
  force c = true ->
  exists seg,
    history (fst (awsNuke c w)) = history w ++ seg
    /\ Forall (fun ev => is_prompt ev = false) seg.
Proof.
  intros Hforce.
  apply (awsNuke_history (fun ev => is_prompt ev = false)); try reflexivity.
  congruence.
Qed.

Lemma awsNuke_force_never_prompts_witness :
  exists seg,
    history (fst (awsNuke (P := samples.plugins 2) (A := samples.emptyAccount)
                    (T := samples.confirming)
                    (mkFlags false [] [] "0s" true) (mkWorld 0 [])))
    = history (mkWorld 0 []) ++ seg
    /\ Forall (fun ev => is_prompt ev = false) seg.
Proof.
  apply (awsNuke_force_never_prompts (P := samples.plugins 2)
           (A := samples.emptyAccount) (T := samples.confirming)).
  reflexivity.
Defined.

Lemma GetAllResources_loop_all_excluded {P : Plugins} {A : AwsApi}
    (regions excluded : list string) (t : Time) (rts : list string)
    (m : gmap string AwsRegionResource) :
  (forall region, In region regions ->
     ListContainsElement excluded region = true) ->
  GetAllResources_loop regions excluded t rts m
  = (Some (mkAccountResources m), None).
Proof.
  intros Hall. induction regions as [|region regions IH];
    cbn [GetAllResources_loop]; [reflexivity|].
  rewrite (Hall region) by (left; reflexivity).
  apply IH. intros r Hr. apply Hall. right. exact Hr.
Qed.

Lemma invalidExcludedRegion_none (excludedRegions regions : list string) :
  (forall region, In region excludedRegions -> In region regions) ->
  invalidExcludedRegion excludedRegions regions = None.
Proof.
  induction excludedRegions as [|r rest IH]; intros Hall;
    cbn [invalidExcludedRegion]; [reflexivity|].
  assert (Hr : ListContainsElement regions r = true)
    by (apply ListContainsElement_In, Hall; left; reflexivity).
  rewrite Hr. cbn [negb]. apply IH. intros x Hx. apply Hall. right. exact Hx.
Qed.

Lemma invalidExcludedRegion_first (before after regions : list string)
    (bad : string) :
  (forall region, In region before -> In region regions) ->
  ~ In bad regions ->
  invalidExcludedRegion (before ++ bad :: after) regions
  = Some (InvalidFlagError "exclude-regions" bad).
Proof.
  intros Hbefore Hbad. induction before as [|r before IH];
    cbn [app invalidExcludedRegion].
  - destruct (ListContainsElement regions bad) eqn:Hc; [|reflexivity].
    apply ListContainsElement_In in Hc. contradiction.
  - assert (Hr : ListContainsElement regions r = true)
      by (apply ListContainsElement_In, Hbefore; left; reflexivity).
    rewrite Hr. cbn [negb]. apply IH. intros x Hx. apply Hbefore. right. exact Hx.
Qed.

(** X22.  When [--list-resource-types] is not given, the filter is valid,
    the enumeration of the regions succeeds, the excluded regions are
    enabled regions, every enabled region is excluded and [--older-than]
    parses as a duration, [awsNuke] returns nil in the world the
    enumeration left: the inventory is empty, and there is no prompt, no
    countdown and no delete call. *)
Theorem awsNuke_all_regions_excluded {P : Plugins} {A : AwsApi} {T : Terminal}
    (c : Flags) (w w1 : World) (regions : list string) (duration : Z) :
  list_resource_types c = false ->
  (forall name, In name (resource_type c) ->
     name = "all"%string \/ In name ListResourceTypes) ->
  GetEnabledRegions w = (w1, Returned (inr regions)) ->
  (forall region, In region (exclude_region c) -> In region regions) ->
  (forall region, In region regions -> In region (exclude_region c)) ->
  time_ParseDuration (older_than c) = inr duration ->
  awsNuke c w = (w1, Returned None).
Proof.
  intros Hlist Hvalid Hregions Hsub Hall Hparse.
  rewrite (awsNuke_valid_filter c w Hlist Hvalid).
  unfold awsNuke_run. rewrite Hregions.
  rewrite (invalidExcludedRegion_none _ _ Hsub).
  unfold parseDurationParam, stackTraced. rewrite Hparse.
  unfold GetAllResources.
  rewrite GetAllResources_loop_all_excluded
    by (intros r Hr; apply ListContainsElement_In, Hall, Hr).
  cbn [AccountResources]. rewrite map_size_empty. reflexivity.
Qed.

Lemma awsNuke_all_regions_excluded_witness :
  awsNuke (P := samples.plugins 2) (A := samples.emptyAccount)
    (T := samples.confirming)
    (mkFlags false ["ec2"]%string ["us-west-2"; "us-east-1"]%string "0s" true)
    (mkWorld 0 [])
  = (mkWorld 13
       (map EvDescribeRegions
          [ "eu-north-1"; "ap-south-1"; "eu-west-3"; "eu-west-2"; "eu-west-1";
            "ap-northeast-2"; "ap-northeast-1"; "sa-east-1"; "ca-central-1";
            "ap-southeast-1"; "ap-southeast-2"; "eu-central-1";
            "us-east-1" ]%string),
     Returned None).
Proof.
  apply (awsNuke_all_regions_excluded (P := samples.plugins 2)
           (A := samples.emptyAccount) (T := samples.confirming)
           _ _ _ ["us-east-1"; "us-west-2"]%string 0).
  - reflexivity.
  - intros name [<-|[]]. right. vm_compute. tauto.
  - vm_compute. reflexivity.
  - cbn. tauto.
  - cbn. tauto.
  - reflexivity.
Defined.

(** X23.  When [--list-resource-types] is not given, the filter is valid,
    the enumeration of the regions succeeds and an excluded region is not
    among the enabled regions, [awsNuke] returns the [InvalidFlagError] of
    the flag "exclude-regions" for the first such region, in the world the
    enumeration left (no prompt, no countdown, no delete call), whatever
    [--older-than] holds. *)
Theorem awsNuke_invalid_excluded_region {P : Plugins} {A : AwsApi}
    {T : Terminal} (c : Flags) (w w1 : World) (regions : list string)
    (before after : list string) (bad : string) :
  list_resource_types c = false ->
  (forall name, In name (resource_type c) ->
     name = "all"%string \/ In name ListResourceTypes) ->
  GetEnabledRegions w = (w1, Returned (inr regions)) ->
  exclude_region c = before ++ bad :: after ->
  (forall region, In region before -> In region regions) ->
  ~ In bad regions ->
  awsNuke c w = (w1, Returned (Some (InvalidFlagError "exclude-regions" bad))).
Proof.
  intros Hlist Hvalid Hregions Hexcl Hbefore Hbad.
  rewrite (awsNuke_valid_filter c w Hlist Hvalid).
  unfold awsNuke_run. rewrite Hregions, Hexcl.
  rewrite (invalidExcludedRegion_first _ _ _ _ Hbefore Hbad). reflexivity.
Qed.

Lemma awsNuke_invalid_excluded_region_witness :
  awsNuke (P := samples.plugins 2) (A := samples.emptyAccount)
    (T := samples.confirming)
    (mkFlags false [] ["us-west-2"; "mars-north-1"; "us-east-1"]%string "0s" true)
    (mkWorld 0 [])
  = (mkWorld 13
       (map EvDescribeRegions
          [ "eu-north-1"; "ap-south-1"; "eu-west-3"; "eu-west-2"; "eu-west-1";
            "ap-northeast-2"; "ap-northeast-1"; "sa-east-1"; "ca-central-1";
            "ap-southeast-1"; "ap-southeast-2"; "eu-central-1";
            "us-east-1" ]%string),
     Returned (Some (InvalidFlagError "exclude-regions" "mars-north-1"))).
Proof.
  apply (awsNuke_invalid_excluded_region (P := samples.plugins 2)
           (A := samples.emptyAccount) (T := samples.confirming)
           _ _ _ ["us-east-1"; "us-west-2"]%string
           ["us-west-2"]%string ["us-east-1"]%string "mars-north-1").
  - reflexivity.
  - intros name [].
  - vm_compute. reflexivity.
  - reflexivity.
  - cbn. tauto.
  - cbn. intuition discriminate.
Defined.

(** ** [getRandomRegion] *)

(** X24.  When the enumeration finds regions, [getRandomRegion] returns
    one of them; when it finds none, [rand.Intn] is called with 0 and the
    function panics. *)
Theorem getRandomRegion_member {A : AwsApi} {R : Seeding}
    (w w1 : World) (regions : list string) :
  GetEnabledRegions w = (w1, Returned (inr regions)) ->
  match regions with
  | [] => snd (getRandomRegion w) = Panicked "invalid argument to Intn"
  | _ :: _ =>
      exists region,
        snd (getRandomRegion w) = Returned (inr region) /\ In region regions
  end.
Proof.
  intros Hregions. unfold getRandomRegion. rewrite Hregions.
  destruct regions as [|r regions]; [reflexivity|].
  unfold seeded_Intn.
  assert (Hpos : 0 < len (r :: regions))
    by (unfold len; cbn [length]; lia).
  destruct (Z.leb_spec (len (r :: regions)) 0) as [?|_]; [lia|].
  eexists. split; [reflexivity|]. apply nth_In.
  cbn [seed seeded_calls].
  assert (H : 0 <= seeded_source time_Now_UnixNano 0 mod len (r :: regions)
              < len (r :: regions))
    by (apply Z.mod_pos_bound; exact Hpos).
  unfold len in *. lia.
Qed.

Lemma getRandomRegion_member_witness :
  exists region,
    snd (getRandomRegion (A := samples.emptyAccount)
           (R := command_samples.seeding) (mkWorld 0 []))
    = Returned (inr region)
    /\ In region ["us-east-1"; "us-west-2"]%string.
Proof.
  apply (getRandomRegion_member (A := samples.emptyAccount)
           (R := command_samples.seeding) (mkWorld 0 [])
           (mkWorld 13
              (map EvDescribeRegions
                 [ "eu-north-1"; "ap-south-1"; "eu-west-3"; "eu-west-2";
                   "eu-west-1"; "ap-northeast-2"; "ap-northeast-1";
                   "sa-east-1"; "ca-central-1"; "ap-southeast-1";
                   "ap-southeast-2"; "eu-central-1"; "us-east-1" ]%string))
           ["us-east-1"; "us-west-2"]%string).
  vm_compute. reflexivity.
Defined.

(** ** [gcpNuke] *)


(** X26.  [gcpNuke] returns nil only when it handed nothing to
    [ctx.NukeAllResources] or when the deletion reported no error; a
    deletion that reports errors makes it return an error. *)
Theorem gcpNuke_nil_means_no_failure {T : Terminal} {C : GcpCommands}
    (c : GcpFlags) (w : GcpWorld) :
  snd (gcpNuke c w) = None ->
  gcp_nuked (fst (gcpNuke c w)) = gcp_nuked w
  \/ exists ctx resources,
       DefaultContext = inr ctx
       /\ gcp_nuked (fst (gcpNuke c w)) = gcp_nuked w ++ [resources]
       /\ ctx_NukeAllResources ctx resources = [].
Proof.
  unfold gcpNuke.
  destruct DefaultContext as [e|ctx] eqn:Hctx; [left; reflexivity|].
  destruct (gcp_invalidExcludedRegion ctx _); [left; reflexivity|].
  destruct (parseDurationParam _) as [e|excludeAfter]; [left; reflexivity|].
  destruct (ctx_GetAllResources ctx _ excludeAfter) as [e|resources];
    [left; reflexivity|].
  destruct (len resources =? 0); [left; reflexivity|].
  destruct (promptForConfirmationBeforeNuking _ _) as [t1 [e|confirmation]];
    [left; reflexivity|].
  destruct confirmation; [|left; reflexivity].
  destruct (ctx_NukeAllResources ctx resources) as [|e errs] eqn:Herrs;
    cbn [len length Z.of_nat Z.eqb negb fst snd].
  - intros _. right. exists ctx, resources. repeat split; auto.
  - unfold len. cbn [length]. rewrite Nat2Z.inj_succ.
    destruct (Z.eqb_spec (Z.succ (Z.of_nat (length errs))) 0) as [?|_]; [lia|].
    cbn [negb snd]. discriminate.
Qed.

Lemma gcpNuke_nil_means_no_failure_witness :
  snd (gcpNuke (T := samples.confirming) (C := command_samples.succeedingDeletion)
         (mkGcpFlags [] "0s" true) (mkGcpWorld (mkWorld 0 []) []))
  = None
  /\ snd (gcpNuke (T := samples.confirming)
            (C := command_samples.failingDeletion)
            (mkGcpFlags [] "0s" true) (mkGcpWorld (mkWorld 0 []) []))
     = Some (Err (errorString "Some resources failed to nuke."))
  /\ (gcp_nuked (fst (gcpNuke (T := samples.confirming)
                        (C := command_samples.succeedingDeletion)
                        (mkGcpFlags [] "0s" true)
                        (mkGcpWorld (mkWorld 0 []) [])))
      = gcp_nuked (mkGcpWorld (mkWorld 0 []) [])
      \/ exists ctx resources,
           DefaultContext (GcpCommands := command_samples.succeedingDeletion)
           = inr ctx
           /\ gcp_nuked (fst (gcpNuke (T := samples.confirming)
                                (C := command_samples.succeedingDeletion)
                                (mkGcpFlags [] "0s" true)
                                (mkGcpWorld (mkWorld 0 []) [])))
              = gcp_nuked (mkGcpWorld (mkWorld 0 []) []) ++ [resources]
           /\ ctx_NukeAllResources
                (GcpCommands := command_samples.succeedingDeletion)
                ctx resources = []).
Proof.
  split; [vm_compute; reflexivity|]. split; [vm_compute; reflexivity|].
  apply (gcpNuke_nil_means_no_failure (T := samples.confirming)
           (C := command_samples.succeedingDeletion)).
  vm_compute. reflexivity.
Defined.

(** ** [awsDefaults] *)

(** X27.  With [--force], once the regions are enumerated and the default
    VPCs and security groups are found, [awsDefaults] deletes at once,
    without prompt or countdown: the VPCs first (unless there is none),
    then the rules of the security groups; and it returns nil whatever
    the two deletions return. *)
Theorem awsDefaults_force {A : AwsApi} {T : Terminal} {D : DefaultsApi}
    (w : DefaultsWorld) (t1 : World) (regions : list string)
    (vpcs : list Vpc) (groups : list DefaultSecurityGroup) :
  GetEnabledRegions (terminal w) = (t1, Returned (inr regions)) ->
  GetDefaultVpcs (NewVpcPerRegion regions) = inr vpcs ->
  GetDefaultSecurityGroups regions = inr groups ->
  awsDefaults true w
  = (mkDefaultsWorld t1
       (deletions w
          ++ (if len vpcs =? 0 then [] else [NukeVpcsCall vpcs])
          ++ [NukeRulesCall groups]),
     Returned None).
Proof.
  intros Hregions Hvpcs Hgroups.
  unfold awsDefaults, nukeDefaultVpcs, nukeDefaultSecurityGroups.
  rewrite Hregions, Hvpcs. cbn [negb orb terminal deletions].
  destruct (len vpcs =? 0).
  - rewrite Hgroups. cbn [negb orb terminal deletions app].
    destruct (NukeDefaultSecurityGroupRules groups); reflexivity.
  - destruct (NukeVpcs vpcs); rewrite Hgroups;
      cbn [negb orb terminal deletions];
      destruct (NukeDefaultSecurityGroupRules groups);
      rewrite <- app_assoc; reflexivity.
Qed.

Lemma awsDefaults_force_witness :
  NukeVpcs (DefaultsApi := command_samples.stubbornDefaults)
    [mkVpc "us-east-1" "vpc-default"; mkVpc "us-west-2" "vpc-default"]
  = Some (errorString "DependencyViolation")
  /\ snd (awsDefaults (A := samples.emptyAccount) (T := samples.confirming)
            (D := command_samples.stubbornDefaults) true
            (mkDefaultsWorld (mkWorld 0 []) []))
     = Returned None.
Proof.
  split; [reflexivity|].
  rewrite (awsDefaults_force (A := samples.emptyAccount)
             (T := samples.confirming) (D := command_samples.stubbornDefaults)
             (mkDefaultsWorld (mkWorld 0 []) [])
             (mkWorld 13
                (map EvDescribeRegions
                   [ "eu-north-1"; "ap-south-1"; "eu-west-3"; "eu-west-2";
                     "eu-west-1"; "ap-northeast-2"; "ap-northeast-1";
                     "sa-east-1"; "ca-central-1"; "ap-southeast-1";
                     "ap-southeast-2"; "eu-central-1"; "us-east-1" ]%string))
             ["us-east-1"; "us-west-2"]%string
             [mkVpc "us-east-1" "vpc-default"; mkVpc "us-west-2" "vpc-default"]
             [mkDefaultSecurityGroup "sg-default" "default" "us-east-1";
              mkDefaultSecurityGroup "sg-default" "default" "us-west-2"]);
    [reflexivity | vm_compute; reflexivity | reflexivity | reflexivity].
Defined.

Lemma confirmationPrompt_declined {T : Terminal} (prompt : string) (w : World) :
  (forall h p input,
     PromptUserForInput h p = inr input ->
     String.eqb (strings_ToLower input) "nuke" = false) ->
  snd (confirmationPrompt prompt w) <> inr true.
Proof.
  intros Hno. unfold confirmationPrompt.
  destruct (PromptUserForInput _ prompt) as [e|input] eqn:Hin;
    [discriminate|].
  rewrite (Hno _ _ _ Hin). discriminate.
Qed.

(** X28.  Without [--force], [awsDefaults] deletes neither VPCs nor
    security-group rules unless the operator's answer to a prompt, in
    lower case, is "nuke". *)
Theorem awsDefaults_needs_confirmation {A : AwsApi} {T : Terminal}
    {D : DefaultsApi} (w : DefaultsWorld) :
  (forall h prompt input,
     PromptUserForInput h prompt = inr input ->
     String.eqb (strings_ToLower input) "nuke" = false) ->
  deletions (fst (awsDefaults false w)) = deletions w.
Proof.
  intros Hno.
  assert (Hvpcs : forall regions w0,
            deletions (fst (nukeDefaultVpcs false regions w0)) = deletions w0).
  { intros regions w0. unfold nukeDefaultVpcs.
    destruct (GetDefaultVpcs _) as [e|vpcs]; [reflexivity|].
    destruct (len vpcs =? 0); [reflexivity|]. cbn [negb].
    pose proof (confirmationPrompt_declined
                  (newline +:+ "Are you sure you want to nuke all default VPCs? Enter 'nuke' to confirm: ")
                  (terminal w0) Hno) as Hdecl.
    destruct (confirmationPrompt _ (terminal w0)) as [t1 [e|[|]]];
      cbn [snd] in Hdecl; try reflexivity.
    congruence. }
  assert (Hgroups : forall regions w0,
            deletions (fst (nukeDefaultSecurityGroups false regions w0))
            = deletions w0).
  { intros regions w0. unfold nukeDefaultSecurityGroups.
    destruct (GetDefaultSecurityGroups _) as [e|groups]; [reflexivity|].
    cbn [negb].
    pose proof (confirmationPrompt_declined
                  (newline +:+ "Are you sure you want to nuke the rules in these default security groups ? Enter 'nuke' to confirm: ")
                  (terminal w0) Hno) as Hdecl.
    destruct (confirmationPrompt _ (terminal w0)) as [t1 [e|[|]]];
      cbn [snd] in Hdecl; try reflexivity.
    congruence. }
  unfold awsDefaults.
  destruct (GetEnabledRegions (terminal w)) as [t1 [[e|regions]|msg|]];
    try reflexivity.
  specialize (Hvpcs regions (mkDefaultsWorld t1 (deletions w))).
  destruct (nukeDefaultVpcs false regions _) as [w1 [e|]];
    cbn [fst deletions] in Hvpcs; [exact Hvpcs|].
  specialize (Hgroups regions w1).
  destruct (nukeDefaultSecurityGroups false regions w1) as [w2 [e|]];
    cbn [fst] in Hgroups |- *; congruence.
Qed.

Lemma awsDefaults_needs_confirmation_witness :
  deletions (fst (awsDefaults (A := samples.emptyAccount)
                    (T := more_samples.declining)
                    (D := command_samples.stubbornDefaults) false
                    (mkDefaultsWorld (mkWorld 0 []) [])))
  = deletions (mkDefaultsWorld (mkWorld 0 []) []).
Proof.
  apply (awsDefaults_needs_confirmation (A := samples.emptyAccount)
           (T := more_samples.declining)
           (D := command_samples.stubbornDefaults)).
  intros h prompt input H. injection H as <-. reflexivity.
Defined.
